(** * netOnZeroDXC_diagram: the orchestrator of the correlation / p-value
    diagram tool, embedded from [src/netOnZeroDXC_diagram.cpp].

    The development follows the source file: the option parser
    [netOnZeroDXC_xc_parse_options], the validation routine
    [netOnZeroDXC_xc_check_sequences] and [main].  The numerical kernels
    (netOnZeroDXC_algorithm.hpp) and the file/stream layer
    (netOnZeroDXC_io.hpp) are declared in headers only; they are taken as
    interfaces, and every call that [main] makes to them is recorded in a
    trace of events.

    Conventions.
    - [int] values are integers of [Z] in the range of a 32-bit signed
      integer; signed overflow has no defined result ([Undefined]).
    - [size_t] arithmetic is written out modulo [2^64], [unsigned int]
      arithmetic modulo [2^32].
    - [double] values are stood for by exact rationals ([Q]); no theorem
      below depends on rounding.
    - A run is a trace of events together with how it ended: a value
      ([Ret]), a call to [exit] ([Exit]), or no defined result
      ([Undefined]: an out-of-range access, a null argument, signed
      overflow, a division by zero or a loop that does not finish). *)

From Stdlib Require Import ZArith QArith List String Ascii Bool Lia Permutation.
Import ListNotations.
Local Open Scope Z_scope.

(** ** Machine integers *)

Module MachineInt.

Definition INT_MIN : Z := - 2 ^ 31.
Definition INT_MAX : Z := 2 ^ 31 - 1.

Definition in_int (z : Z) : bool := (INT_MIN <=? z) && (z <=? INT_MAX).

(** Conversion of an integer to [size_t] (64 bits, unsigned). *)
Definition to_size_t (z : Z) : Z := z mod 2 ^ 64.

(** Conversion of an integer to [unsigned int] (32 bits). *)
Definition to_uint (z : Z) : Z := z mod 2 ^ 32.

End MachineInt.
Import MachineInt.

(** ** The C library function [atoi] *)

Module CLib.

Definition isspace (c : ascii) : bool :=
  let n := nat_of_ascii c in
  (Nat.eqb n 32 || (Nat.leb 9 n && Nat.leb n 13))%bool.

Definition digit_of (c : ascii) : option Z :=
  let n := Z.of_nat (nat_of_ascii c) in
  if (48 <=? n) && (n <=? 57) then Some (n - 48) else None.

Fixpoint skip_spaces (s : string) : string :=
  match s with
  | String c r => if isspace c then skip_spaces r else s
  | EmptyString => s
  end.

Fixpoint read_digits (s : string) (acc : Z) : Z :=
  match s with
  | String c r =>
      match digit_of c with
      | Some d => read_digits r (10 * acc + d)
      | None => acc
      end
  | EmptyString => acc
  end.

(** [atoi]: leading white space, an optional sign, then as many decimal
    digits as there are; no digits give 0.  A value outside [int] has no
    defined result ([None]). *)
Definition atoi (s : string) : option Z :=
  let v :=
    match skip_spaces s with
    | String c r =>
        if Ascii.eqb c "-" then - read_digits r 0
        else if Ascii.eqb c "+" then read_digits r 0
        else read_digits (String c r) 0
    | EmptyString => 0
    end in
  if in_int v then Some v else None.

End CLib.
Import CLib.

(** ** Events and runs *)

Definition sequences := list (list Q).
Definition diagram := list (list Q).

(** What the program writes on the error stream. *)
Inductive stderr_message : Type :=
| MsgHelp (program_name : string)
| MsgColumnsNotSet (program_name : string)
| MsgWidthsNotSet (program_name : string)
| MsgBaseWidthNotSet (program_name : string)
| MsgCannotRead (filename : string)
| MsgInconsistentSizes
| MsgColumnsTooLarge
| MsgNegativeDiagramSize
| MsgOddBaseWidth (reduced_to : Z)
| MsgWriteError (filename : string).

(** One event per observable action of [main]: messages, the calls into
    the numerical kernels with the scalar arguments they receive, and the
    two ways a table leaves the program. *)
Inductive event : Type :=
| EvStderr (m : stderr_message)
| EvComputeCdiagram (index_a index_b L W : Z) (apply_delay : bool) (tau : Z)
| EvInitializeSurrogate (index : Z)
| EvGenerateSurrogate (index : Z) (seed : Z)
| EvUpdatePdiagram (W M : Z)
| EvStdout (table : diagram) (separator : ascii)
| EvSaveFile (table : diagram) (filename : string) (separator : ascii).

Inductive result (A : Type) : Type :=
| Ret (a : A)
| Exit (status : Z)
| Undefined.
Arguments Ret {A} a.
Arguments Exit {A} status.
Arguments Undefined {A}.

Definition Run (A : Type) : Type := (list event * result A)%type.

Definition ret {A} (a : A) : Run A := ([], Ret a).
Definition exit {A} (status : Z) : Run A := ([], Exit status).
Definition undefined {A} : Run A := ([], Undefined).
Definition emit (e : event) : Run unit := ([e], Ret tt).

Definition bind {A B} (m : Run A) (f : A -> Run B) : Run B :=
  match m with
  | (t, Ret a) => let (t', r) := f a in (t ++ t', r)
  | (t, Exit s) => (t, Exit s)
  | (t, Undefined) => (t, Undefined)
  end.

Declare Scope run_scope.
Delimit Scope run_scope with run.
Notation "x <- m ;; k" := (bind m (fun x => k))
  (at level 61, m at next level, right associativity) : run_scope.
Notation "' p <- m ;; k" := (bind m (fun x => match x with p => k end))
  (at level 61, p pattern, m at next level, right associativity) : run_scope.
Notation "m ;;; k" := (bind m (fun _ => k))
  (at level 61, right associativity) : run_scope.
Local Open Scope run_scope.

Definition trace {A} (m : Run A) : list event := fst m.
Definition outcome {A} (m : Run A) : result A := snd m.

(** Lifting of the partial operations. *)
Definition of_option {A} (o : option A) : Run A :=
  match o with Some a => ret a | None => undefined end.

Definition int_of (z : Z) : Run Z := if in_int z then ret z else undefined.
Definition int_add (a b : Z) : Run Z := int_of (a + b).
Definition int_sub (a b : Z) : Run Z := int_of (a - b).
Definition int_mul (a b : Z) : Run Z := int_of (a * b).

Fixpoint mapM {A B} (f : A -> option B) (l : list A) : option (list B) :=
  match l with
  | [] => Some []
  | a :: l' =>
      match f a, mapM f l' with
      | Some b, Some bs => Some (b :: bs)
      | _, _ => None
      end
  end.

(** ** The variables that [main] hands to the option parser by reference *)

Record options : Type := mkOptions {
  read_from_file : bool;
  write_to_file : bool;
  print_corr_diagram : bool;
  compute_pvalue_diagram : bool;
  enable_parallel_computing : bool;
  index_a : Z;
  index_b : Z;
  apply_tau : Z;
  nr_window_widths : Z;
  window_basewidth : Z;
  nr_surrogates : Z;
  selected_input_filename : string;
  selected_output_filename : string;
  separator_char : ascii
}.

(** Their values at the call (lines 58-68 of the source). *)
Definition initial_options : options :=
  {| read_from_file := false;
     write_to_file := false;
     print_corr_diagram := false;
     compute_pvalue_diagram := false;
     enable_parallel_computing := false;
     index_a := -1;
     index_b := -1;
     apply_tau := -1;
     nr_window_widths := -1;
     window_basewidth := -1;
     nr_surrogates := 100;
     selected_input_filename := EmptyString;
     selected_output_filename := EmptyString;
     separator_char := "t"%char |}.

(** Assignment to one of them. *)
Definition set_read_from_file (v : bool) (o : options) : options :=
  mkOptions v (write_to_file o) (print_corr_diagram o) (compute_pvalue_diagram o) (enable_parallel_computing o) (index_a o) (index_b o) (apply_tau o) (nr_window_widths o) (window_basewidth o) (nr_surrogates o) (selected_input_filename o) (selected_output_filename o) (separator_char o).
Definition set_write_to_file (v : bool) (o : options) : options :=
  mkOptions (read_from_file o) v (print_corr_diagram o) (compute_pvalue_diagram o) (enable_parallel_computing o) (index_a o) (index_b o) (apply_tau o) (nr_window_widths o) (window_basewidth o) (nr_surrogates o) (selected_input_filename o) (selected_output_filename o) (separator_char o).
Definition set_print_corr_diagram (v : bool) (o : options) : options :=
  mkOptions (read_from_file o) (write_to_file o) v (compute_pvalue_diagram o) (enable_parallel_computing o) (index_a o) (index_b o) (apply_tau o) (nr_window_widths o) (window_basewidth o) (nr_surrogates o) (selected_input_filename o) (selected_output_filename o) (separator_char o).
Definition set_compute_pvalue_diagram (v : bool) (o : options) : options :=
  mkOptions (read_from_file o) (write_to_file o) (print_corr_diagram o) v (enable_parallel_computing o) (index_a o) (index_b o) (apply_tau o) (nr_window_widths o) (window_basewidth o) (nr_surrogates o) (selected_input_filename o) (selected_output_filename o) (separator_char o).
Definition set_enable_parallel_computing (v : bool) (o : options) : options :=
  mkOptions (read_from_file o) (write_to_file o) (print_corr_diagram o) (compute_pvalue_diagram o) v (index_a o) (index_b o) (apply_tau o) (nr_window_widths o) (window_basewidth o) (nr_surrogates o) (selected_input_filename o) (selected_output_filename o) (separator_char o).
Definition set_index_a (v : Z) (o : options) : options :=
  mkOptions (read_from_file o) (write_to_file o) (print_corr_diagram o) (compute_pvalue_diagram o) (enable_parallel_computing o) v (index_b o) (apply_tau o) (nr_window_widths o) (window_basewidth o) (nr_surrogates o) (selected_input_filename o) (selected_output_filename o) (separator_char o).
Definition set_index_b (v : Z) (o : options) : options :=
  mkOptions (read_from_file o) (write_to_file o) (print_corr_diagram o) (compute_pvalue_diagram o) (enable_parallel_computing o) (index_a o) v (apply_tau o) (nr_window_widths o) (window_basewidth o) (nr_surrogates o) (selected_input_filename o) (selected_output_filename o) (separator_char o).
Definition set_apply_tau (v : Z) (o : options) : options :=
  mkOptions (read_from_file o) (write_to_file o) (print_corr_diagram o) (compute_pvalue_diagram o) (enable_parallel_computing o) (index_a o) (index_b o) v (nr_window_widths o) (window_basewidth o) (nr_surrogates o) (selected_input_filename o) (selected_output_filename o) (separator_char o).
Definition set_nr_window_widths (v : Z) (o : options) : options :=
  mkOptions (read_from_file o) (write_to_file o) (print_corr_diagram o) (compute_pvalue_diagram o) (enable_parallel_computing o) (index_a o) (index_b o) (apply_tau o) v (window_basewidth o) (nr_surrogates o) (selected_input_filename o) (selected_output_filename o) (separator_char o).
Definition set_window_basewidth (v : Z) (o : options) : options :=
  mkOptions (read_from_file o) (write_to_file o) (print_corr_diagram o) (compute_pvalue_diagram o) (enable_parallel_computing o) (index_a o) (index_b o) (apply_tau o) (nr_window_widths o) v (nr_surrogates o) (selected_input_filename o) (selected_output_filename o) (separator_char o).
Definition set_nr_surrogates (v : Z) (o : options) : options :=
  mkOptions (read_from_file o) (write_to_file o) (print_corr_diagram o) (compute_pvalue_diagram o) (enable_parallel_computing o) (index_a o) (index_b o) (apply_tau o) (nr_window_widths o) (window_basewidth o) v (selected_input_filename o) (selected_output_filename o) (separator_char o).
Definition set_selected_input_filename (v : string) (o : options) : options :=
  mkOptions (read_from_file o) (write_to_file o) (print_corr_diagram o) (compute_pvalue_diagram o) (enable_parallel_computing o) (index_a o) (index_b o) (apply_tau o) (nr_window_widths o) (window_basewidth o) (nr_surrogates o) v (selected_output_filename o) (separator_char o).
Definition set_selected_output_filename (v : string) (o : options) : options :=
  mkOptions (read_from_file o) (write_to_file o) (print_corr_diagram o) (compute_pvalue_diagram o) (enable_parallel_computing o) (index_a o) (index_b o) (apply_tau o) (nr_window_widths o) (window_basewidth o) (nr_surrogates o) (selected_input_filename o) v (separator_char o).
Definition set_separator_char (v : ascii) (o : options) : options :=
  mkOptions (read_from_file o) (write_to_file o) (print_corr_diagram o) (compute_pvalue_diagram o) (enable_parallel_computing o) (index_a o) (index_b o) (apply_tau o) (nr_window_widths o) (window_basewidth o) (nr_surrogates o) (selected_input_filename o) (selected_output_filename o) v.

(** ** netOnZeroDXC_xc_parse_options (lines 237-315) *)

(** The [while (n < argc)] loop over [argv[1..argc-1]].  [args] is what is
    left of [argv] from position [n] on; [argv[argc]] is the null pointer,
    so an option that reads its value past the last argument has no
    defined result. *)
Fixpoint parse_loop (program_name : string) (args : list string) (o : options)
  : Run options :=
  match args with
  | [] => ret o
  | a :: rest =>
      if (a =? "-n")%string then
        match rest with
        | x :: y :: rest' =>
            ia <- of_option (atoi x) ;;
            ib <- of_option (atoi y) ;;
            parse_loop program_name rest' (set_index_b ib (set_index_a ia o))
        | _ => undefined
        end
      else if (a =? "-i")%string then
        match rest with
        | x :: rest' =>
            parse_loop program_name rest'
              (set_selected_input_filename x (set_read_from_file true o))
        | [] => undefined
        end
      else if (a =? "-o")%string then
        match rest with
        | x :: rest' =>
            parse_loop program_name rest'
              (set_selected_output_filename x (set_write_to_file true o))
        | [] => undefined
        end
      else if (a =? "-s")%string then
        match rest with
        | x :: rest' =>
            let c := match x with String c _ => c | EmptyString => zero end in
            parse_loop program_name rest' (set_separator_char c o)
        | [] => undefined
        end
      else if (a =? "-parallel")%string then
        parse_loop program_name rest (set_enable_parallel_computing true o)
      else if ((a =? "-C") || (a =? "-c"))%string then
        parse_loop program_name rest (set_print_corr_diagram true o)
      else if (a =? "-p")%string then
        parse_loop program_name rest (set_compute_pvalue_diagram true o)
      else if (a =? "-W")%string then
        match rest with
        | x :: rest' =>
            w <- of_option (atoi x) ;;
            parse_loop program_name rest' (set_nr_window_widths w o)
        | [] => undefined
        end
      else if (a =? "-L")%string then
        match rest with
        | x :: rest' =>
            l <- of_option (atoi x) ;;
            parse_loop program_name rest' (set_window_basewidth l o)
        | [] => undefined
        end
      else if (a =? "-M")%string then
        match rest with
        | x :: rest' =>
            m <- of_option (atoi x) ;;
            parse_loop program_name rest' (set_nr_surrogates m o)
        | [] => undefined
        end
      else if (a =? "-tau")%string then
        match rest with
        | x :: rest' =>
            t <- of_option (atoi x) ;;
            parse_loop program_name rest' (set_apply_tau t o)
        | [] => undefined
        end
      else if ((a =? "-h") || (a =? "--help"))%string then
        emit (EvStderr (MsgHelp program_name)) ;;; exit 0
      else parse_loop program_name rest o
  end.

(** Lines 289-292: the default is the p-value diagram, and a request for
    both keeps the p-value diagram only. *)
Definition resolve_mode (o : options) : options :=
  if negb (compute_pvalue_diagram o) && negb (print_corr_diagram o)
  then set_compute_pvalue_diagram true o
  else if compute_pvalue_diagram o && print_corr_diagram o
  then set_print_corr_diagram false o
  else o.

(** Lines 306-312. *)
Definition resolve_separator (c : ascii) : ascii :=
  if Ascii.eqb c "s" then " "%char
  else if Ascii.eqb c "c" then ","%char
  else "009"%char.

(** The function returns its error code; the second component is the
    value of the variables passed by reference when it returns. *)
Definition netOnZeroDXC_xc_parse_options
    (program_name : string) (args : list string) (o : options)
  : Run (Z * options) :=
  o <- parse_loop program_name args o ;;
  let o := resolve_mode o in
  if (index_a o <=? 0) || (index_b o <=? 0) then
    emit (EvStderr (MsgColumnsNotSet program_name)) ;;; ret (1, o)
  else if nr_window_widths o <=? 0 then
    emit (EvStderr (MsgWidthsNotSet program_name)) ;;; ret (1, o)
  else if window_basewidth o <=? 0 then
    emit (EvStderr (MsgBaseWidthNotSet program_name)) ;;; ret (1, o)
  else
    ret (0, set_separator_char (resolve_separator (separator_char o)) o).

(** ** netOnZeroDXC_xc_check_sequences (lines 317-335) *)

(** Line 324 compares [floor((sequences[na].size() - L * W) / L) -
    ((tau > 0) ? tau : 0)] with 1.  The subtraction and the division are
    done in [size_t] (the [int] operands are converted), and only the
    quotient becomes a [double].  The quotient is an integer and [tau] is
    an [int], so the comparison of doubles agrees with the comparison of
    the integers written here. *)
Definition expected_diagram_size (n L W tau : Z) : Run Z :=
  LW <- int_mul L W ;;
  if to_size_t L =? 0 then undefined
  else ret (to_size_t (n - LW) / to_size_t L - (if 0 <? tau then tau else 0)).

(** Lines 324-334, with [n] for [sequences[na].size()].  The result is
    the error code and the value of [L], passed by reference, on return.
    [L] is odd where it is decremented, so [L - 1] is an [int]. *)
Definition check_windowing (n W L tau : Z) : Run (Z * Z) :=
  K <- expected_diagram_size n L W tau ;;
  if K <? 1 then
    emit (EvStderr MsgNegativeDiagramSize) ;;; ret (1, L)
  else if negb (Z.rem L 2 =? 0) then
    let L' := L - 1 in
    emit (EvStderr (MsgOddBaseWidth L')) ;;; ret (0, L')
  else ret (0, L).

(** [sequences[na]] is an access at position [na] itself, with [na]
    converted to [size_t]. *)
Definition netOnZeroDXC_xc_check_sequences
    (seqs : sequences) (na nb W L tau : Z) : Run (Z * Z) :=
  let size := Z.of_nat (List.length seqs) in
  if (size <? to_size_t na) || (size <? to_size_t nb) then
    emit (EvStderr MsgColumnsTooLarge) ;;; ret (1, L)
  else
    s <- of_option (nth_error seqs (Z.to_nat (to_size_t na))) ;;
    check_windowing (Z.of_nat (List.length s)) W L tau.
(** ** The two headers *)

(** netOnZeroDXC_algorithm.hpp: the numerical kernels.  An argument that
    the kernel fills is the result here; the diagram handed to
    [netOnZeroDXC_compute_cdiagram] and to [netOnZeroDXC_update_pdiagram]
    is both read and written, so it is an argument and the result. *)
Class Algorithm : Type := {
  TOLERANCE_SURROGATES : Q;
  netOnZeroDXC_compute_cdiagram :
    diagram -> sequences -> Z -> Z -> Z -> Z -> bool -> Z -> diagram;
  netOnZeroDXC_initialize_surrogate_generation :
    sequences -> Z -> list Q * list Q;
  netOnZeroDXC_generate_surrogate_sequence :
    sequences -> Z -> list Q -> list Q -> Q -> Z -> list Q;
  netOnZeroDXC_update_pdiagram :
    diagram -> diagram -> diagram -> Z -> Z -> diagram
}.

(** netOnZeroDXC_io.hpp: loading and saving of tables. *)
Class InputOutput : Type := {
  netOnZeroDXC_load_single_file : string -> ascii -> Z * sequences;
  netOnZeroDXC_load_stdin : ascii -> list (list Q);
  netOnZeroDXC_check_linear_sizes : sequences -> Z;
  netOnZeroDXC_save_single_file : diagram -> string -> ascii -> Z
}.

(** The indices [0 .. n-1] of a [for] loop with an [int] counter. *)
Definition iota (n : Z) : list Z := map Z.of_nat (seq 0 (Z.to_nat n)).

(** What the process gets from its environment: the value of [clock()],
    and the order in which the OpenMP runtime hands out the iterations of
    the [parallel for] loop.  Every iteration is run exactly once.  The
    iterations are taken one after the other, which is what a team of one
    thread does (then the order is [iota n]) and is one of the
    interleavings of a larger team. *)
Class Runtime : Type := {
  clock : Z;
  omp_dispatch : Z -> list Z;
  omp_dispatch_perm : forall n, Permutation (omp_dispatch n) (iota n)
}.

(** ** main (lines 56-211) *)

(** [for (k = k0; k < bound; k = k + L) dummy_vector.push_back(0);] with
    [k] an [int] and [bound] a [size_t], so that [k] is converted for the
    comparison. *)
Fixpoint center_loop (fuel : nat) (k L bound : Z) (v : list Q) : Run (list Q) :=
  match fuel with
  | O => undefined
  | S fuel' =>
      if to_size_t k <? bound then
        k' <- int_add k L ;;
        center_loop fuel' k' L bound (v ++ [0%Q])
      else ret v
  end.

(** Lines 109-117.  [n] is [loaded_sequences[index_a].size()].  The loop
    is given [S n] rounds: see [center_loop_fuel] below, a loop that
    finishes at all finishes within them. *)
Definition make_dummy_vector (n : nat) (W L tau : Z) : Run (list Q) :=
  WL <- int_mul W L ;;
  let half := Z.quot WL 2 in
  k0 <- int_sub half 1 ;;
  let bound :=
    if 0 <? tau then to_size_t (Z.of_nat n - half - tau)
    else to_size_t (Z.of_nat n - half) in
  center_loop (S n) k0 L bound [].

Fixpoint for_each {S : Type} (body : Z -> S -> Run S) (l : list Z) (s : S)
  : Run S :=
  match l with
  | [] => ret s
  | i :: l' => s' <- body i s ;; for_each body l' s'
  end.

(** [std::vector < std::vector <double> > d(nr_window_widths, dummy_vector)]
    (lines 118, 119, 153 and 175); [nr_window_widths] is positive where
    [main] gets that far. *)
Definition new_diagram (nr_window_widths : Z) (dummy_vector : list Q) : diagram :=
  repeat dummy_vector (Z.to_nat nr_window_widths).

Section Main.

Context {alg : Algorithm} {io : InputOutput} {rt : Runtime}.

(** Lines 86-96: the table read from the standard input is turned into
    one sequence per column. *)
Definition transpose_table (t : list (list Q)) : Run sequences :=
  match t with
  | [] => undefined
  | row0 :: _ =>
      of_option
        (mapM (fun i => mapM (fun row => nth_error row i) t)
              (seq 0 (List.length row0)))
  end.

(** Lines 79-98.  The result is the value of [error] and the loaded
    sequences. *)
Definition load_sequences (o : options) : Run (Z * sequences) :=
  if read_from_file o then
    let '(error, loaded_sequences) :=
      netOnZeroDXC_load_single_file (selected_input_filename o)
        (separator_char o) in
    if error =? 2 then
      emit (EvStderr (MsgCannotRead (selected_input_filename o))) ;;; exit 1
    else ret (error, loaded_sequences)
  else
    loaded_sequences <-
      transpose_table (netOnZeroDXC_load_stdin (separator_char o)) ;;
    ret (netOnZeroDXC_check_linear_sizes loaded_sequences, loaded_sequences).

(** Lines 127-134 and 196-203: rows [0 .. W-1] go to the standard
    output; the first entry of each row is read without a test. *)
Definition print_table (d : diagram) (W : Z) (sep : ascii) : Run unit :=
  rows <- of_option (mapM (fun l => nth_error d l) (seq 0 (Z.to_nat W))) ;;
  if existsb (fun row => match row with [] => true | _ :: _ => false end) rows
  then undefined
  else emit (EvStdout rows sep).

(** Lines 124-135 and 193-204.  The result is the value of [error]
    afterwards. *)
Definition output_table (o : options) (d : diagram) (error : Z) : Run Z :=
  if write_to_file o then
    emit (EvSaveFile d (selected_output_filename o) (separator_char o)) ;;;
    ret (netOnZeroDXC_save_single_file d (selected_output_filename o)
           (separator_char o))
  else
    print_table d (nr_window_widths o) (separator_char o) ;;; ret error.

Section Trials.

(** The variables of [main] that the trial loops read and do not write. *)
Variables (loaded_sequences : sequences) (index_a index_b : Z).
Variables (window_basewidth nr_window_widths apply_tau nr_surrogates : Z).
Variables (dummy_vector : list Q) (correlation_diagram_data : diagram).
Variables (values_distribution_a fft_amplitudes_a : list Q).
Variables (values_distribution_b fft_amplitudes_b : list Q).

(** Lines 153-159, 161/163-169 and 175-182/184, 186-189: what a trial
    does with the two seeds it passes on.  The result is the p-value
    diagram after the update. *)
Definition surrogate_trial (seed_a seed_b : Z) (p_value_diagram : diagram)
  : Run diagram :=
  let correlation_diagram_surrogates :=
    new_diagram nr_window_widths dummy_vector in
  emit (EvGenerateSurrogate index_a seed_a) ;;;
  let temp_surrogate_sequence_a :=
    netOnZeroDXC_generate_surrogate_sequence loaded_sequences index_a
      values_distribution_a fft_amplitudes_a TOLERANCE_SURROGATES seed_a in
  emit (EvGenerateSurrogate index_b seed_b) ;;;
  let temp_surrogate_sequence_b :=
    netOnZeroDXC_generate_surrogate_sequence loaded_sequences index_b
      values_distribution_b fft_amplitudes_b TOLERANCE_SURROGATES seed_b in
  let surrogates_container :=
    [temp_surrogate_sequence_a; temp_surrogate_sequence_b] in
  emit (EvComputeCdiagram 0 1 window_basewidth nr_window_widths
          (0 <? apply_tau) apply_tau) ;;;
  let correlation_diagram_surrogates :=
    netOnZeroDXC_compute_cdiagram correlation_diagram_surrogates
      surrogates_container 0 1 window_basewidth nr_window_widths
      (0 <? apply_tau) apply_tau in
  emit (EvUpdatePdiagram nr_window_widths nr_surrogates) ;;;
  ret (netOnZeroDXC_update_pdiagram p_value_diagram correlation_diagram_data
         correlation_diagram_surrogates nr_window_widths nr_surrogates).

(** The state of either loop: the variable [seed] and the p-value
    diagram.  Both are declared before the loops (lines 119 and 149), so
    both are shared between the iterations. *)
Definition loop_state : Type := (Z * diagram)%type.

(** Lines 174-190, one iteration: generate with [seed], [seed++],
    generate with [seed], [seed++]. *)
Definition sequential_body (i : Z) (st : loop_state) : Run loop_state :=
  let '(seed, p_value_diagram) := st in
  let seed_a := seed in
  let seed := to_uint (seed + 1) in
  let seed_b := seed in
  let seed := to_uint (seed + 1) in
  p_value_diagram <- surrogate_trial seed_a seed_b p_value_diagram ;;
  ret (seed, p_value_diagram).

(** Lines 152-171, one iteration: [seed = seed + 2*i], generate with
    [seed], [seed++], generate with [seed]. *)
Definition parallel_body (i : Z) (st : loop_state) : Run loop_state :=
  let '(seed, p_value_diagram) := st in
  two_i <- int_mul 2 i ;;
  let seed := to_uint (seed + two_i) in
  let seed_a := seed in
  let seed := to_uint (seed + 1) in
  let seed_b := seed in
  p_value_diagram <- surrogate_trial seed_a seed_b p_value_diagram ;;
  ret (seed, p_value_diagram).

(** Lines 150-191. *)
Definition run_trials (enable_parallel_computing : bool) (st : loop_state)
  : Run loop_state :=
  if enable_parallel_computing
  then for_each parallel_body (omp_dispatch nr_surrogates) st
  else for_each sequential_body (iota nr_surrogates) st.

End Trials.

(** What lines 70-117 leave behind for the rest of [main]: the options as
    parsed, the value of [error], the sequences, the base width after the
    validation (which may have reduced it) and the row of zeros. *)
Record prepared : Type := mkPrepared {
  pr_options : options;
  pr_error : Z;
  pr_loaded_sequences : sequences;
  pr_window_basewidth : Z;
  pr_dummy_vector : list Q
}.

(** Lines 70-117: options, loading, validation, the decrement of the two
    column numbers (kept as [index_a o - 1], [index_b o - 1] below) and
    the row of zeros that gives every diagram its width. *)
Definition prepare (program_name : string) (args : list string) : Run prepared :=
  '(error, o) <-
    netOnZeroDXC_xc_parse_options program_name args initial_options ;;
  if negb (error =? 0) then exit 1 else
  '(error, loaded_sequences) <- load_sequences o ;;
  if (error =? 3) || (error =? 5) then
    emit (EvStderr MsgInconsistentSizes) ;;; exit 1
  else
  '(error, window_basewidth) <-
    netOnZeroDXC_xc_check_sequences loaded_sequences (index_a o) (index_b o)
      (nr_window_widths o) (window_basewidth o) (apply_tau o) ;;
  if negb (error =? 0) then exit 1 else
  let index_a := index_a o - 1 in
  sequence_a <-
    of_option (nth_error loaded_sequences (Z.to_nat (to_size_t index_a))) ;;
  dummy_vector <-
    make_dummy_vector (List.length sequence_a) (nr_window_widths o)
      window_basewidth (apply_tau o) ;;
  ret (mkPrepared o error loaded_sequences window_basewidth dummy_vector).

(** Lines 143-210: the surrogate contexts, the trials, the p-value
    diagram on the output. *)
Definition p_value_run (pr : prepared) (correlation_diagram_data : diagram)
  : Run Z :=
  let o := pr_options pr in
  let index_a := index_a o - 1 in
  let index_b := index_b o - 1 in
  let loaded_sequences := pr_loaded_sequences pr in
  let p_value_diagram := new_diagram (nr_window_widths o) (pr_dummy_vector pr) in
  emit (EvInitializeSurrogate index_a) ;;;
  let '(values_distribution_a, fft_amplitudes_a) :=
    netOnZeroDXC_initialize_surrogate_generation loaded_sequences index_a in
  emit (EvInitializeSurrogate index_b) ;;;
  let '(values_distribution_b, fft_amplitudes_b) :=
    netOnZeroDXC_initialize_surrogate_generation loaded_sequences index_b in
  let seed := to_uint clock in
  '(_, p_value_diagram) <-
    run_trials loaded_sequences index_a index_b (pr_window_basewidth pr)
      (nr_window_widths o) (apply_tau o) (nr_surrogates o)
      (pr_dummy_vector pr) correlation_diagram_data
      values_distribution_a fft_amplitudes_a
      values_distribution_b fft_amplitudes_b
      (enable_parallel_computing o) (seed, p_value_diagram) ;;
  error <- output_table o p_value_diagram (pr_error pr) ;;
  if negb (error =? 0) then
    emit (EvStderr (MsgWriteError (selected_output_filename o))) ;;; exit 1
  else ret 0.

(** Lines 118-210: the real diagram, then either its output or the
    p-value run. *)
Definition compute_and_report (pr : prepared) : Run Z :=
  let o := pr_options pr in
  let index_a := index_a o - 1 in
  let index_b := index_b o - 1 in
  let correlation_diagram_data :=
    new_diagram (nr_window_widths o) (pr_dummy_vector pr) in
  emit (EvComputeCdiagram index_a index_b (pr_window_basewidth pr)
          (nr_window_widths o) (0 <? apply_tau o) (apply_tau o)) ;;;
  let correlation_diagram_data :=
    netOnZeroDXC_compute_cdiagram correlation_diagram_data
      (pr_loaded_sequences pr) index_a index_b (pr_window_basewidth pr)
      (nr_window_widths o) (0 <? apply_tau o) (apply_tau o) in
  if print_corr_diagram o then
    error <- output_table o correlation_diagram_data (pr_error pr) ;;
    if negb (error =? 0) then
      emit (EvStderr (MsgWriteError (selected_output_filename o))) ;;; exit 1
    else exit 0
  else p_value_run pr correlation_diagram_data.

Definition main (program_name : string) (args : list string) : Run Z :=
  pr <- prepare program_name args ;;
  compute_and_report pr.

End Main.

(** ** The diagram width that the specification states *)

(** The row length as the specification words it,
    [K = floor((N - L*W) / L) - (tau > 0 ? tau : 0)], over the integers.
    It is compared below with the number of rounds of [center_loop]. *)
Definition stated_row_length (N L W tau : Z) : Z :=
  (N - L * W) / L - (if 0 <? tau then tau else 0).

(** ** The variables of the parallel loop (lines 150-171) *)

Module ParallelRegion.

(** The variables that the loop names.  Those of the first group are
    declared in [main] before the loop; the counter [i] and those of the
    last group are declared by the loop. *)
Inductive variable : Type :=
| Vloaded_sequences | Vindex_a | Vindex_b
| Vwindow_basewidth | Vnr_window_widths | Vapply_tau | Vnr_surrogates
| Vdummy_vector | Vcorrelation_diagram_data | Vp_value_diagram
| Vvalues_distribution_a | Vfft_amplitudes_a
| Vvalues_distribution_b | Vfft_amplitudes_b
| Vseed
| Vi
| Vcorrelation_diagram_surrogates
| Vtemp_surrogate_sequence_a | Vtemp_surrogate_sequence_b
| Vsurrogates_container.

(** The pragma of line 151 has no data-sharing clause: a variable declared
    before the construct is shared by the workers, the loop counter and a
    variable declared inside the construct are private. *)
Definition shared (v : variable) : bool :=
  match v with
  | Vi | Vcorrelation_diagram_surrogates
  | Vtemp_surrogate_sequence_a | Vtemp_surrogate_sequence_b
  | Vsurrogates_container => false
  | _ => true
  end.

Inductive access_kind : Type := Reads | Writes.

Record access : Type := mkAccess {
  acc_line : Z;
  acc_kind : access_kind;
  acc_var : variable;
  acc_critical : bool
}.

Definition reads (line : Z) (critical : bool) (vs : list variable) : list access :=
  map (fun v => mkAccess line Reads v critical) vs.
Definition writes (line : Z) (critical : bool) (vs : list variable) : list access :=
  map (fun v => mkAccess line Writes v critical) vs.

(** The accesses of one iteration, line by line.  A kernel writes the
    argument it fills (its first) and reads the others. *)
Definition loop_accesses : list access :=
  reads 152 false [Vi; Vnr_surrogates] ++ writes 152 false [Vi] ++
  reads 153 false [Vnr_window_widths; Vdummy_vector] ++
  writes 153 false [Vcorrelation_diagram_surrogates] ++
  writes 154 false [Vtemp_surrogate_sequence_a] ++
  writes 155 false [Vtemp_surrogate_sequence_b] ++
  writes 156 false [Vsurrogates_container] ++
  writes 157 false [Vsurrogates_container] ++
  writes 158 false [Vtemp_surrogate_sequence_a] ++
  writes 159 false [Vtemp_surrogate_sequence_b] ++
  reads 160 false [Vseed; Vi] ++ writes 160 false [Vseed] ++
  reads 161 false [Vloaded_sequences; Vindex_a; Vvalues_distribution_a;
                   Vfft_amplitudes_a; Vseed] ++
  writes 161 false [Vtemp_surrogate_sequence_a] ++
  reads 162 false [Vseed] ++ writes 162 false [Vseed] ++
  reads 163 false [Vloaded_sequences; Vindex_b; Vvalues_distribution_b;
                   Vfft_amplitudes_b; Vseed] ++
  writes 163 false [Vtemp_surrogate_sequence_b] ++
  reads 164 false [Vtemp_surrogate_sequence_a] ++
  writes 164 false [Vsurrogates_container] ++
  reads 165 false [Vtemp_surrogate_sequence_b] ++
  writes 165 false [Vsurrogates_container] ++
  reads 166 false [Vsurrogates_container; Vwindow_basewidth;
                   Vnr_window_widths; Vapply_tau] ++
  writes 166 false [Vcorrelation_diagram_surrogates] ++
  reads 169 true [Vcorrelation_diagram_data; Vcorrelation_diagram_surrogates;
                  Vnr_window_widths; Vnr_surrogates; Vp_value_diagram] ++
  writes 169 true [Vp_value_diagram].

Definition is_write (a : access) : bool :=
  match acc_kind a with Writes => true | Reads => false end.

Definition is_p_value_diagram (v : variable) : bool :=
  match v with Vp_value_diagram => true | _ => false end.

(** The writes to shared variables that are not updates of the p-value
    diagram inside the critical section. *)
Definition unprotected_shared_writes : list access :=
  filter (fun a => is_write a && shared (acc_var a)
                   && negb (is_p_value_diagram (acc_var a) && acc_critical a))
         loop_accesses.

End ParallelRegion.

(** ** Events of a trace, by kind *)

Definition is_stderr (e : event) : bool :=
  match e with EvStderr _ => true | _ => false end.

Definition is_compute (e : event) : bool :=
  match e with EvComputeCdiagram _ _ _ _ _ _ => true | _ => false end.

Definition is_surrogate_work (e : event) : bool :=
  match e with
  | EvInitializeSurrogate _ | EvGenerateSurrogate _ _ | EvUpdatePdiagram _ _ => true
  | _ => false
  end.

Definition is_generate (e : event) : bool :=
  match e with EvGenerateSurrogate _ _ => true | _ => false end.

Definition is_output (e : event) : bool :=
  match e with EvStdout _ _ | EvSaveFile _ _ _ => true | _ => false end.

(** The table that an output event carries. *)
Definition output_of (e : event) : option diagram :=
  match e with
  | EvStdout d _ | EvSaveFile d _ _ => Some d
  | _ => None
  end.


(** The seeds of the surrogate generations of a trace, in order. *)
Definition seeds_of (t : list event) : list Z :=
  flat_map (fun e => match e with EvGenerateSurrogate _ s => [s] | _ => [] end) t.

(** The base widths that the diagram kernel is called with. *)
Definition base_widths_of (t : list event) : list Z :=
  flat_map (fun e => match e with
                     | EvComputeCdiagram _ _ L _ _ _ => [L]
                     | _ => []
                     end) t.

(** ** Sample environments *)

Module Sample.

(** A table of [n] rows and two equal columns on the standard input; no
    file can be read; every save succeeds. *)
Definition two_columns (n : nat) : InputOutput :=
  {| netOnZeroDXC_load_single_file := fun _ _ => (2, []);
     netOnZeroDXC_load_stdin := fun _ => repeat [1%Q; 1%Q] n;
     netOnZeroDXC_check_linear_sizes := fun _ => 0;
     netOnZeroDXC_save_single_file := fun _ _ _ => 0 |}.


(** A team of one thread: the iterations in their order. *)
Definition one_thread (clock_value : Z) : Runtime :=
  {| clock := clock_value;
     omp_dispatch := iota;
     omp_dispatch_perm := fun n => Permutation_refl (iota n) |}.

(** Kernels that give every cell of a diagram the value 1, with an
    aggregator that adds 1 to every cell of the p-value diagram. *)
Definition constant_kernels : Algorithm :=
  {| TOLERANCE_SURROGATES := 0%Q;
     netOnZeroDXC_compute_cdiagram :=
       fun d _ _ _ _ _ _ _ => map (map (fun _ => 1%Q)) d;
     netOnZeroDXC_initialize_surrogate_generation := fun _ _ => ([], []);
     netOnZeroDXC_generate_surrogate_sequence := fun _ _ _ _ _ _ => [];
     netOnZeroDXC_update_pdiagram :=
       fun p _ _ _ _ => map (map (fun c => Qred (c + 1))) p |}.

Definition argv_correlation : list string :=
  ["-n"; "1"; "2"; "-W"; "3"; "-L"; "10"; "-C"]%string.
Definition argv_sequential (M : string) : list string :=
  ["-n"; "1"; "2"; "-W"; "3"; "-L"; "10"; "-M"; M]%string.
Definition argv_parallel (M : string) : list string :=
  ["-n"; "1"; "2"; "-W"; "3"; "-L"; "10"; "-M"; M; "-parallel"]%string.
Definition argv_odd : list string :=
  ["-n"; "1"; "2"; "-W"; "3"; "-L"; "11"; "-C"]%string.

(** The variables of [main] after the parser has gone through them. *)
Definition options_correlation : options :=
  mkOptions false false true false false 1 2 (-1) 3 10 100
    EmptyString EmptyString "009"%char.
Definition options_odd : options :=
  mkOptions false false true false false 1 2 (-1) 3 11 100
    EmptyString EmptyString "009"%char.
Definition options_sequential (M : Z) : options :=
  mkOptions false false false true false 1 2 (-1) 3 10 M
    EmptyString EmptyString "009"%char.

(** What lines 70-117 leave behind for [argv_sequential "3"] on a table
    of 100 rows. *)
Definition prepared_sequential : prepared :=
  mkPrepared (options_sequential 3) 0 [repeat 1%Q 100; repeat 1%Q 100] 10
    (repeat 0%Q 8).

(** Three sequences, the last one shorter than the others. *)
Definition three_sequences : sequences :=
  [repeat 1%Q 100; repeat 1%Q 100; repeat 1%Q 35].

End Sample.

(** ** Predicates on runs and diagrams *)

(** A run keeps [P] on its events and ends, if it ends with a value, with
    a value in [Q]. *)
Definition run_inv {A} (P : event -> Prop) (Q : A -> Prop) (m : Run A) : Prop :=
  Forall P (trace m) /\ forall a, outcome m = Ret a -> Q a.

Definition stderr_event (e : event) : Prop := is_stderr e = true.

(** A run without events. *)
Definition silent {A} (m : Run A) : Prop := trace m = [].

(** The number of rounds from [k] on, for a positive step. *)
Definition rounds (k L bound : Z) : nat := Z.to_nat ((bound - k + L - 1) / L).

(** What holds when lines 70-117 have gone through. *)
Record prepared_by (program_name : string) (args : list string)
    (t : list event) (pr : prepared) : Prop := {
  pb_parse : exists t0,
    netOnZeroDXC_xc_parse_options program_name args initial_options
    = (t0, Ret (0, pr_options pr));
  pb_error : pr_error pr = 0;
  pb_check : exists t1 t2,
    netOnZeroDXC_xc_check_sequences (pr_loaded_sequences pr)
      (index_a (pr_options pr)) (index_b (pr_options pr))
      (nr_window_widths (pr_options pr)) (window_basewidth (pr_options pr))
      (apply_tau (pr_options pr))
    = (t2, Ret (0, pr_window_basewidth pr)) /\ t = t1 ++ t2;
  pb_dummy : exists m, pr_dummy_vector pr = repeat 0%Q m
}.

(** The four events of a trial. *)
Definition trial_events
    (index_a index_b window_basewidth nr_window_widths apply_tau nr_surrogates : Z)
    (seed_a seed_b : Z) : list event :=
  [EvGenerateSurrogate index_a seed_a;
   EvGenerateSurrogate index_b seed_b;
   EvComputeCdiagram 0 1 window_basewidth nr_window_widths
     (0 <? apply_tau) apply_tau;
   EvUpdatePdiagram nr_window_widths nr_surrogates].

(** The exit statuses that a run can end with. *)
Definition exits_with {A} (Q : Z -> Prop) (m : Run A) : Prop :=
  forall s, outcome m = Exit s -> Q s.

(** The events that call the diagram kernel all carry the base width [L]. *)
Definition computes_with (L : Z) (e : event) : Prop :=
  match e with
  | EvComputeCdiagram _ _ L' _ _ _ => L' = L
  | _ => True
  end.

(** The numeric variables of the parser hold [int] values. *)
Definition int_options (o : options) : Prop :=
  in_int (index_a o) = true /\ in_int (index_b o) = true /\
  in_int (apply_tau o) = true /\ in_int (nr_window_widths o) = true /\
  in_int (window_basewidth o) = true /\ in_int (nr_surrogates o) = true.

(** The events that write a table to the standard output. *)
Definition is_stdout (e : event) : bool :=
  match e with EvStdout _ _ => true | _ => false end.

(** Lines 118 and 121: the correlation diagram of the two selected
    sequences, as the kernel leaves it. *)
Definition real_diagram {alg : Algorithm} (pr : prepared) : diagram :=
  netOnZeroDXC_compute_cdiagram
    (new_diagram (nr_window_widths (pr_options pr)) (pr_dummy_vector pr))
    (pr_loaded_sequences pr)
    (index_a (pr_options pr) - 1) (index_b (pr_options pr) - 1)
    (pr_window_basewidth pr) (nr_window_widths (pr_options pr))
    (0 <? apply_tau (pr_options pr)) (apply_tau (pr_options pr)).

(** The call of line 121 as an event. *)
Definition real_diagram_call (pr : prepared) : event :=
  EvComputeCdiagram (index_a (pr_options pr) - 1) (index_b (pr_options pr) - 1)
    (pr_window_basewidth pr) (nr_window_widths (pr_options pr))
    (0 <? apply_tau (pr_options pr)) (apply_tau (pr_options pr)).

(** What the print loops of lines 128-134 and 197-203 read without a
    test: rows [0 .. W-1] of the diagram, and the first entry of each. *)
Definition printable (d : diagram) (W : Z) : bool :=
  (Z.to_nat W <=? List.length d)%nat
  && forallb (fun row => negb (Nat.eqb (List.length row) 0))
             (firstn (Z.to_nat W) d).

(** A flag of the parser that is set stays set, and a flag that is set
    at the end was set at the start or its option is among the
    arguments. *)
Definition flags_from (args : list string) (o o1 : options) : Prop :=
  (print_corr_diagram o = true -> print_corr_diagram o1 = true) /\
  (compute_pvalue_diagram o = true -> compute_pvalue_diagram o1 = true) /\
  (print_corr_diagram o1 = true ->
   print_corr_diagram o = true \/ In "-C"%string args \/ In "-c"%string args) /\
  (compute_pvalue_diagram o1 = true ->
   compute_pvalue_diagram o = true \/ In "-p"%string args).

(** Lines 175-189 (and 153-169): the p-value diagram after a trial that
    generates its two surrogates with [seed_a] and [seed_b], computes
    their correlation diagram and hands it to the aggregator. *)
Definition trial_diagram {alg : Algorithm} (pr : prepared)
    (seed_a seed_b : Z) (p_value_diagram : diagram) : diagram :=
  let o := pr_options pr in
  let context_a :=
    netOnZeroDXC_initialize_surrogate_generation (pr_loaded_sequences pr)
      (index_a o - 1) in
  let context_b :=
    netOnZeroDXC_initialize_surrogate_generation (pr_loaded_sequences pr)
      (index_b o - 1) in
  netOnZeroDXC_update_pdiagram p_value_diagram (real_diagram pr)
    (netOnZeroDXC_compute_cdiagram
       (new_diagram (nr_window_widths o) (pr_dummy_vector pr))
       [netOnZeroDXC_generate_surrogate_sequence (pr_loaded_sequences pr)
          (index_a o - 1) (fst context_a) (snd context_a)
          TOLERANCE_SURROGATES seed_a;
        netOnZeroDXC_generate_surrogate_sequence (pr_loaded_sequences pr)
          (index_b o - 1) (fst context_b) (snd context_b)
          TOLERANCE_SURROGATES seed_b]
       0 1 (pr_window_basewidth pr) (nr_window_widths o)
       (0 <? apply_tau o) (apply_tau o))
    (nr_window_widths o) (nr_surrogates o).

(** Lines 119, 149 and 174-190: the p-value diagram after the trials of
    the sequential loop, trial [j] generating with the seeds
    [clock() + 2*j] and [clock() + 2*j + 1] in [unsigned int]. *)
Definition sequential_diagram {alg : Algorithm} {rt : Runtime} (pr : prepared)
  : diagram :=
  fold_left
    (fun p j => trial_diagram pr (to_uint (clock + 2 * Z.of_nat j))
                  (to_uint (clock + 2 * Z.of_nat j + 1)) p)
    (seq 0 (Z.to_nat (nr_surrogates (pr_options pr))))
    (new_diagram (nr_window_widths (pr_options pr)) (pr_dummy_vector pr)).

(** The events of lines 121-190 in sequential mode: the call of the
    diagram kernel, the two initializations, and the four events of each
    trial. *)
Definition sequential_events {rt : Runtime} (pr : prepared) : list event :=
  let o := pr_options pr in
  [real_diagram_call pr;
   EvInitializeSurrogate (index_a o - 1);
   EvInitializeSurrogate (index_b o - 1)]
  ++ flat_map
       (fun j =>
          trial_events (index_a o - 1) (index_b o - 1) (pr_window_basewidth pr)
            (nr_window_widths o) (apply_tau o) (nr_surrogates o)
            (to_uint (clock + 2 * Z.of_nat j))
            (to_uint (clock + 2 * Z.of_nat j + 1)))
       (seq 0 (Z.to_nat (nr_surrogates o))).

(** Lines 128-134 and 197-203, row by row, for [l] running over [ls]:
    the rows that the loop has written when it stops, and whether it has
    gone through all of [ls] ([true]) or has stopped at a row that is not
    there or has no first entry ([false]); the rows before that one are
    written by then. *)
Fixpoint print_rows (d : diagram) (ls : list nat) : list (list Q) * bool :=
  match ls with
  | [] => ([], true)
  | l :: ls' =>
      match nth_error d l with
      | Some (c :: row) =>
          let (written, through) := print_rows d ls' in
          ((c :: row) :: written, through)
      | _ => ([], false)
      end
  end.

(** * Supporting facts *)

(** ** Machine integers *)

Module MachineIntFacts.

Lemma in_int_iff z : in_int z = true <-> INT_MIN <= z <= INT_MAX.
Proof. unfold in_int. rewrite andb_true_iff, !Z.leb_le. tauto. Qed.

Lemma to_size_t_small z : 0 <= z < 2 ^ 64 -> to_size_t z = z.
Proof. intros H. unfold to_size_t. now apply Z.mod_small. Qed.

Lemma to_size_t_range z : 0 <= to_size_t z < 2 ^ 64.
Proof. unfold to_size_t. apply Z.mod_pos_bound. lia. Qed.

Lemma to_size_t_neg z : - 2 ^ 64 <= z < 0 -> to_size_t z = z + 2 ^ 64.
Proof.
  intros H. unfold to_size_t.
  symmetry. apply Z.mod_unique with (q := -1); lia.
Qed.

Lemma to_uint_range z : 0 <= to_uint z < 2 ^ 32.
Proof. unfold to_uint. apply Z.mod_pos_bound. lia. Qed.

Lemma to_uint_small z : 0 <= z < 2 ^ 32 -> to_uint z = z.
Proof. intros H. unfold to_uint. now apply Z.mod_small. Qed.

Lemma to_uint_add_l a b : to_uint (to_uint a + b) = to_uint (a + b).
Proof. unfold to_uint. now rewrite Zplus_mod_idemp_l. Qed.

End MachineIntFacts.
Import MachineIntFacts.

(** ** Runs *)

Lemma bind_Ret {A B} (m : Run A) (f : A -> Run B) t a :
  m = (t, Ret a) -> bind m f = (t ++ trace (f a), outcome (f a)).
Proof. intros ->. unfold bind, trace, outcome. now destruct (f a). Qed.

Lemma bind_Exit {A B} (m : Run A) (f : A -> Run B) t s :
  m = (t, Exit s) -> bind m f = (t, Exit s).
Proof. now intros ->. Qed.

Lemma bind_Undefined {A B} (m : Run A) (f : A -> Run B) t :
  m = (t, Undefined) -> bind m f = (t, Undefined).
Proof. now intros ->. Qed.

Lemma bind_ret_l {A B} (a : A) (f : A -> Run B) : bind (ret a) f = f a.
Proof. unfold bind, ret. now destruct (f a). Qed.

Lemma run_eta {A} (m : Run A) : m = (trace m, outcome m).
Proof. now destruct m. Qed.

Lemma run_inv_bind {A B} (P : event -> Prop) (Q : A -> Prop) (R : B -> Prop)
    (m : Run A) (f : A -> Run B) :
  run_inv P Q m -> (forall a, Q a -> run_inv P R (f a)) ->
  run_inv P R (bind m f).
Proof.
  intros [Ht Ho] Hf. destruct m as [t [a | s | ]]; cbn in *.
  - destruct (Hf a (Ho a eq_refl)) as [Ht' Ho'].
    destruct (f a) as [t' r']; cbn in *. split.
    + apply Forall_app; now split.
    + exact Ho'.
  - split; [assumption | discriminate].
  - split; [assumption | discriminate].
Qed.

Lemma run_inv_ret {A} (P : event -> Prop) (Q : A -> Prop) a :
  Q a -> run_inv P Q (ret a).
Proof. intros H. split; cbn; [constructor | now intros ? [= <-]]. Qed.

Lemma run_inv_exit {A} (P : event -> Prop) (Q : A -> Prop) s :
  run_inv P Q (exit s).
Proof. split; cbn; [constructor | discriminate]. Qed.

Lemma run_inv_undefined {A} (P : event -> Prop) (Q : A -> Prop) :
  run_inv P Q undefined.
Proof. split; cbn; [constructor | discriminate]. Qed.

Lemma run_inv_emit (P : event -> Prop) e :
  P e -> run_inv P (fun _ => True) (emit e).
Proof. intros H. split; cbn; [now repeat constructor | trivial]. Qed.

Lemma run_inv_of_option {A} (P : event -> Prop) (o : option A) :
  run_inv P (fun a => o = Some a) (of_option o).
Proof.
  destruct o; [now apply run_inv_ret | apply run_inv_undefined].
Qed.

Lemma run_inv_int_of (P : event -> Prop) z :
  run_inv P (fun a => a = z /\ in_int z = true) (int_of z).
Proof.
  unfold int_of. destruct (in_int z) eqn:E;
    [now apply run_inv_ret | apply run_inv_undefined].
Qed.

Lemma run_inv_weaken {A} (P P' : event -> Prop) (Q Q' : A -> Prop) (m : Run A) :
  run_inv P Q m -> (forall e, P e -> P' e) -> (forall a, Q a -> Q' a) ->
  run_inv P' Q' m.
Proof.
  intros [Ht Ho] HP HQ. split.
  - eapply Forall_impl; eauto.
  - intros a Ha. now apply HQ, Ho.
Qed.

Lemma run_inv_conj {A} (P : event -> Prop) (Q Q' : A -> Prop) (m : Run A) :
  run_inv P Q m -> run_inv P Q' m -> run_inv P (fun a => Q a /\ Q' a) m.
Proof. intros [Ht Ho] [_ Ho']. split; [assumption | intros a Ha; split; auto]. Qed.

(** One step of a run: a bind, a test, or a leaf. *)
Ltac run_step :=
  match goal with
  | |- run_inv _ _ (bind (emit _) _) =>
      eapply run_inv_bind; [apply run_inv_emit | intros _ _]
  | |- run_inv _ _ (bind (of_option _) _) =>
      eapply run_inv_bind; [apply run_inv_of_option | cbv beta; intros ? ?]
  | |- run_inv _ _ (if ?c then _ else _) => destruct c eqn:?
  | |- run_inv _ _ (match ?x with _ => _ end) => destruct x eqn:?
  | |- run_inv _ _ (ret _) => apply run_inv_ret
  | |- run_inv _ _ (exit _) => apply run_inv_exit
  | |- run_inv _ _ undefined => apply run_inv_undefined
  end.

(** ** The option parser *)

Lemma parse_loop_inv program_name args :
  forall o, run_inv stderr_event (fun _ => True) (parse_loop program_name args o).
Proof.
  remember (List.length args) as n eqn:Hn.
  revert args Hn. induction n as [n IH] using lt_wf_ind. intros args Hn o.
  assert (IH' : forall args' o', (List.length args' < List.length args)%nat ->
            run_inv stderr_event (fun _ => True)
              (parse_loop program_name args' o')).
  { intros args' o' Hlt. eapply IH; [ | reflexivity]. now subst n. }
  clear IH Hn.
  destruct args as [ | a rest]; [now apply run_inv_ret | ].
  cbn [parse_loop].
  repeat (run_step; try reflexivity; try easy;
          try (apply IH'; subst; cbn; lia)).
Qed.

Lemma bind_Ret_inv {A B} (m : Run A) (f : A -> Run B) t b :
  bind m f = (t, Ret b) ->
  exists t1 a t2, m = (t1, Ret a) /\ f a = (t2, Ret b) /\ t = t1 ++ t2.
Proof.
  destruct m as [t1 [a | s | ]]; cbn; try discriminate.
  destruct (f a) as [t2 r] eqn:E. intros [= <- ->].
  now exists t1, a, t2.
Qed.

Lemma of_option_inv {A} (o : option A) t a :
  of_option o = (t, Ret a) -> o = Some a /\ t = [].
Proof. destruct o; cbn; intros [= <- <-] || discriminate. now split. Qed.

Lemma int_of_inv z t a :
  int_of z = (t, Ret a) -> a = z /\ in_int z = true /\ t = [].
Proof.
  unfold int_of. destruct (in_int z); cbn; intros [= <- <-] || discriminate.
  now repeat split.
Qed.

Lemma silent_bind {A B} (m : Run A) (f : A -> Run B) :
  silent m -> (forall a, silent (f a)) -> silent (bind m f).
Proof.
  unfold silent. destruct m as [t [a | s | ]]; cbn; intros -> Hf; trivial.
  specialize (Hf a). destruct (f a); cbn in *. now subst.
Qed.

Lemma silent_int_of z : silent (int_of z).
Proof. unfold silent, int_of. now destruct (in_int z). Qed.

Lemma silent_of_option {A} (o : option A) : silent (of_option o).
Proof. now destruct o. Qed.

Lemma parse_options_stderr program_name args o :
  Forall stderr_event
    (trace (netOnZeroDXC_xc_parse_options program_name args o)).
Proof.
  enough (H : run_inv stderr_event (fun _ : Z * options => True)
                (netOnZeroDXC_xc_parse_options program_name args o))
    by apply H.
  unfold netOnZeroDXC_xc_parse_options.
  eapply run_inv_bind; [apply parse_loop_inv | intros o' _].
  repeat (run_step; try reflexivity; try easy).
Qed.

(** What the parser has checked when it returns 0. *)
Lemma parse_options_checked program_name args o0 t e o :
  netOnZeroDXC_xc_parse_options program_name args o0 = (t, Ret (e, o)) ->
  (e = 0 \/ e = 1) /\
  (e = 0 -> 0 < index_a o /\ 0 < index_b o /\
            0 < nr_window_widths o /\ 0 < window_basewidth o).
Proof.
  unfold netOnZeroDXC_xc_parse_options. intros H.
  apply bind_Ret_inv in H as (t1 & o1 & t2 & _ & H & _).
  destruct (index_a (resolve_mode o1) <=? 0) eqn:Ea;
  destruct (index_b (resolve_mode o1) <=? 0) eqn:Eb;
  cbn [orb] in H; try (cbn in H; injection H as _ <- <-; split; [now right | discriminate]).
  destruct (nr_window_widths (resolve_mode o1) <=? 0) eqn:Ew;
    [cbn in H; injection H as _ <- <-; split; [now right | discriminate] | ].
  destruct (window_basewidth (resolve_mode o1) <=? 0) eqn:El;
    [cbn in H; injection H as _ <- <-; split; [now right | discriminate] | ].
  cbn in H. injection H as _ <- <-. split; [now left | intros _].
  cbn. apply Z.leb_gt in Ea, Eb, Ew, El. now repeat split.
Qed.

(** ** The validation routine *)

Lemma expected_diagram_size_silent n L W tau :
  silent (expected_diagram_size n L W tau).
Proof.
  unfold expected_diagram_size. apply silent_bind; [apply silent_int_of | ].
  intros a. now destruct (to_size_t L =? 0).
Qed.

Lemma check_windowing_stderr n W L tau :
  Forall stderr_event (trace (check_windowing n W L tau)).
Proof.
  unfold check_windowing.
  pose proof (expected_diagram_size_silent n L W tau) as Hs.
  destruct (expected_diagram_size n L W tau) as [t [K | s | ]];
    unfold silent in Hs; cbn in Hs; subst t; cbn; try constructor.
  destruct (K <? 1); cbn; [now repeat constructor | ].
  destruct (Z.rem L 2 =? 0); cbn; now repeat constructor.
Qed.

(** The three ways the windowing check returns. *)
Lemma check_windowing_inv n W L tau t e L' :
  check_windowing n W L tau = (t, Ret (e, L')) ->
  exists K, expected_diagram_size n L W tau = ([], Ret K) /\
    ((K < 1 /\ e = 1 /\ L' = L /\ t = [EvStderr MsgNegativeDiagramSize]) \/
     (1 <= K /\ Z.rem L 2 <> 0 /\ e = 0 /\ L' = L - 1 /\
      t = [EvStderr (MsgOddBaseWidth (L - 1))]) \/
     (1 <= K /\ Z.rem L 2 = 0 /\ e = 0 /\ L' = L /\ t = [])).
Proof.
  unfold check_windowing. intros H.
  apply bind_Ret_inv in H as (t1 & K & t2 & HK & H & ->).
  pose proof (expected_diagram_size_silent n L W tau) as Hs.
  unfold silent in Hs. rewrite HK in Hs. cbn in Hs. subst t1.
  exists K. split; [assumption | ].
  destruct (K <? 1) eqn:EK.
  - cbn in H. injection H as <- <- <-. left. apply Z.ltb_lt in EK. auto.
  - apply Z.ltb_ge in EK. destruct (Z.rem L 2 =? 0) eqn:EL; cbn in H.
    + injection H as <- <- <-. apply Z.eqb_eq in EL. right; right. auto.
    + injection H as <- <- <-. apply Z.eqb_neq in EL. right; left. auto.
Qed.

Lemma check_sequences_stderr seqs na nb W L tau :
  Forall stderr_event
    (trace (netOnZeroDXC_xc_check_sequences seqs na nb W L tau)).
Proof.
  unfold netOnZeroDXC_xc_check_sequences.
  destruct (_ || _); cbn; [now repeat constructor | ].
  destruct (nth_error seqs _) as [s | ]; cbn; [ | constructor].
  pose proof (check_windowing_stderr (Z.of_nat (List.length s)) W L tau) as H.
  destruct (check_windowing _ W L tau) as [t r]. exact H.
Qed.

(** A return with error code 0 means that both column numbers are at most
    the number of sequences, that position [na] itself holds a sequence,
    and that the windowing check has passed on that sequence. *)
Lemma check_sequences_inv seqs na nb W L tau t L' :
  netOnZeroDXC_xc_check_sequences seqs na nb W L tau = (t, Ret (0, L')) ->
  to_size_t na <= Z.of_nat (List.length seqs) /\
  to_size_t nb <= Z.of_nat (List.length seqs) /\
  exists s, nth_error seqs (Z.to_nat (to_size_t na)) = Some s /\
            check_windowing (Z.of_nat (List.length s)) W L tau = (t, Ret (0, L')).
Proof.
  unfold netOnZeroDXC_xc_check_sequences.
  destruct (Z.of_nat (List.length seqs) <? to_size_t na) eqn:Ea;
    [cbn; discriminate | ].
  destruct (Z.of_nat (List.length seqs) <? to_size_t nb) eqn:Eb;
    [cbn; discriminate | ].
  cbn [orb]. intros H. apply Z.ltb_ge in Ea, Eb.
  apply bind_Ret_inv in H as (t1 & s & t2 & Hs & H & ->).
  apply of_option_inv in Hs as [Hs ->]. repeat split; trivial.
  exists s. now split.
Qed.

Lemma even_of_rem L : Z.rem L 2 = 0 -> Z.even L = true.
Proof.
  intros H. apply Z.even_spec. exists (Z.quot L 2).
  pose proof (Z.quot_rem' L 2). lia.
Qed.

Lemma odd_of_rem L : Z.rem L 2 <> 0 -> Z.odd L = true.
Proof.
  intros H. destruct (Z.odd L) eqn:E; trivial.
  exfalso. apply H. rewrite <- Z.negb_even in E.
  apply negb_false_iff, Z.even_spec in E as [q ->].
  rewrite Z.mul_comm. apply Z.rem_mul. lia.
Qed.

Lemma check_windowing_even n W L tau t L' :
  check_windowing n W L tau = (t, Ret (0, L')) -> Z.even L' = true.
Proof.
  intros H. apply check_windowing_inv in H as (K & _ & [H | [H | H]]).
  - now destruct H as (_ & [=] & _).
  - destruct H as (_ & Hr & _ & -> & _).
    rewrite Z.even_sub. now rewrite <- Z.negb_odd, (odd_of_rem L Hr).
  - destruct H as (_ & Hr & _ & -> & _). now apply even_of_rem.
Qed.

(** ** The row of zeros *)

Lemma center_loop_silent fuel L bound :
  forall k v, silent (center_loop fuel k L bound v).
Proof.
  induction fuel as [ | fuel IH]; intros k v; cbn; [reflexivity | ].
  destruct (to_size_t k <? bound); [ | reflexivity].
  apply silent_bind; [apply silent_int_of | intros k'; apply IH].
Qed.

Lemma center_loop_zeros fuel L bound :
  forall k v t v', center_loop fuel k L bound v = (t, Ret v') ->
  exists m, v' = v ++ repeat 0%Q m.
Proof.
  induction fuel as [ | fuel IH]; intros k v t v'; cbn; [discriminate | ].
  destruct (to_size_t k <? bound).
  - intros H. apply bind_Ret_inv in H as (t1 & k' & t2 & _ & H & _).
    apply IH in H as [m ->]. exists (S m).
    now rewrite <- app_assoc.
  - intros [= <- <-]. exists 0%nat. now rewrite app_nil_r.
Qed.

Lemma rounds_stop k L bound : 0 < L -> bound <= k -> rounds k L bound = 0%nat.
Proof.
  intros HL Hk. unfold rounds.
  assert ((bound - k + L - 1) / L <= 0); [ | lia].
  assert ((bound - k + L - 1) / L < 1); [ | lia].
  apply Z.div_lt_upper_bound; lia.
Qed.

Lemma rounds_step k L bound :
  0 < L -> k < bound -> rounds k L bound = S (rounds (k + L) L bound).
Proof.
  intros HL Hk. unfold rounds.
  replace (bound - k + L - 1) with ((bound - (k + L) + L - 1) + 1 * L) by lia.
  rewrite Z.div_add by lia.
  assert (0 <= (bound - (k + L) + L - 1) / L).
  { apply Z.div_pos; lia. }
  rewrite <- Z2Nat.inj_succ by lia. f_equal; lia.
Qed.

(** With a positive step, a start and a bound within [int], and rounds
    enough, the loop appends [rounds k L bound] zeros. *)
Lemma center_loop_rounds L bound :
  0 < L -> bound + L <= INT_MAX + 1 ->
  forall fuel k v, 0 <= k <= INT_MAX -> (rounds k L bound < fuel)%nat ->
  center_loop fuel k L bound v = ([], Ret (v ++ repeat 0%Q (rounds k L bound))).
Proof.
  intros HL Hb. induction fuel as [ | fuel IH]; intros k v Hk Hf; [lia | ].
  cbn [center_loop].
  assert (Hk' : to_size_t k = k)
    by (apply to_size_t_small; unfold INT_MAX in Hk; lia).
  rewrite Hk'.
  destruct (Z.ltb_spec k bound) as [Hlt | Hge].
  - 
    rewrite (rounds_step k L bound) in * by lia.
    unfold int_add, int_of.
    replace (in_int (k + L)) with true
      by (symmetry; apply in_int_iff; unfold INT_MIN, INT_MAX in *; lia).
    rewrite (bind_Ret _ _ [] (k + L) eq_refl).
    rewrite IH by lia. cbn. now rewrite <- app_assoc.
  - rewrite rounds_stop by lia. now rewrite app_nil_r.
Qed.

Lemma make_dummy_vector_silent n W L tau : silent (make_dummy_vector n W L tau).
Proof.
  unfold make_dummy_vector.
  apply silent_bind; [apply silent_int_of | intros WL].
  apply silent_bind; [apply silent_int_of | intros k0].
  apply center_loop_silent.
Qed.

Lemma make_dummy_vector_zeros n W L tau t v :
  make_dummy_vector n W L tau = (t, Ret v) -> exists m, v = repeat 0%Q m.
Proof.
  unfold make_dummy_vector. intros H.
  apply bind_Ret_inv in H as (t1 & WL & t2 & _ & H & _).
  apply bind_Ret_inv in H as (t3 & k0 & t4 & _ & H & _).
  now apply center_loop_zeros in H.
Qed.

(** ** Loading *)

Section PrepareFacts.

Context {alg : Algorithm} {io : InputOutput} {rt : Runtime}.

Lemma load_sequences_stderr o : Forall stderr_event (trace (load_sequences o)).
Proof.
  unfold load_sequences. destruct (read_from_file o).
  - destruct (netOnZeroDXC_load_single_file _ _) as [e s].
    destruct (e =? 2); cbn; now repeat constructor.
  - destruct (netOnZeroDXC_load_stdin _) as [ | row0 rows]; cbn;
      [constructor | ].
    match goal with |- context [of_option ?x] => destruct x end; cbn;
      constructor.
Qed.

(** ** Lines 70-117 *)

Lemma prepare_stderr program_name args :
  Forall stderr_event (trace (prepare program_name args)).
Proof.
  enough (H : run_inv stderr_event (fun _ => True) (prepare program_name args))
    by apply H.
  unfold prepare.
  eapply run_inv_bind with (Q := fun _ => True);
    [split; [apply parse_options_stderr | trivial] | intros [e o] _].
  destruct (negb (e =? 0)); [apply run_inv_exit | ].
  eapply run_inv_bind with (Q := fun _ => True);
    [split; [apply load_sequences_stderr | trivial] | intros [e1 seqs] _].
  destruct (_ || _).
  { eapply run_inv_bind; [now apply run_inv_emit | intros; apply run_inv_exit]. }
  eapply run_inv_bind with (Q := fun _ => True);
    [split; [apply check_sequences_stderr | trivial] | intros [e2 L'] _].
  destruct (negb (e2 =? 0)); [apply run_inv_exit | ].
  eapply run_inv_bind with (Q := fun _ => True);
    [split; [rewrite silent_of_option; constructor | trivial] | intros s _].
  eapply run_inv_bind with (Q := fun _ => True);
    [split; [rewrite make_dummy_vector_silent; constructor | trivial]
    | intros dv _].
  now apply run_inv_ret.
Qed.

Lemma prepare_inv program_name args t pr :
  prepare program_name args = (t, Ret pr) ->
  prepared_by program_name args t pr.
Proof.
  unfold prepare. intros H.
  apply bind_Ret_inv in H as (t0 & [e o] & t' & Hparse & H & ->).
  destruct (Z.eqb_spec e 0) as [-> | ]; cbn [negb] in H; [ | discriminate].
  apply bind_Ret_inv in H as (t1 & [e1 seqs] & t'' & Hload & H & ->).
  destruct (_ || _); [cbn in H; discriminate | ].
  apply bind_Ret_inv in H as (t2 & [e2 L'] & t3 & Hcheck & H & ->).
  destruct (Z.eqb_spec e2 0) as [-> | ]; cbn [negb] in H; [ | discriminate].
  apply bind_Ret_inv in H as (t4 & s & t5 & Hs & H & ->).
  apply of_option_inv in Hs as [Hs ->].
  apply bind_Ret_inv in H as (t6 & dv & t7 & Hdv & H & ->).
  injection H as <- <-.
  pose proof (make_dummy_vector_silent (List.length s) (nr_window_widths o) L'
                (apply_tau o)) as Hsil.
  unfold silent in Hsil. rewrite Hdv in Hsil. cbn in Hsil. subst t6.
  split; cbn.
  - now exists t0.
  - reflexivity.
  - exists (t0 ++ t1), t2. split; [assumption | ].
    now rewrite !app_nil_r, app_assoc.
  - now apply make_dummy_vector_zeros in Hdv.
Qed.

End PrepareFacts.

(** ** The numeric variables of the parser *)

Lemma atoi_in_int s v : atoi s = Some v -> in_int v = true.
Proof.
  unfold atoi.
  match goal with |- (if in_int ?x then _ else _) = _ -> _ =>
    destruct (in_int x) eqn:E
  end; [now intros [= <-] | discriminate].
Qed.

Lemma resolve_mode_numeric o :
  index_a (resolve_mode o) = index_a o /\
  index_b (resolve_mode o) = index_b o /\
  apply_tau (resolve_mode o) = apply_tau o /\
  nr_window_widths (resolve_mode o) = nr_window_widths o /\
  window_basewidth (resolve_mode o) = window_basewidth o /\
  nr_surrogates (resolve_mode o) = nr_surrogates o.
Proof.
  unfold resolve_mode.
  destruct (compute_pvalue_diagram o), (print_corr_diagram o); cbn; tauto.
Qed.

(** The numeric variables are set from [atoi] only. *)
Lemma parse_loop_int program_name args :
  forall o, int_options o ->
  run_inv (fun _ => True) int_options (parse_loop program_name args o).
Proof.
  remember (List.length args) as n eqn:Hn.
  revert args Hn. induction n as [n IH] using lt_wf_ind. intros args Hn o Ho.
  assert (IH' : forall args' o', (List.length args' < List.length args)%nat ->
            int_options o' ->
            run_inv (fun _ => True) int_options
              (parse_loop program_name args' o')).
  { intros args' o' Hlt Ho'. eapply IH; [ | reflexivity | exact Ho'].
    now subst n. }
  clear IH Hn.
  destruct args as [ | a rest]; [now apply run_inv_ret | ].
  cbn [parse_loop].
  repeat (run_step; try exact I;
          try (apply IH'; [subst; cbn; lia | ];
               unfold int_options in *; cbn;
               repeat match goal with
               | H : atoi _ = Some _ |- _ => apply atoi_in_int in H
               end; tauto)).
Qed.

Lemma parse_options_int program_name args t e o :
  netOnZeroDXC_xc_parse_options program_name args initial_options
  = (t, Ret (e, o)) ->
  int_options o.
Proof.
  unfold netOnZeroDXC_xc_parse_options. intros H.
  apply bind_Ret_inv in H as (t1 & o1 & t2 & Hloop & H & _).
  assert (Ho1 : int_options o1).
  { apply (parse_loop_int program_name args initial_options);
      [repeat split | now rewrite Hloop]. }
  assert (Hres : int_options (resolve_mode o1)).
  { unfold int_options in *.
    destruct (resolve_mode_numeric o1) as (-> & -> & -> & -> & -> & ->).
    exact Ho1. }
  destruct (_ || _); [cbn in H; now injection H as _ _ <- | ].
  destruct (nr_window_widths (resolve_mode o1) <=? 0);
    [cbn in H; now injection H as _ _ <- | ].
  destruct (window_basewidth (resolve_mode o1) <=? 0);
    [cbn in H; now injection H as _ _ <- | ].
  cbn in H. injection H as _ _ <-. exact Hres.
Qed.


(** ** The rounds given to the center loop *)

(** A loop that ends, ends the same way with any number of rounds above
    the distance from the start to the bound. *)
Lemma center_loop_more_rounds L bound :
  0 < L ->
  forall fuel k v0 t v,
    0 <= k ->
    center_loop fuel k L bound v0 = (t, Ret v) ->
    forall fuel', (Z.to_nat (bound - k) < fuel')%nat ->
    center_loop fuel' k L bound v0 = (t, Ret v).
Proof.
  intros HL. induction fuel as [ | fuel IH]; intros k v0 t v Hk H fuel' Hf;
    [discriminate | ].
  destruct fuel' as [ | fuel']; [lia | ].
  cbn [center_loop] in *.
  destruct (Z.ltb_spec (to_size_t k) bound) as [Hlt | Hge]; [ | exact H].
  apply bind_Ret_inv in H as (t1 & k' & t2 & Hk' & H & ->).
  apply int_of_inv in Hk' as (-> & Hint & ->).
  apply in_int_iff in Hint. unfold INT_MAX in Hint.
  rewrite to_size_t_small in Hlt by lia.
  unfold int_add, int_of.
  replace (in_int (k + L)) with true
    by (symmetry; apply in_int_iff; unfold INT_MAX; lia).
  rewrite bind_ret_l. cbn [app].
  apply (IH (k + L) _ _ _ ltac:(lia) H). lia.
Qed.

(** With a bound above every [int], the loop does not end. *)
Lemma center_loop_unbounded L bound :
  0 < L -> INT_MAX < bound ->
  forall fuel k v0 t v,
    0 <= k <= INT_MAX -> center_loop fuel k L bound v0 <> (t, Ret v).
Proof.
  intros HL Hb. induction fuel as [ | fuel IH]; intros k v0 t v Hk H;
    [discriminate | ].
  cbn [center_loop] in H. unfold INT_MAX in *.
  rewrite to_size_t_small in H by lia.
  replace (k <? bound) with true in H by (symmetry; apply Z.ltb_lt; lia).
  apply bind_Ret_inv in H as (t1 & k' & t2 & Hk' & H & ->).
  apply int_of_inv in Hk' as (-> & Hint & ->).
  apply in_int_iff in Hint. unfold INT_MAX in Hint.
  apply (IH (k + L) _ _ _ ltac:(unfold INT_MAX; lia) H).
Qed.

(** The rounds that [make_dummy_vector] gives to the loop are enough: for
    the geometries that get past the parser and the validation ([W > 0],
    [L >= 0], [int] values), a loop that ends with any number of rounds
    ends the same way with [S n] rounds, [n] being the sequence length. *)
Lemma center_loop_fuel (n : nat) (W L tau : Z) (fuel : nat) t v :
  0 < W -> 0 <= L -> tau <= INT_MAX -> in_int (W * L) = true ->
  center_loop fuel (Z.quot (W * L) 2 - 1) L
    (if 0 <? tau then to_size_t (Z.of_nat n - Z.quot (W * L) 2 - tau)
     else to_size_t (Z.of_nat n - Z.quot (W * L) 2)) [] = (t, Ret v) ->
  center_loop (S n) (Z.quot (W * L) 2 - 1) L
    (if 0 <? tau then to_size_t (Z.of_nat n - Z.quot (W * L) 2 - tau)
     else to_size_t (Z.of_nat n - Z.quot (W * L) 2)) [] = (t, Ret v).
Proof.
  intros HW HL Htau Hint.
  apply in_int_iff in Hint. unfold INT_MIN, INT_MAX in *.
  set (half := Z.quot (W * L) 2).
  set (x := Z.of_nat n - half - (if 0 <? tau then tau else 0)).
  assert (Hbound : (if 0 <? tau then to_size_t (Z.of_nat n - half - tau)
                    else to_size_t (Z.of_nat n - half)) = to_size_t x).
  { subst x. destruct (0 <? tau); f_equal; lia. }
  rewrite Hbound. clear Hbound.
  assert (Hhalf : 0 <= half <= 2 ^ 30).
  { subst half. assert (0 <= W * L) by nia. split.
    - apply Z.quot_pos; lia.
    - apply Z.quot_le_upper_bound; lia. }
  assert (Htau' : 0 <= (if 0 <? tau then tau else 0) <= 2 ^ 31 - 1)
    by (destruct (Z.ltb_spec 0 tau); lia).
  pose proof (to_size_t_range x) as Hrange.
  destruct (Z.eq_dec half 0) as [Hzero | Hpos].
  - (* The start is -1, which is the largest [size_t]. *)
    rewrite Hzero. intros H. destruct fuel as [ | fuel]; [discriminate | ].
    cbn [center_loop] in *.
    replace (to_size_t (0 - 1) <? to_size_t x) with false in *
      by (symmetry; apply Z.ltb_ge; change (to_size_t (0 - 1)) with (2 ^ 64 - 1); lia).
    exact H.
  - assert (HL' : 0 < L).
    { destruct (Z.eq_dec L 0) as [-> | ]; [ | lia].
      subst half. rewrite Z.mul_0_r in Hpos. now cbn in Hpos. }
    intros H. destruct (Z.le_gt_cases 0 x) as [Hx | Hx].
    + apply (center_loop_more_rounds L (to_size_t x) HL' fuel); [lia | exact H | ].
      assert (to_size_t x <= x) by (apply Z.mod_le; lia).
      lia.
    + exfalso. rewrite to_size_t_neg in H by lia.
      apply (center_loop_unbounded L (x + 2 ^ 64) HL' ltac:(unfold INT_MAX; lia)
               fuel (half - 1) [] t v); [unfold INT_MAX; lia | exact H].
Qed.

(** * Main results *)

(** ** The width of a diagram *)

Lemma div_sub_lower a t L : 0 < L -> 0 <= t -> a / L - t <= (a - t) / L.
Proof.
  intros HL Ht. apply Z.div_le_lower_bound; [assumption | ].
  pose proof (Z.mul_div_le a L HL). nia.
Qed.

(** C1, at a concrete input: two sequences of length 100 with [L = 10],
    [W = 3] and no delay.  The center loop of lines 109-117 makes a row of
    8 entries, and the three rows of the diagram have that length, while
    the stated width [floor((N - L*W) / L)] is 7. *)
Lemma diagram_width_counterexample :
  make_dummy_vector 100 3 10 0 = ([], Ret (repeat 0%Q 8)) /\
  stated_row_length 100 10 3 0 = 7 /\
  new_diagram 3 (repeat 0%Q 8) = repeat (repeat 0%Q 8) 3 /\
  Z.of_nat (List.length (repeat 0%Q 8)) <> stated_row_length 100 10 3 0.
Proof. repeat split. vm_compute. discriminate. Qed.

(** C1, as amended: for [W > 0], [L > 0] even and a sequence length [N]
    with [L*W + t <= N], where [t] is [tau] if [tau > 0] and 0 otherwise,
    the center loop of [main] ends and the diagram that [main] allocates
    from its row has exactly [W] rows, each of length
    [floor((N - L*W - t) / L) + 1].  That length is larger than the stated
    [floor((N - L*W) / L) - t]. *)
Theorem diagram_shape (n : nat) (W L tau : Z) :
  0 < W -> 0 < L -> Z.even L = true ->
  L * W + (if 0 <? tau then tau else 0) <= Z.of_nat n ->
  Z.of_nat n + L <= INT_MAX ->
  exists dummy_vector,
    make_dummy_vector n W L tau = ([], Ret dummy_vector) /\
    List.length (new_diagram W dummy_vector) = Z.to_nat W /\
    Forall (fun row => Z.of_nat (List.length row)
                       = (Z.of_nat n - L * W - (if 0 <? tau then tau else 0)) / L + 1)
           (new_diagram W dummy_vector) /\
    stated_row_length (Z.of_nat n) L W tau
    < (Z.of_nat n - L * W - (if 0 <? tau then tau else 0)) / L + 1.
Proof.
  intros HW HL Heven Hn Hmax.
  set (t := if 0 <? tau then tau else 0) in *.
  assert (Ht : 0 <= t) by (subst t; destruct (Z.ltb_spec 0 tau); lia).
  apply Z.even_spec in Heven as [h Hh].
  assert (HWL : W * L = 2 * (h * W)) by lia.
  assert (Hh0 : 0 < h) by lia.
  assert (HhW : 0 < h * W) by nia.
  assert (Hquot : Z.quot (W * L) 2 = h * W).
  { rewrite HWL, Z.mul_comm. apply Z.quot_mul. lia. }
  set (N := Z.of_nat n) in *.
  set (K := (N - L * W - t) / L + 1).
  assert (HK0 : 0 <= (N - L * W - t) / L) by (apply Z.div_pos; lia).
  assert (HKn : (N - L * W - t) / L <= N - L * W - t).
  { apply Z.div_le_upper_bound; nia. }
  exists (repeat 0%Q (Z.to_nat K)).
  assert (Hbound : (if 0 <? tau then to_size_t (N - h * W - tau)
                    else to_size_t (N - h * W)) = N - h * W - t).
  { subst t. unfold INT_MAX in Hmax.
    destruct (0 <? tau); rewrite to_size_t_small; lia. }
  assert (Hrounds : rounds (h * W - 1) L (N - h * W - t) = Z.to_nat K).
  { unfold rounds, K. f_equal.
    replace (N - h * W - t - (h * W - 1) + L - 1)
      with ((N - L * W - t) + 1 * L) by lia.
    rewrite Z.div_add by lia. reflexivity. }
  repeat split.
  - unfold make_dummy_vector, int_mul, int_sub, int_of.
    replace (in_int (W * L)) with true
      by (symmetry; apply in_int_iff; unfold INT_MIN, INT_MAX in *; nia).
    rewrite (bind_Ret _ _ [] (W * L) eq_refl). cbn [app trace outcome].
    rewrite Hquot.
    replace (in_int (h * W - 1)) with true
      by (symmetry; apply in_int_iff; unfold INT_MIN, INT_MAX in *; nia).
    rewrite (bind_Ret _ _ [] (h * W - 1) eq_refl). cbn [app trace outcome].
    fold N. rewrite Hbound.
    rewrite center_loop_rounds; try lia.
    rewrite Hrounds. reflexivity.
  - unfold new_diagram. apply repeat_length.
  - unfold new_diagram. apply Forall_forall. intros row Hrow.
    apply repeat_spec in Hrow. subst row. rewrite repeat_length.
    unfold K. lia.
  - unfold stated_row_length. fold t.
    pose proof (div_sub_lower (N - L * W) t L HL Ht). lia.
Qed.

Lemma diagram_shape_witness :
  exists dummy_vector,
    make_dummy_vector 100 3 10 0 = ([], Ret dummy_vector) /\
    List.length (new_diagram 3 dummy_vector) = 3%nat /\
    Forall (fun row => Z.of_nat (List.length row) = 8)
           (new_diagram 3 dummy_vector) /\
    stated_row_length 100 10 3 0 < 8.
Proof.
  apply (diagram_shape 100 3 10 0); vm_compute; (reflexivity || discriminate).
Defined.

(** ** Traces of composed runs *)

Lemma trace_bind {A B} (m : Run A) (f : A -> Run B) :
  trace (bind m f)
  = trace m ++ match outcome m with Ret a => trace (f a) | _ => [] end.
Proof.
  destruct m as [t [a | s | ]]; cbn; try now rewrite app_nil_r.
  now destruct (f a).
Qed.

Lemma outcome_bind {A B} (m : Run A) (f : A -> Run B) :
  outcome (bind m f)
  = match outcome m with
    | Ret a => outcome (f a)
    | Exit s => Exit s
    | Undefined => Undefined
    end.
Proof. destruct m as [t [a | s | ]]; cbn; trivial. now destruct (f a). Qed.

(** A loop whose body takes the state from [I j] to [I (S j)] takes it
    from [I j] to [I (j + length l)]. *)
Lemma for_each_inv {S} (P : event -> Prop) (I : nat -> S -> Prop)
    (body : Z -> S -> Run S) (l : list Z) :
  (forall i j s, I j s -> run_inv P (I (Datatypes.S j)) (body i s)) ->
  forall j s, I j s -> run_inv P (I (j + List.length l)%nat) (for_each body l s).
Proof.
  intros Hbody. induction l as [ | i l IH]; intros j s Hs; cbn.
  - apply run_inv_ret. now rewrite Nat.add_0_r.
  - eapply run_inv_bind; [exact (Hbody i j s Hs) | ].
    intros s' Hs'. rewrite <- Nat.add_succ_comm. now apply IH.
Qed.

Lemma mapM_incl {A} (d : list A) (idx : list nat) rows :
  mapM (fun l => nth_error d l) idx = Some rows -> incl rows d.
Proof.
  revert rows. induction idx as [ | i idx IH]; cbn; intros rows.
  - intros [= <-]. intros x [].
  - destruct (nth_error d i) as [row | ] eqn:Ei; [ | discriminate].
    destruct (mapM _ idx) as [rows' | ]; [ | discriminate].
    intros [= <-]. intros x [<- | Hx].
    + eapply nth_error_In; eassumption.
    + now apply (IH rows').
Qed.

Lemma flat_map_map {A B C} (f : B -> list C) (g : A -> B) (l : list A) :
  flat_map f (map g l) = flat_map (fun x => f (g x)) l.
Proof. induction l as [ | a l IH]; cbn; [reflexivity | now rewrite IH]. Qed.

Lemma seeds_of_app t1 t2 : seeds_of (t1 ++ t2) = seeds_of t1 ++ seeds_of t2.
Proof. apply flat_map_app. Qed.

Lemma base_widths_of_app t1 t2 :
  base_widths_of (t1 ++ t2) = base_widths_of t1 ++ base_widths_of t2.
Proof. apply flat_map_app. Qed.

Lemma seeds_of_none t :
  Forall (fun e => is_generate e = false) t -> seeds_of t = [].
Proof.
  induction 1 as [ | e t He _ IH]; [reflexivity | ].
  unfold seeds_of in *. cbn [flat_map]. rewrite IH.
  destruct e; cbn in *; (reflexivity || discriminate).
Qed.

Lemma seeds_of_skip e t :
  is_generate e = false -> seeds_of (e :: t) = seeds_of t.
Proof. destruct e; cbn; (discriminate || reflexivity). Qed.

Lemma stderr_not_generate t :
  Forall stderr_event t -> Forall (fun e => is_generate e = false) t.
Proof. apply Forall_impl. intros [ ]; cbn; easy. Qed.

Lemma iota_length n : List.length (iota n) = Z.to_nat n.
Proof. unfold iota. now rewrite length_map, length_seq. Qed.

Section TrialFacts.

Context {alg : Algorithm} {io : InputOutput} {rt : Runtime}.

(** The output of a table: a property of the save event for [d] and of
    every print event for rows of [d] holds along the run. *)
Lemma output_table_inv (P : event -> Prop) o d error :
  (forall f s, P (EvSaveFile d f s)) ->
  (forall rows s, incl rows d -> P (EvStdout rows s)) ->
  run_inv P (fun _ => True) (output_table o d error).
Proof.
  intros Hsave Hprint. unfold output_table. destruct (write_to_file o).
  - eapply run_inv_bind; [apply run_inv_emit, Hsave | intros; now apply run_inv_ret].
  - eapply run_inv_bind with (Q := fun _ => True); [ | intros; now apply run_inv_ret].
    unfold print_table.
    eapply run_inv_bind; [apply run_inv_of_option | cbv beta; intros rows Hrows].
    destruct (existsb _ rows); [apply run_inv_undefined | ].
    apply run_inv_emit, Hprint. eapply mapM_incl; eassumption.
Qed.

Variables (loaded_sequences : sequences) (index_a index_b : Z).
Variables (window_basewidth nr_window_widths apply_tau nr_surrogates : Z).
Variables (dummy_vector : list Q) (correlation_diagram_data : diagram).
Variables (values_distribution_a fft_amplitudes_a : list Q).
Variables (values_distribution_b fft_amplitudes_b : list Q).

Local Abbreviation events_of :=
  (trial_events index_a index_b window_basewidth nr_window_widths apply_tau
     nr_surrogates).

Local Abbreviation trial := (surrogate_trial loaded_sequences index_a index_b
  window_basewidth nr_window_widths apply_tau nr_surrogates dummy_vector
  correlation_diagram_data values_distribution_a fft_amplitudes_a
  values_distribution_b fft_amplitudes_b).

Local Abbreviation sequential := (sequential_body loaded_sequences index_a index_b
  window_basewidth nr_window_widths apply_tau nr_surrogates dummy_vector
  correlation_diagram_data values_distribution_a fft_amplitudes_a
  values_distribution_b fft_amplitudes_b).

Local Abbreviation parallel := (parallel_body loaded_sequences index_a index_b
  window_basewidth nr_window_widths apply_tau nr_surrogates dummy_vector
  correlation_diagram_data values_distribution_a fft_amplitudes_a
  values_distribution_b fft_amplitudes_b).

(** A trial always goes through, with its four events. *)
Lemma surrogate_trial_run seed_a seed_b p :
  exists p', trial seed_a seed_b p = (events_of seed_a seed_b, Ret p').
Proof. eexists. reflexivity. Qed.

Lemma sequential_body_run i seed p :
  exists p',
    sequential i (seed, p)
    = (events_of seed (to_uint (seed + 1)),
       Ret (to_uint (to_uint (seed + 1) + 1), p')).
Proof. eexists. reflexivity. Qed.

(** The seeds of the sequential loop, started with [seed = to_uint s]. *)
Lemma sequential_seeds (l : list Z) :
  forall s p,
    (exists st, outcome (for_each sequential l (to_uint s, p)) = Ret st) /\
    seeds_of (trace (for_each sequential l (to_uint s, p)))
    = flat_map (fun j => [to_uint (s + 2 * Z.of_nat j);
                          to_uint (s + 2 * Z.of_nat j + 1)])
               (seq 0 (List.length l)).
Proof.
  induction l as [ | i l IH]; intros s p; cbn [for_each].
  - split; [now eexists | reflexivity].
  - destruct (sequential_body_run i (to_uint s) p) as [p' Hp'].
    rewrite (bind_Ret _ _ _ _ Hp').
    assert (Hnext : to_uint (to_uint (to_uint s + 1) + 1) = to_uint (s + 2)).
    { rewrite (to_uint_add_l s 1), (to_uint_add_l (s + 1) 1). f_equal. lia. }
    rewrite Hnext. destruct (IH (s + 2) p') as [Hout Hseeds].
    split; [exact Hout | ].
    cbn [trace outcome fst snd]. rewrite seeds_of_app, Hseeds.
    cbn [List.length seq flat_map].
    rewrite <- seq_shift, flat_map_map.
    cbn [trial_events seeds_of flat_map app].
    rewrite to_uint_add_l.
    replace (s + 2 * Z.of_nat 0) with s by lia.
    replace (s + 2 * Z.of_nat 0 + 1) with (s + 1) by lia.
    f_equal. f_equal. apply flat_map_ext. intros j.
    replace (s + 2 * Z.of_nat (S j)) with (s + 2 + 2 * Z.of_nat j) by lia.
    reflexivity.
Qed.

Lemma parallel_body_run i seed p :
  in_int (2 * i) = true ->
  exists p',
    parallel i (seed, p)
    = (events_of (to_uint (seed + 2 * i)) (to_uint (to_uint (seed + 2 * i) + 1)),
       Ret (to_uint (to_uint (seed + 2 * i) + 1), p')).
Proof.
  intros Hi. unfold parallel_body, int_mul, int_of. rewrite Hi.
  eexists. reflexivity.
Qed.

(** The seeds of the parallel loop when the iterations [j .. j+n-1] are
    run in order, started with [seed = to_uint (s + j*j)]: iteration [i]
    generates with [s + i*i + 2*i] and the next value, since [seed] keeps
    what the iterations before have added to it. *)
Lemma parallel_seeds_in_order (n : nat) :
  forall (j : nat) s p,
    Z.of_nat (j + n) <= 2 ^ 30 ->
    seeds_of (trace (for_each parallel (map Z.of_nat (seq j n))
                       (to_uint (s + Z.of_nat j * Z.of_nat j), p)))
    = flat_map (fun i => [to_uint (s + i * i + 2 * i);
                          to_uint (s + i * i + 2 * i + 1)])
               (map Z.of_nat (seq j n)).
Proof.
  induction n as [ | n IH]; intros j s p Hj; [reflexivity | ].
  cbn [seq map for_each flat_map].
  destruct (parallel_body_run (Z.of_nat j)
              (to_uint (s + Z.of_nat j * Z.of_nat j)) p) as [p' Hp'].
  { apply in_int_iff. unfold INT_MIN, INT_MAX. lia. }
  rewrite (bind_Ret _ _ _ _ Hp'). cbn [trace outcome fst snd].
  rewrite seeds_of_app.
  assert (Ea : to_uint (to_uint (s + Z.of_nat j * Z.of_nat j) + 2 * Z.of_nat j)
               = to_uint (s + Z.of_nat j * Z.of_nat j + 2 * Z.of_nat j))
    by apply to_uint_add_l.
  assert (Eb : to_uint (to_uint (s + Z.of_nat j * Z.of_nat j + 2 * Z.of_nat j) + 1)
               = to_uint (s + Z.of_nat j * Z.of_nat j + 2 * Z.of_nat j + 1))
    by apply to_uint_add_l.
  rewrite Ea, Eb.
  replace (s + Z.of_nat j * Z.of_nat j + 2 * Z.of_nat j + 1)
    with (s + Z.of_nat (S j) * Z.of_nat (S j)) at 2 by lia.
  rewrite (IH (S j) s p') by lia.
  reflexivity.
Qed.

(** Every event of the trial loops is one of a trial, and the p-value
    diagram has gone through as many updates as there are trials. *)
Lemma run_trials_inv (P : event -> Prop) (I : nat -> diagram -> Prop) par st :
  (forall seed_a seed_b, Forall P (events_of seed_a seed_b)) ->
  (forall j p c_surr, I j p ->
     I (S j) (netOnZeroDXC_update_pdiagram p correlation_diagram_data c_surr
                nr_window_widths nr_surrogates)) ->
  I 0%nat (snd st) ->
  run_inv P (fun st' => I (Z.to_nat nr_surrogates) (snd st'))
    (run_trials loaded_sequences index_a index_b window_basewidth
       nr_window_widths apply_tau nr_surrogates dummy_vector
       correlation_diagram_data values_distribution_a fft_amplitudes_a
       values_distribution_b fft_amplitudes_b par st).
Proof.
  intros HP HI Hst. unfold run_trials.
  assert (Hlen : List.length (omp_dispatch nr_surrogates) = Z.to_nat nr_surrogates).
  { rewrite (Permutation_length (omp_dispatch_perm nr_surrogates)).
    apply iota_length. }
  destruct par.
  - rewrite <- Hlen.
    apply (for_each_inv P (fun j st' => I j (snd st'))) with (j := 0%nat);
      trivial.
    intros i j [seed p] Hp; cbn [snd] in Hp. unfold parallel_body.
    eapply run_inv_bind; [apply run_inv_int_of | intros two_i _].
    split; cbn; [apply HP | intros a [= <-]; cbn; now apply HI].
  - rewrite <- (iota_length nr_surrogates).
    apply (for_each_inv P (fun j st' => I j (snd st'))) with (j := 0%nat);
      trivial.
    intros i j [seed p] Hp; cbn [snd] in Hp.
    split; cbn; [apply HP | intros a [= <-]; cbn; now apply HI].
Qed.

End TrialFacts.

(** ** The two ways [main] ends *)

Section MainFacts.

Context {alg : Algorithm} {io : InputOutput} {rt : Runtime}.

(** The output of a table is one event, or has no defined result (a row
    that is missing or empty on the way to the standard output). *)
Lemma output_table_cases o d error :
  (exists e error',
     output_table o d error = ([e], Ret error') /\ is_output e = true /\
     (exists d', output_of e = Some d' /\ incl d' d) /\
     (write_to_file o = false -> error' = error)) \/
  output_table o d error = ([], Undefined).
Proof.
  unfold output_table. destruct (write_to_file o).
  - left. eexists. eexists. split; [reflexivity | ]. split; [reflexivity | ].
    split; [ | discriminate]. exists d. split; [reflexivity | apply incl_refl].
  - unfold print_table.
    destruct (mapM _ (seq 0 (Z.to_nat (nr_window_widths o)))) as [rows | ] eqn:E;
      cbn; [ | now right].
    destruct (existsb _ rows); cbn; [now right | ].
    left. eexists. eexists. split; [reflexivity | ]. split; [reflexivity | ].
    split; [ | reflexivity]. exists rows. split; [reflexivity | ].
    eapply mapM_incl; eassumption.
Qed.

Lemma p_value_run_inv (P : event -> Prop) (I : nat -> diagram -> Prop) pr d :
  (forall i, P (EvInitializeSurrogate i)) ->
  (forall seed_a seed_b,
     Forall P (trial_events (index_a (pr_options pr) - 1)
                 (index_b (pr_options pr) - 1) (pr_window_basewidth pr)
                 (nr_window_widths (pr_options pr)) (apply_tau (pr_options pr))
                 (nr_surrogates (pr_options pr)) seed_a seed_b)) ->
  (forall m, P (EvStderr m)) ->
  I 0%nat (new_diagram (nr_window_widths (pr_options pr)) (pr_dummy_vector pr)) ->
  (forall j p c_surr, I j p ->
     I (S j) (netOnZeroDXC_update_pdiagram p d c_surr
                (nr_window_widths (pr_options pr))
                (nr_surrogates (pr_options pr)))) ->
  (forall p, I (Z.to_nat (nr_surrogates (pr_options pr))) p ->
     (forall f s, P (EvSaveFile p f s)) /\
     (forall rows s, incl rows p -> P (EvStdout rows s))) ->
  run_inv P (fun _ => True) (p_value_run pr d).
Proof.
  intros Hinit Htrial Hmsg H0 Hstep Hout. unfold p_value_run.
  eapply run_inv_bind; [apply run_inv_emit, Hinit | intros _ _].
  destruct (netOnZeroDXC_initialize_surrogate_generation _ _) as [va fa].
  eapply run_inv_bind; [apply run_inv_emit, Hinit | intros _ _].
  destruct (netOnZeroDXC_initialize_surrogate_generation _ _) as [vb fb].
  eapply run_inv_bind;
    [apply (run_trials_inv _ _ _ _ _ _ _ _ _ _ _ _ _ P I); eassumption | ].
  intros [seed p] Hp. cbn [snd] in Hp. destruct (Hout p Hp) as [Hsave Hprint].
  eapply run_inv_bind; [now apply output_table_inv | intros error _].
  destruct (negb (error =? 0)); [ | now apply run_inv_ret].
  eapply run_inv_bind; [apply run_inv_emit, Hmsg | intros; apply run_inv_exit].
Qed.

(** The seeds of the p-value run are those of its trial loop. *)
Lemma p_value_run_seeds pr d :
  seeds_of (trace (p_value_run pr d))
  = seeds_of
      (trace
         (run_trials (pr_loaded_sequences pr) (index_a (pr_options pr) - 1)
            (index_b (pr_options pr) - 1) (pr_window_basewidth pr)
            (nr_window_widths (pr_options pr)) (apply_tau (pr_options pr))
            (nr_surrogates (pr_options pr)) (pr_dummy_vector pr) d
            (fst (netOnZeroDXC_initialize_surrogate_generation
                    (pr_loaded_sequences pr) (index_a (pr_options pr) - 1)))
            (snd (netOnZeroDXC_initialize_surrogate_generation
                    (pr_loaded_sequences pr) (index_a (pr_options pr) - 1)))
            (fst (netOnZeroDXC_initialize_surrogate_generation
                    (pr_loaded_sequences pr) (index_b (pr_options pr) - 1)))
            (snd (netOnZeroDXC_initialize_surrogate_generation
                    (pr_loaded_sequences pr) (index_b (pr_options pr) - 1)))
            (enable_parallel_computing (pr_options pr))
            (to_uint clock,
             new_diagram (nr_window_widths (pr_options pr))
               (pr_dummy_vector pr)))).
Proof.
  unfold p_value_run.
  rewrite trace_bind. cbn [emit trace outcome fst snd app].
  destruct (netOnZeroDXC_initialize_surrogate_generation _
              (index_a (pr_options pr) - 1)) as [va fa].
  rewrite trace_bind. cbn [emit trace outcome fst snd app].
  destruct (netOnZeroDXC_initialize_surrogate_generation _
              (index_b (pr_options pr) - 1)) as [vb fb].
  rewrite trace_bind, !seeds_of_skip by reflexivity.
  rewrite seeds_of_app. rewrite <- app_nil_r. f_equal.
  match goal with |- context [match ?r with Ret _ => _ | _ => _ end] =>
    destruct r as [[seed p'] | s | ]
  end; try reflexivity.
  apply seeds_of_none.
  enough (H : run_inv (fun e => is_generate e = false) (fun _ : Z => True)
                (error <- output_table (pr_options pr) p' (pr_error pr) ;;
                 if negb (error =? 0)
                 then emit (EvStderr (MsgWriteError
                        (selected_output_filename (pr_options pr)))) ;;; exit 1
                 else ret 0)) by apply H.
  eapply run_inv_bind; [now apply output_table_inv | intros error _].
  destruct (negb (error =? 0)); [ | now apply run_inv_ret].
  eapply run_inv_bind; [now apply run_inv_emit | intros; apply run_inv_exit].
Qed.

(** In sequential mode the trials all go through, and their seeds are
    those of a counter that starts at [clock()] and steps by one. *)
Lemma p_value_run_sequential_seeds pr d :
  enable_parallel_computing (pr_options pr) = false ->
  seeds_of (trace (p_value_run pr d))
  = flat_map (fun j => [to_uint (clock + 2 * Z.of_nat j);
                        to_uint (clock + 2 * Z.of_nat j + 1)])
             (seq 0 (Z.to_nat (nr_surrogates (pr_options pr)))).
Proof.
  intros Hseq. rewrite p_value_run_seeds. unfold run_trials. rewrite Hseq.
  match goal with
  | |- context [for_each (sequential_body ?x1 ?x2 ?x3 ?x4 ?x5 ?x6 ?x7 ?x8 ?x9
                            ?x10 ?x11 ?x12 ?x13) ?l (to_uint clock, ?p)] =>
      destruct (sequential_seeds x1 x2 x3 x4 x5 x6 x7 x8 x9 x10 x11 x12 x13
                  l clock p) as [_ Hseeds]
  end.
  now rewrite Hseeds, iota_length.
Qed.

Lemma main_trace program_name args :
  trace (main program_name args)
  = trace (prepare program_name args)
    ++ match outcome (prepare program_name args) with
       | Ret pr => trace (compute_and_report pr)
       | _ => []
       end.
Proof. apply trace_bind. Qed.

Lemma main_outcome program_name args :
  outcome (main program_name args)
  = match outcome (prepare program_name args) with
    | Ret pr => outcome (compute_and_report pr)
    | Exit s => Exit s
    | Undefined => Undefined
    end.
Proof. apply outcome_bind. Qed.

(** The seeds of a run of [main] that gets past lines 70-117 and asks for
    the p-value diagram. *)
Lemma main_seeds program_name args tp pr :
  prepare program_name args = (tp, Ret pr) ->
  print_corr_diagram (pr_options pr) = false ->
  seeds_of (trace (main program_name args))
  = seeds_of
      (trace
         (p_value_run pr
            (netOnZeroDXC_compute_cdiagram
               (new_diagram (nr_window_widths (pr_options pr))
                  (pr_dummy_vector pr))
               (pr_loaded_sequences pr) (index_a (pr_options pr) - 1)
               (index_b (pr_options pr) - 1) (pr_window_basewidth pr)
               (nr_window_widths (pr_options pr))
               (0 <? apply_tau (pr_options pr)) (apply_tau (pr_options pr))))).
Proof.
  intros Hp Hprint. rewrite main_trace, seeds_of_app.
  rewrite (seeds_of_none (trace (prepare program_name args)))
    by apply stderr_not_generate, prepare_stderr.
  rewrite Hp. cbn [outcome snd app]. unfold compute_and_report.
  rewrite trace_bind. cbn [emit trace outcome fst snd app].
  now rewrite Hprint, seeds_of_skip by reflexivity.
Qed.

Lemma compute_and_report_inv (P : event -> Prop) (I : nat -> diagram -> Prop) pr :
  (forall ia ib ad tau,
     P (EvComputeCdiagram ia ib (pr_window_basewidth pr)
          (nr_window_widths (pr_options pr)) ad tau)) ->
  (forall m, P (EvStderr m)) ->
  (print_corr_diagram (pr_options pr) = true ->
   forall e, is_output e = true -> P e) ->
  (print_corr_diagram (pr_options pr) = false ->
   (forall e, is_surrogate_work e = true -> P e) /\
   I 0%nat (new_diagram (nr_window_widths (pr_options pr)) (pr_dummy_vector pr)) /\
   (forall j p d c_surr, I j p ->
      I (S j) (netOnZeroDXC_update_pdiagram p d c_surr
                 (nr_window_widths (pr_options pr))
                 (nr_surrogates (pr_options pr)))) /\
   (forall p, I (Z.to_nat (nr_surrogates (pr_options pr))) p ->
      (forall f s, P (EvSaveFile p f s)) /\
      (forall rows s, incl rows p -> P (EvStdout rows s)))) ->
  run_inv P (fun _ => True) (compute_and_report pr).
Proof.
  intros Hcompute Hmsg Hprint Hpvalue. unfold compute_and_report.
  eapply run_inv_bind; [apply run_inv_emit, Hcompute | intros _ _].
  destruct (print_corr_diagram (pr_options pr)).
  - specialize (Hprint eq_refl).
    eapply run_inv_bind;
      [apply output_table_inv; intros; now apply Hprint | intros error _].
    destruct (negb (error =? 0)); [ | apply run_inv_exit].
    eapply run_inv_bind; [apply run_inv_emit, Hmsg | intros; apply run_inv_exit].
  - destruct (Hpvalue eq_refl) as (Hwork & H0 & Hstep & Hout).
    apply p_value_run_inv with (I := I); trivial.
    + intros i. now apply Hwork.
    + intros sa sb. repeat constructor; try (now apply Hwork).
      apply Hcompute.
    + intros j p c_surr Hp. now apply Hstep.
Qed.

(** A run of [main] keeps [P] on its events when the messages do and
    when, after lines 70-117 have gone through, the rest does. *)
Lemma main_inv (P : event -> Prop) program_name args :
  (forall m, P (EvStderr m)) ->
  (forall tp pr, prepare program_name args = (tp, Ret pr) ->
     Forall P (trace (compute_and_report pr))) ->
  Forall P (trace (main program_name args)).
Proof.
  intros Hmsg Hrest. rewrite main_trace. apply Forall_app. split.
  - eapply Forall_impl; [ | apply prepare_stderr].
    intros [ ]; cbn; try discriminate. intros _. apply Hmsg.
  - destruct (outcome (prepare program_name args)) as [pr | s | ] eqn:E;
      try constructor.
    apply (Hrest (trace (prepare program_name args))).
    rewrite <- E. apply run_eta.
Qed.

End MainFacts.

(** ** Exit statuses *)

Lemma exits_with_bind {A B} (Q : Z -> Prop) (m : Run A) (f : A -> Run B) :
  exits_with Q m -> (forall a, exits_with Q (f a)) -> exits_with Q (bind m f).
Proof.
  unfold exits_with. intros Hm Hf s. rewrite outcome_bind.
  destruct (outcome m) as [a | s' | ]; [apply Hf | | discriminate].
  intros [= <-]. now apply Hm.
Qed.

Lemma exits_with_ret {A} (Q : Z -> Prop) (a : A) : exits_with Q (ret a).
Proof. intros s; discriminate. Qed.

Lemma exits_with_undefined {A} (Q : Z -> Prop) : exits_with Q (@undefined A).
Proof. intros s; discriminate. Qed.

Lemma exits_with_emit (Q : Z -> Prop) e : exits_with Q (emit e).
Proof. intros s; discriminate. Qed.

Lemma exits_with_exit {A} (Q : Z -> Prop) s : Q s -> exits_with Q (@exit A s).
Proof. intros H s' [= <-]. exact H. Qed.

Lemma exits_with_of_option {A} (Q : Z -> Prop) (o : option A) :
  exits_with Q (of_option o).
Proof. destruct o; intros s; discriminate. Qed.

Lemma exits_with_int_of (Q : Z -> Prop) z : exits_with Q (int_of z).
Proof. unfold int_of. destruct (in_int z); intros s; discriminate. Qed.

Lemma center_loop_no_exit (Q : Z -> Prop) fuel L bound :
  forall k v, exits_with Q (center_loop fuel k L bound v).
Proof.
  induction fuel as [ | fuel IH]; intros k v; cbn;
    [apply exits_with_undefined | ].
  destruct (to_size_t k <? bound); [ | apply exits_with_ret].
  apply exits_with_bind; [apply exits_with_int_of | intros k'; apply IH].
Qed.

Lemma check_sequences_no_exit (Q : Z -> Prop) seqs na nb W L tau :
  exits_with Q (netOnZeroDXC_xc_check_sequences seqs na nb W L tau).
Proof.
  unfold netOnZeroDXC_xc_check_sequences.
  destruct (_ || _).
  { apply exits_with_bind; [apply exits_with_emit | intros; apply exits_with_ret]. }
  apply exits_with_bind; [apply exits_with_of_option | intros s].
  unfold check_windowing, expected_diagram_size.
  apply exits_with_bind.
  { apply exits_with_bind; [apply exits_with_int_of | intros LW].
    destruct (to_size_t L =? 0);
      [apply exits_with_undefined | apply exits_with_ret]. }
  intros K. destruct (K <? 1).
  { apply exits_with_bind; [apply exits_with_emit | intros; apply exits_with_ret]. }
  destruct (negb _); [ | apply exits_with_ret].
  apply exits_with_bind; [apply exits_with_emit | intros; apply exits_with_ret].
Qed.

(** Once the options have parsed, lines 70-117 exit with status 1 only. *)
Lemma prepare_exit_status {io : InputOutput} program_name args t0 e o :
  netOnZeroDXC_xc_parse_options program_name args initial_options
  = (t0, Ret (e, o)) ->
  exits_with (fun s => s = 1) (prepare program_name args).
Proof.
  intros Hparse s. unfold prepare. rewrite outcome_bind, Hparse.
  cbn [outcome snd]. revert s.
  change (exits_with (fun s => s = 1)
    (if negb (e =? 0) then exit 1 else
     '(error, loaded_sequences) <- load_sequences o ;;
     if (error =? 3) || (error =? 5) then
       emit (EvStderr MsgInconsistentSizes) ;;; exit 1
     else
     '(error, window_basewidth) <-
       netOnZeroDXC_xc_check_sequences loaded_sequences (index_a o) (index_b o)
         (nr_window_widths o) (window_basewidth o) (apply_tau o) ;;
     if negb (error =? 0) then exit 1 else
     sequence_a <-
       of_option (nth_error loaded_sequences
                    (Z.to_nat (to_size_t (index_a o - 1)))) ;;
     dummy_vector <-
       make_dummy_vector (List.length sequence_a) (nr_window_widths o)
         window_basewidth (apply_tau o) ;;
     ret (mkPrepared o error loaded_sequences window_basewidth dummy_vector))).
  destruct (negb (e =? 0)); [now apply exits_with_exit | ].
  apply exits_with_bind.
  { unfold load_sequences. destruct (read_from_file o).
    - destruct (netOnZeroDXC_load_single_file _ _) as [e1 s1].
      destruct (e1 =? 2); [ | apply exits_with_ret].
      apply exits_with_bind; [apply exits_with_emit | intros].
      now apply exits_with_exit.
    - apply exits_with_bind; [ | intros; apply exits_with_ret].
      unfold transpose_table. destruct (netOnZeroDXC_load_stdin _);
        [apply exits_with_undefined | apply exits_with_of_option]. }
  intros [e1 seqs]. destruct (_ || _).
  { apply exits_with_bind; [apply exits_with_emit | intros].
    now apply exits_with_exit. }
  apply exits_with_bind; [apply check_sequences_no_exit | intros [e2 L']].
  destruct (negb (e2 =? 0)); [now apply exits_with_exit | ].
  apply exits_with_bind; [apply exits_with_of_option | intros s].
  apply exits_with_bind; [ | intros; apply exits_with_ret].
  unfold make_dummy_vector.
  apply exits_with_bind; [apply exits_with_int_of | intros WL].
  apply exits_with_bind; [apply exits_with_int_of | intros k0].
  apply center_loop_no_exit.
Qed.

(** ** The table on the standard output *)

Lemma mapM_fails {A B} (f : A -> option B) l a :
  In a l -> f a = None -> mapM f l = None.
Proof.
  induction l as [ | a0 l IH]; cbn; [easy | ].
  intros [-> | Hin] Ha.
  - now rewrite Ha.
  - rewrite (IH Hin Ha). now destruct (f a0).
Qed.

Lemma skipn_nth_error {A} (d : list A) :
  forall a x, nth_error d a = Some x -> skipn a d = x :: skipn (S a) d.
Proof.
  induction d as [ | y d IH]; intros [ | a] x; cbn; try discriminate.
  - now intros [= ->].
  - intros H. now apply IH.
Qed.

Lemma mapM_nth_error_seq {A} (d : list A) (n : nat) :
  forall a, (a + n <= List.length d)%nat ->
  mapM (fun l => nth_error d l) (seq a n) = Some (firstn n (skipn a d)).
Proof.
  induction n as [ | n IH]; intros a Ha; [reflexivity | ].
  cbn [seq mapM].
  destruct (nth_error d a) as [x | ] eqn:E;
    [ | apply nth_error_None in E; lia].
  rewrite (IH (S a)) by lia.
  now rewrite (skipn_nth_error d a x E).
Qed.

(** The loop of lines 127-134 and 196-203 as a whole: with at least [W]
    rows, none of the first [W] empty, it goes through and the table is
    the first [W] rows; otherwise it reads an entry that is not there. *)
Lemma print_table_cases (d : diagram) (W : Z) (sep : ascii) :
  print_table d W sep
  = if (Z.to_nat W <=? List.length d)%nat
       && forallb (fun row => negb (Nat.eqb (List.length row) 0))
                  (firstn (Z.to_nat W) d)
    then ([EvStdout (firstn (Z.to_nat W) d) sep], Ret tt)
    else ([], Undefined).
Proof.
  unfold print_table.
  destruct (Nat.leb_spec (Z.to_nat W) (List.length d)) as [Hle | Hgt];
    cbn [andb].
  - rewrite (mapM_nth_error_seq d (Z.to_nat W) 0) by lia.
    cbn [skipn of_option]. rewrite bind_ret_l.
    generalize (firstn (Z.to_nat W) d) as rows. intros rows.
    assert (H : existsb (fun row : list Q =>
                           match row with [] => true | _ :: _ => false end) rows
                = negb (forallb (fun row => negb (Nat.eqb (List.length row) 0))
                          rows)).
    { induction rows as [ | [ | c row] rows IH]; cbn; trivial. }
    rewrite H. now destruct (forallb _ rows).
  - rewrite (mapM_fails _ (seq 0 (Z.to_nat W)) (List.length d));
      [reflexivity | apply in_seq; lia | now apply nth_error_None].
Qed.

(** ** The seed schedule of the sequential mode *)

Lemma in_iota i n : In i (iota n) <-> 0 <= i < n.
Proof.
  unfold iota. rewrite in_map_iff. split.
  - intros (k & <- & Hk). apply in_seq in Hk. lia.
  - intros Hi. exists (Z.to_nat i). split; [lia | ].
    apply in_seq. lia.
Qed.

Lemma flat_map_ext_in {A B} (f g : A -> list B) (l : list A) :
  (forall a, In a l -> f a = g a) -> flat_map f l = flat_map g l.
Proof.
  induction l as [ | a l IH]; cbn; intros H; [reflexivity | ].
  rewrite (H a) by now left. f_equal. apply IH. intros b Hb. apply H. now right.
Qed.

(** C8: in sequential mode, for a run that passes validation and asks for
    the p-value diagram, the seeds of the surrogate generations are, trial
    by trial, [base + 2*i] and [base + 2*i + 1] in [unsigned int]
    arithmetic, where [base] is the initial value of [seed] and [i] runs
    over [0 .. M-1]: one counter, advanced by one after each generation.
    When [base + 2*M] does not exceed [2^32] the sums do not wrap. *)
Theorem sequential_seed_schedule
    (alg : Algorithm) (io : InputOutput) (rt : Runtime)
    (program_name : string) (args : list string)
    (tp : list event) (pr : prepared) :
  prepare program_name args = (tp, Ret pr) ->
  print_corr_diagram (pr_options pr) = false ->
  enable_parallel_computing (pr_options pr) = false ->
  seeds_of (trace (main program_name args))
  = flat_map (fun i => [to_uint (to_uint clock + 2 * i);
                        to_uint (to_uint clock + 2 * i + 1)])
             (iota (nr_surrogates (pr_options pr)))
  /\ (to_uint clock + 2 * nr_surrogates (pr_options pr) <= 2 ^ 32 ->
      seeds_of (trace (main program_name args))
      = flat_map (fun i => [to_uint clock + 2 * i; to_uint clock + 2 * i + 1])
                 (iota (nr_surrogates (pr_options pr)))).
Proof.
  intros Hp Hprint Hseq.
  assert (Hseeds :
    seeds_of (trace (main program_name args))
    = flat_map (fun i => [to_uint (to_uint clock + 2 * i);
                          to_uint (to_uint clock + 2 * i + 1)])
               (iota (nr_surrogates (pr_options pr)))).
  { rewrite (main_seeds _ _ _ _ Hp Hprint).
    rewrite p_value_run_sequential_seeds by assumption.
    unfold iota. rewrite flat_map_map. apply flat_map_ext. intros j.
    rewrite (to_uint_add_l clock (2 * Z.of_nat j)).
    replace (to_uint clock + 2 * Z.of_nat j + 1)
      with (to_uint clock + (2 * Z.of_nat j + 1)) by lia.
    rewrite (to_uint_add_l clock (2 * Z.of_nat j + 1)).
    now rewrite Z.add_assoc. }
  split; [exact Hseeds | ].
  intros Hfit. rewrite Hseeds. apply flat_map_ext_in. intros i Hi.
  apply in_iota in Hi. pose proof (to_uint_range clock).
  rewrite (to_uint_small (to_uint clock + 2 * i)) by lia.
  rewrite (to_uint_small (to_uint clock + 2 * i + 1)) by lia. reflexivity.
Qed.

(** ** The base width that reaches the kernels *)

Lemma base_widths_of_stderr t :
  Forall stderr_event t -> base_widths_of t = [].
Proof.
  induction 1 as [ | e t He _ IH]; [reflexivity | ].
  unfold base_widths_of in *. cbn [flat_map]. rewrite IH.
  destruct e; cbn in *; (reflexivity || discriminate).
Qed.

Lemma base_widths_of_computes_with L t :
  Forall (computes_with L) t -> Forall (fun L' => L' = L) (base_widths_of t).
Proof.
  induction 1 as [ | e t He _ IH]; [constructor | ].
  unfold base_widths_of in *. cbn [flat_map].
  destruct e; cbn in *; trivial. now constructor.
Qed.

Lemma stderr_prefix tp rest t1 e t2 :
  Forall stderr_event tp -> tp ++ rest = t1 ++ e :: t2 -> is_stderr e = false ->
  exists t1', t1 = tp ++ t1'.
Proof.
  intros Htp. revert t1. induction Htp as [ | x tp Hx _ IH]; intros t1 Heq He.
  - now exists t1.
  - destruct t1 as [ | y t1]; cbn in Heq; injection Heq as -> Heq.
    + unfold stderr_event in Hx. congruence.
    + destruct (IH t1 Heq He) as [t1' ->]. now exists t1'.
Qed.

Lemma compute_and_report_computes_with
    {alg : Algorithm} {io : InputOutput} {rt : Runtime} pr :
  Forall (computes_with (pr_window_basewidth pr)) (trace (compute_and_report pr)).
Proof.
  apply (compute_and_report_inv (computes_with (pr_window_basewidth pr))
           (fun _ _ => True)); cbn; trivial.
  - intros _ [ ]; cbn; trivial; discriminate.
  - intros _. repeat split; trivial. intros [ ]; cbn; trivial; discriminate.
Qed.

(** An odd base width has a remainder. *)
Lemma rem_of_odd L : Z.odd L = true -> Z.rem L 2 <> 0.
Proof.
  intros Hodd Hr. apply even_of_rem in Hr.
  rewrite <- Z.negb_odd, Hodd in Hr. discriminate.
Qed.

(** The validation on an odd base width, for column numbers within the
    loaded sequences and an expected diagram size of at least 1. *)
Lemma check_sequences_odd seqs na nb W L tau s K :
  0 < na <= INT_MAX -> 0 < nb <= INT_MAX ->
  na <= Z.of_nat (List.length seqs) -> nb <= Z.of_nat (List.length seqs) ->
  nth_error seqs (Z.to_nat na) = Some s ->
  expected_diagram_size (Z.of_nat (List.length s)) L W tau = ([], Ret K) ->
  1 <= K ->
  Z.odd L = true ->
  netOnZeroDXC_xc_check_sequences seqs na nb W L tau
  = ([EvStderr (MsgOddBaseWidth (L - 1))], Ret (0, L - 1)).
Proof.
  intros Hna Hnb Ha Hb Hs HK H1 Hodd. unfold INT_MAX in *.
  unfold netOnZeroDXC_xc_check_sequences.
  rewrite (to_size_t_small na), (to_size_t_small nb) by lia.
  replace (Z.of_nat (List.length seqs) <? na) with false
    by (symmetry; apply Z.ltb_ge; lia).
  replace (Z.of_nat (List.length seqs) <? nb) with false
    by (symmetry; apply Z.ltb_ge; lia).
  cbn [orb]. rewrite Hs. cbn [of_option]. rewrite bind_ret_l.
  unfold check_windowing. rewrite (bind_Ret _ _ _ _ HK). cbn [app].
  replace (K <? 1) with false by (symmetry; apply Z.ltb_ge; lia).
  replace (Z.rem L 2 =? 0) with false
    by (symmetry; apply Z.eqb_neq; now apply rem_of_odd).
  reflexivity.
Qed.

(** C5: when the options parse, with base width [L] (then [L > 0]), every
    call of the diagram kernel in the run gets an even base width, which is
    [L - 1] for an odd [L]; and for an odd [L] the warning that names
    [L - 1] comes before the first call.  For an odd [L] the validation,
    on column numbers within the loaded sequences and an expected diagram
    size of at least 1, returns 0 with the warning and with [L - 1] in the
    place of [L]; and when the sequences load and the center loop ends,
    the run of [main] goes on from the warning to the call of the diagram
    kernel with [L - 1], and every later call gets [L - 1] too.  With
    [L = 11] the kernels get 10. *)
Theorem odd_base_width_reduced
    (alg : Algorithm) (io : InputOutput) (rt : Runtime)
    (program_name : string) (args : list string)
    (t0 : list event) (o : options) :
  netOnZeroDXC_xc_parse_options program_name args initial_options
  = (t0, Ret (0, o)) ->
  0 < window_basewidth o /\
  Forall (fun L' => Z.even L' = true /\
                    L' = if Z.odd (window_basewidth o)
                         then window_basewidth o - 1 else window_basewidth o)
         (base_widths_of (trace (main program_name args))) /\
  (Z.odd (window_basewidth o) = true ->
   forall t1 e t2,
     trace (main program_name args) = t1 ++ e :: t2 -> is_compute e = true ->
     In (EvStderr (MsgOddBaseWidth (window_basewidth o - 1))) t1) /\
  (Z.odd (window_basewidth o) = true ->
   forall (seqs : sequences) (s : list Q) (K : Z),
     index_a o <= Z.of_nat (List.length seqs) ->
     index_b o <= Z.of_nat (List.length seqs) ->
     nth_error seqs (Z.to_nat (index_a o)) = Some s ->
     expected_diagram_size (Z.of_nat (List.length s)) (window_basewidth o)
       (nr_window_widths o) (apply_tau o) = ([], Ret K) ->
     1 <= K ->
     netOnZeroDXC_xc_check_sequences seqs (index_a o) (index_b o)
       (nr_window_widths o) (window_basewidth o) (apply_tau o)
     = ([EvStderr (MsgOddBaseWidth (window_basewidth o - 1))],
        Ret (0, window_basewidth o - 1)) /\
     forall (t1 : list event) (e1 : Z) (sa dv : list Q),
       load_sequences o = (t1, Ret (e1, seqs)) -> e1 <> 3 -> e1 <> 5 ->
       nth_error seqs (Z.to_nat (index_a o - 1)) = Some sa ->
       make_dummy_vector (List.length sa) (nr_window_widths o)
         (window_basewidth o - 1) (apply_tau o) = ([], Ret dv) ->
       exists rest,
         main program_name args
         = (t0 ++ t1
            ++ EvStderr (MsgOddBaseWidth (window_basewidth o - 1))
            :: EvComputeCdiagram (index_a o - 1) (index_b o - 1)
                 (window_basewidth o - 1) (nr_window_widths o)
                 (0 <? apply_tau o) (apply_tau o)
            :: rest,
            outcome (main program_name args)) /\
         Forall (computes_with (window_basewidth o - 1)) rest).
Proof.
  intros Hparse.
  assert (Hold :
    0 < window_basewidth o /\
    Forall (fun L' => Z.even L' = true /\
                      L' = if Z.odd (window_basewidth o)
                           then window_basewidth o - 1 else window_basewidth o)
           (base_widths_of (trace (main program_name args))) /\
    (Z.odd (window_basewidth o) = true ->
     forall t1 e t2,
       trace (main program_name args) = t1 ++ e :: t2 -> is_compute e = true ->
       In (EvStderr (MsgOddBaseWidth (window_basewidth o - 1))) t1)).
  { split; [apply (parse_options_checked _ _ _ _ _ _ Hparse); reflexivity | ].
  pose proof (prepare_stderr program_name args) as Hstderr.
  rewrite main_trace.
  destruct (prepare program_name args) as [tp [pr | s | ]] eqn:Hp;
    cbn [trace outcome fst snd] in *.
  - destruct (prepare_inv _ _ _ _ Hp) as [[t0' Hparse'] _ (ta & tb & Hcheck & Htp) _].
    rewrite Hparse in Hparse'. injection Hparse' as _ Ho. subst o.
    apply check_sequences_inv in Hcheck as (_ & _ & s & _ & Hw).
    pose proof (check_windowing_even _ _ _ _ _ _ Hw) as Heven.
    apply check_windowing_inv in Hw as (K & _ & Hcases).
    pose proof (compute_and_report_computes_with pr) as Hrest.
    split.
    + rewrite base_widths_of_app, (base_widths_of_stderr tp Hstderr).
      cbn [app]. apply base_widths_of_computes_with in Hrest.
      eapply Forall_impl; [ | exact Hrest]. cbv beta. intros L' ->.
      split; [assumption | ].
      destruct Hcases as [(_ & [=] & _) | [(_ & Hr & _ & -> & _) | (_ & Hr & _ & -> & _)]].
      * now rewrite (odd_of_rem _ Hr).
      * apply even_of_rem in Hr. rewrite <- Z.negb_even, Hr. reflexivity.
    + intros Hodd t1 e t2 Heq He.
      destruct (stderr_prefix tp _ t1 e t2 Hstderr Heq) as [t1' ->].
      { now destruct e. }
      apply in_or_app. left. subst tp. apply in_or_app. right.
      destruct Hcases as [(_ & [=] & _) | [(_ & _ & _ & _ & ->) | (_ & Hr & _)]].
      * now left.
      * apply even_of_rem in Hr. rewrite <- Z.negb_even, Hr in Hodd. discriminate.
  - rewrite app_nil_r. split.
    + rewrite (base_widths_of_stderr tp Hstderr). constructor.
    + intros _ t1 e t2 Heq He. exfalso. rewrite Heq in Hstderr.
      apply Forall_app in Hstderr as [_ Hst]. inversion Hst as [ | ? ? He' _].
      unfold stderr_event in He'. destruct e; discriminate.
  - rewrite app_nil_r. split.
    + rewrite (base_widths_of_stderr tp Hstderr). constructor.
    + intros _ t1 e t2 Heq He. exfalso. rewrite Heq in Hstderr.
      apply Forall_app in Hstderr as [_ Hst]. inversion Hst as [ | ? ? He' _].
      unfold stderr_event in He'. destruct e; discriminate. }
  destruct Hold as (H1 & H2 & H3).
  split; [exact H1 | ]. split; [exact H2 | ]. split; [exact H3 | ].
  intros Hodd seqs s K Ha Hb Hs HK HK1.
  pose proof (parse_options_int _ _ _ _ _ Hparse) as (Hia & Hib & _).
  pose proof (parse_options_checked _ _ _ _ _ _ Hparse) as [_ Hpos].
  destruct (Hpos eq_refl) as (Hpa & Hpb & _).
  apply in_int_iff in Hia, Hib.
  assert (Hcheck :
    netOnZeroDXC_xc_check_sequences seqs (index_a o) (index_b o)
      (nr_window_widths o) (window_basewidth o) (apply_tau o)
    = ([EvStderr (MsgOddBaseWidth (window_basewidth o - 1))],
       Ret (0, window_basewidth o - 1))).
  { apply (check_sequences_odd seqs (index_a o) (index_b o) _ _ _ s K);
      trivial; lia. }
  split; [exact Hcheck | ].
  intros t1 e1 sa dv Hload H3' H5' Hsa Hdv.
  assert (Hp : prepare program_name args
               = (t0 ++ t1
                  ++ [EvStderr (MsgOddBaseWidth (window_basewidth o - 1))],
                  Ret (mkPrepared o 0 seqs (window_basewidth o - 1) dv))).
  { unfold prepare.
    rewrite (bind_Ret _ _ _ _ Hparse). cbn [negb Z.eqb trace outcome fst snd].
    rewrite (bind_Ret _ _ _ _ Hload). cbn [trace outcome fst snd].
    replace ((e1 =? 3) || (e1 =? 5)) with false
      by (symmetry; apply orb_false_iff; split; now apply Z.eqb_neq).
    rewrite (bind_Ret _ _ _ _ Hcheck). cbn [negb Z.eqb trace outcome fst snd].
    unfold INT_MAX in *.
    rewrite (to_size_t_small (index_a o - 1)) by lia.
    rewrite Hsa. cbn [of_option]. rewrite bind_ret_l.
    rewrite (bind_Ret _ _ _ _ Hdv). cbn [ret trace outcome fst snd].
    now rewrite !app_nil_r. }
  pose proof (compute_and_report_computes_with
                (mkPrepared o 0 seqs (window_basewidth o - 1) dv)) as Hall.
  pose proof (main_trace program_name args) as Htrace.
  rewrite Hp in Htrace. cbn [trace outcome fst snd] in Htrace.
  revert Hall Htrace. unfold compute_and_report at 1 2.
  rewrite trace_bind.
  cbn [emit trace outcome fst snd app pr_options pr_window_basewidth].
  intros Hall Htrace. inversion Hall as [ | c l _ Hrest]; subst.
  eexists. split; [ | exact Hrest].
  rewrite (run_eta (main program_name args)) at 1. rewrite Htrace.
  now rewrite <- !app_assoc.
Qed.

(** ** The run that only gives the correlation diagram *)







(** ** The position that the validation reads *)

(** C6: with both column numbers positive and at most the number of
    loaded sequences, the bounds check passes and the windowing check
    reads position [na] itself: one past the last sequence when [na] is
    the number of sequences (no defined result), and otherwise the
    sequence after the selected one, which is at position [na - 1]. *)
Theorem check_sequences_reads_position_na
    (seqs : sequences) (na nb W L tau : Z) :
  0 < na <= Z.of_nat (List.length seqs) ->
  0 < nb <= Z.of_nat (List.length seqs) ->
  Z.of_nat (List.length seqs) < 2 ^ 64 ->
  (na = Z.of_nat (List.length seqs) ->
   netOnZeroDXC_xc_check_sequences seqs na nb W L tau = ([], Undefined)) /\
  (na < Z.of_nat (List.length seqs) ->
   exists selected next,
     nth_error seqs (Z.to_nat (na - 1)) = Some selected /\
     nth_error seqs (S (Z.to_nat (na - 1))) = Some next /\
     netOnZeroDXC_xc_check_sequences seqs na nb W L tau
     = check_windowing (Z.of_nat (List.length next)) W L tau).
Proof.
  intros Hna Hnb Hsize.
  assert (Ea : to_size_t na = na) by (apply to_size_t_small; lia).
  assert (Eb : to_size_t nb = nb) by (apply to_size_t_small; lia).
  unfold netOnZeroDXC_xc_check_sequences. rewrite Ea, Eb.
  replace (Z.of_nat (List.length seqs) <? na) with false
    by (symmetry; apply Z.ltb_ge; lia).
  replace (Z.of_nat (List.length seqs) <? nb) with false
    by (symmetry; apply Z.ltb_ge; lia).
  cbn [orb]. split.
  - intros Hlast.
    replace (nth_error seqs (Z.to_nat na)) with (@None (list Q)); [reflexivity | ].
    symmetry. apply nth_error_None. lia.
  - intros Hin.
    destruct (nth_error seqs (Z.to_nat (na - 1))) as [selected | ] eqn:Esel;
      [ | apply nth_error_None in Esel; lia].
    destruct (nth_error seqs (Z.to_nat na)) as [next | ] eqn:Enext;
      [ | apply nth_error_None in Enext; lia].
    exists selected, next. split; [reflexivity | ]. split.
    + rewrite <- Enext. f_equal. lia.
    + cbn [of_option].
      exact (bind_ret_l next
               (fun s => check_windowing (Z.of_nat (List.length s)) W L tau)).
Qed.

(** ** The sizes that the validation lets through *)

(** For a sequence shorter than [L * W] the subtraction of line 324 wraps
    in [size_t], and the value compared with 1 is huge: the check lets
    every such geometry through. *)
Lemma expected_diagram_size_wraps n L W tau :
  0 < L <= INT_MAX -> 0 < W -> L * W <= INT_MAX -> tau <= INT_MAX ->
  0 <= n < L * W ->
  exists K, expected_diagram_size n L W tau = ([], Ret K) /\ 1 <= K.
Proof.
  intros HL HW HLW Htau Hn. unfold expected_diagram_size, int_mul, int_of.
  unfold INT_MAX in *.
  replace (in_int (L * W)) with true
    by (symmetry; apply in_int_iff; unfold INT_MIN, INT_MAX; lia).
  rewrite bind_ret_l.
  rewrite (to_size_t_small L) by lia.
  replace (L =? 0) with false by (symmetry; apply Z.eqb_neq; lia).
  rewrite (to_size_t_neg (n - L * W)) by lia.
  eexists. split; [reflexivity | ].
  assert (2 ^ 32 <= (n - L * W + 2 ^ 64) / L).
  { apply Z.div_le_lower_bound; [lia | ]. nia. }
  destruct (0 <? tau); lia.
Qed.

(** The failures that the two routines do report end the run with
    status 1, after messages only. *)
Lemma parse_options_rejects program_name args o0 t o1 :
  parse_loop program_name args o0 = (t, Ret o1) ->
  index_a (resolve_mode o1) <= 0 \/ index_b (resolve_mode o1) <= 0 \/
  nr_window_widths (resolve_mode o1) <= 0 \/
  window_basewidth (resolve_mode o1) <= 0 ->
  exists m,
    netOnZeroDXC_xc_parse_options program_name args o0
    = (t ++ [EvStderr m], Ret (1, resolve_mode o1)).
Proof.
  intros Hloop Hbad. unfold netOnZeroDXC_xc_parse_options.
  rewrite (bind_Ret _ _ _ _ Hloop).
  destruct (Z.leb_spec (index_a (resolve_mode o1)) 0) as [Ha | Ha];
    [eexists; reflexivity | ].
  destruct (Z.leb_spec (index_b (resolve_mode o1)) 0) as [Hb | Hb];
    [eexists; reflexivity | ].
  cbn [orb].
  destruct (Z.leb_spec (nr_window_widths (resolve_mode o1)) 0) as [Hw | Hw];
    [eexists; reflexivity | ].
  destruct (Z.leb_spec (window_basewidth (resolve_mode o1)) 0) as [Hl | Hl];
    [eexists; reflexivity | lia].
Qed.

Lemma check_sequences_rejects_columns seqs na nb W L tau :
  Z.of_nat (List.length seqs) < to_size_t na \/
  Z.of_nat (List.length seqs) < to_size_t nb ->
  netOnZeroDXC_xc_check_sequences seqs na nb W L tau
  = ([EvStderr MsgColumnsTooLarge], Ret (1, L)).
Proof.
  intros H. unfold netOnZeroDXC_xc_check_sequences.
  replace ((Z.of_nat (List.length seqs) <? to_size_t na)
           || (Z.of_nat (List.length seqs) <? to_size_t nb)) with true;
    [reflexivity | ].
  symmetry. apply orb_true_iff. rewrite !Z.ltb_lt. exact H.
Qed.

Lemma rejected_options_exit
    {alg : Algorithm} {io : InputOutput} {rt : Runtime}
    program_name args t0 e o :
  netOnZeroDXC_xc_parse_options program_name args initial_options
  = (t0, Ret (e, o)) ->
  e <> 0 ->
  main program_name args = (t0, Exit 1).
Proof.
  intros Hparse He. unfold main, prepare.
  rewrite (bind_Ret _ _ _ _ Hparse).
  replace (e =? 0) with false by (symmetry; now apply Z.eqb_neq).
  cbn. now rewrite app_nil_r.
Qed.

Lemma rejected_sequences_exit
    {alg : Algorithm} {io : InputOutput} {rt : Runtime}
    program_name args t0 o t1 e1 seqs t2 e2 L' :
  netOnZeroDXC_xc_parse_options program_name args initial_options
  = (t0, Ret (0, o)) ->
  load_sequences o = (t1, Ret (e1, seqs)) ->
  (e1 =? 3) || (e1 =? 5) = false ->
  netOnZeroDXC_xc_check_sequences seqs (index_a o) (index_b o)
    (nr_window_widths o) (window_basewidth o) (apply_tau o)
  = (t2, Ret (e2, L')) ->
  e2 <> 0 ->
  main program_name args = (t0 ++ t1 ++ t2, Exit 1).
Proof.
  intros Hparse Hload Hsizes Hcheck He. unfold main, prepare.
  rewrite (bind_Ret _ _ _ _ Hparse). cbn [negb Z.eqb trace outcome fst snd].
  rewrite (bind_Ret _ _ _ _ Hload). cbn [trace outcome fst snd].
  rewrite Hsizes.
  rewrite (bind_Ret _ _ _ _ Hcheck). cbn [trace outcome fst snd].
  replace (e2 =? 0) with false by (symmetry; now apply Z.eqb_neq).
  cbn. now rewrite !app_nil_r.
Qed.

(** C9, at a concrete input: two sequences of length 10 with [W = 3] and
    [L = 10].  The stated diagram size is [floor((10 - 30) / 10) = -2],
    which is less than 1, and the validation returns 0 with no message;
    the run of [main] then gets to the center loop, which has no defined
    end, instead of an exit with status 1. *)
Theorem negative_diagram_size_not_detected :
  stated_row_length 10 10 3 0 = -2 /\
  netOnZeroDXC_xc_check_sequences [repeat 1%Q 10; repeat 1%Q 10] 1 2 3 10 0
  = ([], Ret (0, 10)) /\
  forall (alg : Algorithm) (rt : Runtime),
    @main alg (Sample.two_columns 10) rt "netOnZeroDXC_diagram"
      ["-n"; "1"; "2"; "-W"; "3"; "-L"; "10"]%string
    = ([], Undefined).
Proof. repeat split. Qed.

(** ** The trial count that the parser lets through *)

(** C4, at a concrete input: with [-M 0] on a table of 100 rows and two
    columns, the options parse, the validation passes, no trial is run and
    the run ends with status 0 after the output of a p-value diagram of
    zeros. *)
Theorem zero_surrogates_accepted (alg : Algorithm) (rt : Runtime) :
  @main alg (Sample.two_columns 100) rt "netOnZeroDXC_diagram"
    (Sample.argv_sequential "0")
  = ([EvComputeCdiagram 0 1 10 3 false (-1);
      EvInitializeSurrogate 0; EvInitializeSurrogate 1;
      EvStdout (repeat (repeat 0%Q 8) 3) "009"%char],
     Ret 0).
Proof.
  unfold main. 
  replace (@prepare (Sample.two_columns 100) "netOnZeroDXC_diagram"
             (Sample.argv_sequential "0"))
    with (@nil event,
          Ret (mkPrepared
                 (mkOptions false false false true false 1 2 (-1) 3 10 0
                    EmptyString EmptyString "009"%char)
                 0 [repeat 1%Q 100; repeat 1%Q 100] 10 (repeat 0%Q 8)))
    by (vm_compute; reflexivity).
  rewrite (bind_Ret _ _ _ _ eq_refl). cbn [app].
  unfold compute_and_report, p_value_run.
  cbn [pr_options pr_error pr_loaded_sequences pr_window_basewidth
       pr_dummy_vector print_corr_diagram index_a index_b nr_window_widths
       apply_tau nr_surrogates enable_parallel_computing write_to_file
       separator_char selected_output_filename].
  destruct (netOnZeroDXC_initialize_surrogate_generation _ (1 - 1)) as [va fa].
  destruct (netOnZeroDXC_initialize_surrogate_generation _ (2 - 1)) as [vb fb].
  reflexivity.
Qed.

(** ** The seeds of the parallel mode *)

(** C2, at a concrete input: three trials in parallel mode on a team of
    one thread, which runs the iterations in order, with initial seed
    1000.  Trial 1 generates with seeds 1003 and 1004 and trial 2 with
    1008 and 1009, not with [1000 + 2*i] and [1000 + 2*i + 1]: line 160
    adds [2*i] to the shared running counter that line 162 has advanced. *)
Theorem parallel_seeds_follow_running_counter (alg : Algorithm) :
  seeds_of (trace (@main alg (Sample.two_columns 100) (Sample.one_thread 1000)
                     "netOnZeroDXC_diagram" (Sample.argv_parallel "3")))
  = [1000; 1001; 1003; 1004; 1008; 1009].
Proof.
  assert (Hp : @prepare (Sample.two_columns 100) "netOnZeroDXC_diagram"
                 (Sample.argv_parallel "3")
               = (@nil event,
                  Ret (mkPrepared
                         (mkOptions false false false true true 1 2 (-1) 3 10 3
                            EmptyString EmptyString "009"%char)
                         0 [repeat 1%Q 100; repeat 1%Q 100] 10 (repeat 0%Q 8))))
    by (vm_compute; reflexivity).
  rewrite (main_seeds _ _ _ _ Hp eq_refl), p_value_run_seeds.
  reflexivity.
Qed.

(** C3: in the loop of lines 152-171 the writes to shared variables other
    than the update of the p-value diagram in the critical section are the
    two writes to [seed], at lines 160 and 162, both outside the critical
    section; and an iteration leaves [seed] changed (here from 1000 to
    1001 in iteration 0). *)
Theorem seed_written_outside_critical_section :
  ParallelRegion.unprotected_shared_writes
  = [ParallelRegion.mkAccess 160 ParallelRegion.Writes ParallelRegion.Vseed false;
     ParallelRegion.mkAccess 162 ParallelRegion.Writes ParallelRegion.Vseed false]
  /\ ParallelRegion.shared ParallelRegion.Vseed = true
  /\ forall (alg : Algorithm) (seqs : sequences) (ia ib L W tau M : Z)
            (dv : list Q) (real : diagram) (va fa vb fb : list Q) (p : diagram),
       exists p',
         parallel_body seqs ia ib L W tau M dv real va fa vb fb 0 (1000, p)
         = (trial_events ia ib L W tau M 1000 1001, Ret (1001, p')).
Proof.
  split; [reflexivity | split; [reflexivity | ]].
  intros. eexists. reflexivity.
Qed.

(** ** The theorems at concrete inputs *)

(** Closed comparisons of integers and closed equations. *)
Ltac by_computation :=
  vm_compute; repeat split; first [reflexivity | discriminate | intro; discriminate].

Lemma sequential_seed_schedule_witness :
  @prepare (Sample.two_columns 100) "netOnZeroDXC_diagram"
    (Sample.argv_sequential "3") = ([], Ret Sample.prepared_sequential) /\
  seeds_of (trace (@main Sample.constant_kernels (Sample.two_columns 100)
                     (Sample.one_thread 1000) "netOnZeroDXC_diagram"
                     (Sample.argv_sequential "3")))
  = [1000; 1001; 1002; 1003; 1004; 1005].
Proof.
  assert (Hp : @prepare (Sample.two_columns 100) "netOnZeroDXC_diagram"
                 (Sample.argv_sequential "3")
               = ([], Ret Sample.prepared_sequential))
    by (vm_compute; reflexivity).
  split; [exact Hp | ].
  exact (proj1 (sequential_seed_schedule Sample.constant_kernels
                  (Sample.two_columns 100) (Sample.one_thread 1000)
                  "netOnZeroDXC_diagram" (Sample.argv_sequential "3")
                  [] Sample.prepared_sequential Hp eq_refl eq_refl)).
Defined.

Lemma odd_base_width_reduced_witness :
  netOnZeroDXC_xc_parse_options "netOnZeroDXC_diagram" Sample.argv_odd
    initial_options = ([], Ret (0, Sample.options_odd)) /\
  netOnZeroDXC_xc_check_sequences [repeat 1%Q 100; repeat 1%Q 100] 1 2 3 11 (-1)
  = ([EvStderr (MsgOddBaseWidth 10)], Ret (0, 10)) /\
  exists rest,
    @main Sample.constant_kernels (Sample.two_columns 100)
      (Sample.one_thread 1000) "netOnZeroDXC_diagram" Sample.argv_odd
    = ([] ++ []
       ++ EvStderr (MsgOddBaseWidth 10)
       :: EvComputeCdiagram 0 1 10 3 false (-1) :: rest,
       outcome (@main Sample.constant_kernels (Sample.two_columns 100)
                  (Sample.one_thread 1000) "netOnZeroDXC_diagram"
                  Sample.argv_odd)) /\
    Forall (computes_with 10) rest.
Proof.
  assert (Hparse :
    netOnZeroDXC_xc_parse_options "netOnZeroDXC_diagram" Sample.argv_odd
      initial_options = ([], Ret (0, Sample.options_odd)))
    by (vm_compute; reflexivity).
  split; [exact Hparse | ].
  destruct (odd_base_width_reduced Sample.constant_kernels
              (Sample.two_columns 100) (Sample.one_thread 1000)
              "netOnZeroDXC_diagram" Sample.argv_odd [] Sample.options_odd
              Hparse) as (_ & _ & _ & Hodd).
  destruct (Hodd eq_refl [repeat 1%Q 100; repeat 1%Q 100] (repeat 1%Q 100) 6
              ltac:(by_computation) ltac:(by_computation) eq_refl
              ltac:(vm_compute; reflexivity) ltac:(by_computation))
    as [Hcheck Hmain].
  split; [exact Hcheck | ].
  exact (Hmain [] 0 (repeat 1%Q 100) (repeat 0%Q 8)
           ltac:(vm_compute; reflexivity) ltac:(by_computation)
           ltac:(by_computation) eq_refl ltac:(vm_compute; reflexivity)).
Defined.

Lemma check_sequences_reads_position_na_witness :
  netOnZeroDXC_xc_check_sequences Sample.three_sequences 3 1 3 10 0
  = ([], Undefined) /\
  netOnZeroDXC_xc_check_sequences Sample.three_sequences 2 1 3 10 0
  = ([EvStderr MsgNegativeDiagramSize], Ret (1, 10)).
Proof.
  split.
  - apply (check_sequences_reads_position_na Sample.three_sequences 3 1 3 10 0);
      by_computation.
  - destruct (check_sequences_reads_position_na Sample.three_sequences 2 1 3 10 0
                ltac:(by_computation) ltac:(by_computation) ltac:(by_computation))
      as [_ H].
    assert (Hlt : 2 < Z.of_nat (List.length Sample.three_sequences))
      by reflexivity.
    destruct (H Hlt) as (selected & next & _ & Hnext & ->).
    injection Hnext as <-. reflexivity.
Defined.


(** * Further properties of the program *)

(** ** The option parser, option by option *)

(** One option of the loop of lines 242-287 that has been read to its
    end: the rest of the arguments is read next. *)
Ltac parse_branch IH Hrun :=
  match type of Hrun with
  | (if ?c then _ else _) = _ => destruct c eqn:?
  | match ?r with [] => _ | _ :: _ => _ end = _ =>
      destruct r; cbn [app] in *; [cbn in Hrun; discriminate Hrun | ]
  | bind (of_option ?x) _ = _ =>
      destruct x; cbn [of_option] in *;
      [rewrite bind_ret_l in Hrun; rewrite bind_ret_l
      | cbn in Hrun; discriminate Hrun]
  | parse_loop _ _ _ = _ => apply IH; [cbn [List.length]; lia | exact Hrun]
  end.

Lemma parse_loop_append (program_name : string) (args rest : list string)
    (o o1 : options) (t1 : list event) :
  parse_loop program_name args o = (t1, Ret o1) ->
  parse_loop program_name (args ++ rest) o
  = bind (t1, Ret o1) (parse_loop program_name rest).
Proof.
  remember (List.length args) as n eqn:Hn.
  revert args Hn o. induction n as [n IH] using lt_wf_ind. intros args Hn o Hrun.
  assert (IH' : forall args' o',
            (List.length args' < List.length args)%nat ->
            parse_loop program_name args' o' = (t1, Ret o1) ->
            parse_loop program_name (args' ++ rest) o'
            = bind (t1, Ret o1) (parse_loop program_name rest)).
  { intros args' o' Hlt Hrun'. eapply IH; [ | reflexivity | exact Hrun'].
    now subst n. }
  clear IH Hn.
  destruct args as [ | a r].
  - cbn in Hrun. injection Hrun as <- <-. cbn [app].
    symmetry. apply (bind_ret_l o (parse_loop program_name rest)).
  - cbn [parse_loop app] in *.
    repeat parse_branch IH' Hrun.
    cbn in Hrun. discriminate Hrun.
Qed.

(** X1: options are read from left to right.  When a list of arguments is
    read to its end (no option is cut off from its value, no help is asked
    for), reading it with more arguments behind is reading the list and
    then the rest, from the variables as the list has left them. *)
Theorem options_read_left_to_right
    (program_name : string) (args rest : list string) (o o1 : options) :
  outcome (parse_loop program_name args o) = Ret o1 ->
  parse_loop program_name (args ++ rest) o
  = bind (parse_loop program_name args o) (parse_loop program_name rest).
Proof.
  intros Hout.
  assert (Hrun : parse_loop program_name args o
                 = (trace (parse_loop program_name args o), Ret o1))
    by (rewrite <- Hout; apply run_eta).
  rewrite (parse_loop_append _ _ rest _ _ _ Hrun). now rewrite <- Hrun.
Qed.

Lemma parse_loop_Ret_silent program_name args o t o1 :
  parse_loop program_name args o = (t, Ret o1) -> t = [].
Proof.
  remember (List.length args) as n eqn:Hn.
  revert args Hn o. induction n as [n IH] using lt_wf_ind. intros args Hn o Hrun.
  assert (IH' : forall args' o',
            (List.length args' < List.length args)%nat ->
            parse_loop program_name args' o' = (t, Ret o1) -> t = []).
  { intros args' o' Hlt Hrun'. eapply IH; [ | reflexivity | exact Hrun'].
    now subst n. }
  clear IH Hn.
  destruct args as [ | a r].
  - cbn in Hrun. now injection Hrun as <- <-.
  - cbn [parse_loop] in Hrun.
    repeat match type of Hrun with
    | (if ?c then _ else _) = _ => destruct c eqn:?
    | match ?r with [] => _ | _ :: _ => _ end = _ =>
        destruct r; [cbn in Hrun; discriminate Hrun | ]
    | bind (of_option ?x) _ = _ =>
        destruct x; cbn [of_option] in Hrun;
        [rewrite bind_ret_l in Hrun | cbn in Hrun; discriminate Hrun]
    | parse_loop _ _ _ = _ =>
        eapply IH'; [ | exact Hrun]; cbn [List.length]; lia
    end.
    cbn in Hrun. discriminate Hrun.
Qed.

(** X2: the last numeric option wins.  After arguments that are read to
    their end, a further [-W], [-L], [-M] or [-tau] with a value that
    [atoi] reads as [v] sets that variable to [v], whatever the arguments
    before had set, and leaves the other variables as they were. *)
Theorem last_numeric_option_wins
    (program_name : string) (args : list string) (o o1 : options)
    (t : list event) (w : string) (v : Z) :
  parse_loop program_name args o = (t, Ret o1) ->
  atoi w = Some v ->
  parse_loop program_name (args ++ ["-W"; w]%string) o
  = ([], Ret (set_nr_window_widths v o1)) /\
  parse_loop program_name (args ++ ["-L"; w]%string) o
  = ([], Ret (set_window_basewidth v o1)) /\
  parse_loop program_name (args ++ ["-M"; w]%string) o
  = ([], Ret (set_nr_surrogates v o1)) /\
  parse_loop program_name (args ++ ["-tau"; w]%string) o
  = ([], Ret (set_apply_tau v o1)).
Proof.
  intros Hrun Hw.
  pose proof (parse_loop_Ret_silent _ _ _ _ _ Hrun) as ->.
  repeat split; rewrite (parse_loop_append _ _ _ _ _ _ Hrun);
    cbn; rewrite Hw; reflexivity.
Qed.

(** A variable keeps its value along the arguments when the option that
    sets it is not among them. *)
Ltac keeps_proof name :=
  intros program_name args;
  remember (List.length args) as n eqn:Hn;
  revert args Hn; induction n as [n IH] using lt_wf_ind; intros args Hn Hnot o;
  destruct args as [ | a rest]; [now apply run_inv_ret | ];
  cbn [parse_loop];
  repeat (run_step; try reflexivity; try exact I;
          try solve [exfalso; apply Hnot; left;
                     apply String.eqb_eq; assumption];
          try solve [eapply run_inv_weaken;
                     [eapply IH;
                      [ | reflexivity | intros Hin; apply Hnot; subst; cbn; tauto]
                     | trivial | cbv beta; intros ? ->; reflexivity];
                     subst; cbn; lia]).

Lemma parse_loop_without_n :
  forall program_name args, ~ In "-n"%string args ->
  forall o, run_inv (fun _ => True) (fun o' => index_a o' = index_a o)
              (parse_loop program_name args o).
Proof. keeps_proof "-n"%string. Qed.

Lemma parse_loop_without_W :
  forall program_name args, ~ In "-W"%string args ->
  forall o, run_inv (fun _ => True)
              (fun o' => nr_window_widths o' = nr_window_widths o)
              (parse_loop program_name args o).
Proof. keeps_proof "-W"%string. Qed.

Lemma parse_loop_without_L :
  forall program_name args, ~ In "-L"%string args ->
  forall o, run_inv (fun _ => True)
              (fun o' => window_basewidth o' = window_basewidth o)
              (parse_loop program_name args o).
Proof. keeps_proof "-L"%string. Qed.

(** ** What the parser lets through and what it stops *)

Lemma resolve_separator_cases c :
  resolve_separator c = " "%char \/ resolve_separator c = ","%char \/
  resolve_separator c = "009"%char.
Proof.
  unfold resolve_separator.
  destruct (Ascii.eqb c "s"); [now left | ].
  destruct (Ascii.eqb c "c"); [now right; left | now right; right].
Qed.

Lemma flags_from_step args args' o o' o1 :
  incl args' args ->
  (print_corr_diagram o = true -> print_corr_diagram o' = true) ->
  (compute_pvalue_diagram o = true -> compute_pvalue_diagram o' = true) ->
  (print_corr_diagram o' = true ->
   print_corr_diagram o = true \/ In "-C"%string args \/ In "-c"%string args) ->
  (compute_pvalue_diagram o' = true ->
   compute_pvalue_diagram o = true \/ In "-p"%string args) ->
  flags_from args' o' o1 -> flags_from args o o1.
Proof.
  intros Hincl Hp Hc Hp' Hc' (H1 & H2 & H3 & H4). repeat split.
  - auto.
  - auto.
  - intros H. destruct (H3 H) as [H' | [H' | H']]; auto.
  - intros H. destruct (H4 H) as [H' | H']; auto.
Qed.

Lemma parse_loop_flags program_name args :
  forall o, run_inv (fun _ => True) (flags_from args o)
              (parse_loop program_name args o).
Proof.
  remember (List.length args) as n eqn:Hn.
  revert args Hn. induction n as [n IH] using lt_wf_ind. intros args Hn o.
  assert (IH' : forall args' o', (List.length args' < List.length args)%nat ->
            run_inv (fun _ => True) (flags_from args' o')
              (parse_loop program_name args' o')).
  { intros args' o' Hlt. eapply IH; [ | reflexivity]. now subst n. }
  clear IH Hn.
  destruct args as [ | a rest];
    [apply run_inv_ret; unfold flags_from; tauto | ].
  cbn [parse_loop].
  repeat (run_step; try exact I;
          try solve
            [eapply run_inv_weaken;
             [apply IH'; subst; cbn [List.length]; lia
             | trivial
             | cbv beta; intros o1 Hflags;
               eapply flags_from_step; [ | | | | | exact Hflags];
               subst; cbn;
               try (intros x Hx; cbn; tauto); try tauto;
               repeat match goal with
               | H : (_ || _)%bool = true |- _ =>
                   apply orb_true_iff in H; destruct H
               | H : (_ =? _)%string = true |- _ =>
                   apply String.eqb_eq in H; subst
               end; cbn; tauto]]).
Qed.

(** X3: when the parser returns 0, exactly one of the two modes is
    selected, and which one is read off the arguments.  The correlation
    diagram is selected only when [-C] or [-c] is among the arguments and
    no [-p] stands at the position of an option; it is selected when [-C]
    or [-c] stands at the position of an option and [-p] is not among the
    arguments at all; and the p-value diagram is selected when [-p] stands
    at the position of an option, or when neither [-C] nor [-c] is among
    the arguments.  (An argument stands at the position of an option when
    the arguments before it are read to their end.)  The separator is a
    space, a comma or a tab, the two column numbers, [W] and [L] are
    positive, and every numeric variable holds an [int]. *)
Theorem parsed_options_are_consistent
    (program_name : string) (args : list string) (t : list event) (o : options) :
  netOnZeroDXC_xc_parse_options program_name args initial_options
  = (t, Ret (0, o)) ->
  compute_pvalue_diagram o = negb (print_corr_diagram o) /\
  (exists o1,
     parse_loop program_name args initial_options = ([], Ret o1) /\
     print_corr_diagram o
     = print_corr_diagram o1 && negb (compute_pvalue_diagram o1)) /\
  (print_corr_diagram o = true ->
   (In "-C"%string args \/ In "-c"%string args) /\
   forall pre rest o',
     args = pre ++ "-p"%string :: rest ->
     outcome (parse_loop program_name pre initial_options) <> Ret o') /\
  (forall pre c rest o',
     args = pre ++ c :: rest ->
     outcome (parse_loop program_name pre initial_options) = Ret o' ->
     (c = "-p"%string -> compute_pvalue_diagram o = true) /\
     (c = "-C"%string \/ c = "-c"%string -> ~ In "-p"%string args ->
      print_corr_diagram o = true)) /\
  (~ In "-C"%string args -> ~ In "-c"%string args ->
   compute_pvalue_diagram o = true) /\
  (separator_char o = " "%char \/ separator_char o = ","%char \/
   separator_char o = "009"%char) /\
  (0 < index_a o /\ 0 < index_b o /\ 0 < nr_window_widths o /\
   0 < window_basewidth o) /\
  int_options o.
Proof.
  intros Hparse.
  pose proof (parse_options_int _ _ _ _ _ Hparse) as Hint.
  pose proof (parse_options_checked _ _ _ _ _ _ Hparse) as [_ Hpos].
  specialize (Hpos eq_refl).
  unfold netOnZeroDXC_xc_parse_options in Hparse.
  apply bind_Ret_inv in Hparse as (t1 & o1 & t2 & Hloop & H & _).
  pose proof (parse_loop_Ret_silent _ _ _ _ _ Hloop) as ->.
  destruct (_ || _); [cbn in H; discriminate H | ].
  destruct (nr_window_widths (resolve_mode o1) <=? 0);
    [cbn in H; discriminate H | ].
  destruct (window_basewidth (resolve_mode o1) <=? 0);
    [cbn in H; discriminate H | ].
  cbn in H. injection H as _ <-.
  assert (Hmode : print_corr_diagram
                    (set_separator_char (resolve_separator (separator_char
                       (resolve_mode o1))) (resolve_mode o1))
                  = print_corr_diagram o1 && negb (compute_pvalue_diagram o1)).
  { unfold resolve_mode.
    destruct (compute_pvalue_diagram o1) eqn:E1,
             (print_corr_diagram o1) eqn:E2; cbn; rewrite ?E1, ?E2; reflexivity. }
  assert (Hone : compute_pvalue_diagram
                   (set_separator_char (resolve_separator (separator_char
                      (resolve_mode o1))) (resolve_mode o1))
                 = negb (print_corr_diagram
                           (set_separator_char (resolve_separator
                              (separator_char (resolve_mode o1)))
                              (resolve_mode o1)))).
  { unfold resolve_mode.
    destruct (compute_pvalue_diagram o1) eqn:E1,
             (print_corr_diagram o1) eqn:E2; cbn; rewrite ?E1, ?E2; reflexivity. }
  (* The flags after the loop, from the arguments. *)
  destruct (parse_loop_flags program_name args initial_options) as [_ Hflags].
  rewrite Hloop in Hflags. destruct (Hflags o1 eq_refl) as (_ & _ & HC & Hp).
  cbn [initial_options print_corr_diagram compute_pvalue_diagram] in HC, Hp.
  (* The flags after an argument at the position of an option. *)
  assert (Hat : forall pre c rest o',
            args = pre ++ c :: rest ->
            outcome (parse_loop program_name pre initial_options) = Ret o' ->
            (c = "-p"%string -> compute_pvalue_diagram o1 = true) /\
            (c = "-C"%string \/ c = "-c"%string ->
             print_corr_diagram o1 = true)).
  { intros pre c rest o' Hargs Hpre.
    assert (Hpre' : parse_loop program_name pre initial_options = ([], Ret o')).
    { destruct (parse_loop program_name pre initial_options) as [tq r] eqn:E.
      cbn in Hpre. subst r.
      now rewrite (parse_loop_Ret_silent _ _ _ _ _ E) in *. }
    pose proof (parse_loop_append _ _ (c :: rest) _ _ _ Hpre') as Happ.
    rewrite <- Hargs, Hloop in Happ.
    change (@pair (list event) (result options) [] (Ret o')) with (ret o')
      in Happ.
    rewrite bind_ret_l in Happ. symmetry in Happ.
    split.
    - intros ->. cbn in Happ.
      destruct (parse_loop_flags program_name rest
                  (set_compute_pvalue_diagram true o')) as [_ Hf].
      rewrite Happ in Hf. destruct (Hf o1 eq_refl) as (_ & Hkeep & _).
      now apply Hkeep.
    - intros Hc.
      assert (Happ' : parse_loop program_name rest
                        (set_print_corr_diagram true o') = ([], Ret o1))
        by (destruct Hc as [-> | ->]; exact Happ).
      destruct (parse_loop_flags program_name rest
                  (set_print_corr_diagram true o')) as [_ Hf].
      rewrite Happ' in Hf. destruct (Hf o1 eq_refl) as (Hkeep & _).
      now apply Hkeep. }
  split; [exact Hone | ].
  split; [exists o1; split; [assumption | exact Hmode] | ].
  split.
  { intros Hcorr. rewrite Hmode in Hcorr.
    apply andb_true_iff in Hcorr as [HC1 Hp1]. apply negb_true_iff in Hp1.
    split.
    - destruct (HC HC1) as [H | H]; [discriminate H | exact H].
    - intros pre rest o' Hargs Hpre.
      destruct (Hat pre "-p"%string rest o' Hargs Hpre) as [Hset _].
      rewrite (Hset eq_refl) in Hp1. discriminate Hp1. }
  split.
  { intros pre c rest o' Hargs Hpre.
    destruct (Hat pre c rest o' Hargs Hpre) as [Hset HsetC]. split.
    - intros Hc. rewrite Hone, Hmode, (Hset Hc). now rewrite andb_false_r.
    - intros Hc Hnop. rewrite Hmode, (HsetC Hc).
      destruct (compute_pvalue_diagram o1) eqn:E; [ | reflexivity].
      destruct (Hp eq_refl) as [H | H]; [discriminate H | contradiction]. }
  split.
  { intros HnC Hnc. rewrite Hone, Hmode.
    destruct (print_corr_diagram o1) eqn:E; [ | reflexivity].
    destruct (HC eq_refl) as [H | [H | H]];
      [discriminate H | contradiction | contradiction]. }
  split; [apply resolve_separator_cases | ].
  split; [exact Hpos | exact Hint].
Qed.

Section ParserAndMain.

Context {alg : Algorithm} {io : InputOutput} {rt : Runtime}.

(** A run whose options do not parse ends where the parser ends. *)
Lemma main_parse_loop_stops program_name args t :
  (forall s, parse_loop program_name args initial_options = (t, Exit s) ->
             main program_name args = (t, Exit s)) /\
  (parse_loop program_name args initial_options = (t, Undefined) ->
   main program_name args = (t, Undefined)).
Proof.
  split; [intros s H | intros H];
    unfold main, prepare, netOnZeroDXC_xc_parse_options; now rewrite H.
Qed.

(** The first of the three tests of lines 294-305 that fails gives the
    message, and the run ends with status 1. *)
Lemma rejected_options_run program_name args o1 :
  parse_loop program_name args initial_options = ([], Ret o1) ->
  index_a o1 <= 0 \/ index_b o1 <= 0 \/ nr_window_widths o1 <= 0 \/
  window_basewidth o1 <= 0 ->
  exists m,
    main program_name args = ([EvStderr m], Exit 1) /\
    (m = MsgColumnsNotSet program_name \/ m = MsgWidthsNotSet program_name \/
     m = MsgBaseWidthNotSet program_name).
Proof.
  intros Hloop Hbad.
  destruct (resolve_mode_numeric o1) as (Ea & Eb & _ & Ew & El & _).
  assert (Hparse : exists m,
    netOnZeroDXC_xc_parse_options program_name args initial_options
    = ([EvStderr m], Ret (1, resolve_mode o1)) /\
    (m = MsgColumnsNotSet program_name \/ m = MsgWidthsNotSet program_name \/
     m = MsgBaseWidthNotSet program_name)).
  { unfold netOnZeroDXC_xc_parse_options.
    rewrite (bind_Ret _ _ _ _ Hloop). cbn [app]. rewrite Ea, Eb, Ew, El.
    destruct (Z.leb_spec (index_a o1) 0);
      [eexists; split; [reflexivity | now left] | ].
    destruct (Z.leb_spec (index_b o1) 0);
      [eexists; split; [reflexivity | now left] | ].
    cbn [orb].
    destruct (Z.leb_spec (nr_window_widths o1) 0);
      [eexists; split; [reflexivity | now right; left] | ].
    destruct (Z.leb_spec (window_basewidth o1) 0);
      [eexists; split; [reflexivity | now right; right] | lia]. }
  destruct Hparse as (m & Hparse & Hm). exists m. split; [ | exact Hm].
  now apply (rejected_options_exit _ _ _ _ _ Hparse).
Qed.

(** X4: a column number, a number of widths or a base width that is not
    positive when the arguments have been read ends the run with status 1
    right after the message of the first test that fails: no sequence is
    loaded, no kernel is called, no table is output. *)
Theorem nonpositive_options_end_the_run
    (program_name : string) (args : list string) (o1 : options) :
  parse_loop program_name args initial_options = ([], Ret o1) ->
  index_a o1 <= 0 \/ index_b o1 <= 0 \/ nr_window_widths o1 <= 0 \/
  window_basewidth o1 <= 0 ->
  main program_name args
  = ([EvStderr (if (index_a o1 <=? 0) || (index_b o1 <=? 0)
                then MsgColumnsNotSet program_name
                else if nr_window_widths o1 <=? 0
                then MsgWidthsNotSet program_name
                else MsgBaseWidthNotSet program_name)],
     Exit 1).
Proof.
  intros Hloop Hbad.
  destruct (resolve_mode_numeric o1) as (Ea & Eb & _ & Ew & El & _).
  assert (Hparse :
    netOnZeroDXC_xc_parse_options program_name args initial_options
    = ([EvStderr (if (index_a o1 <=? 0) || (index_b o1 <=? 0)
                  then MsgColumnsNotSet program_name
                  else if nr_window_widths o1 <=? 0
                  then MsgWidthsNotSet program_name
                  else MsgBaseWidthNotSet program_name)],
       Ret (1, resolve_mode o1))).
  { unfold netOnZeroDXC_xc_parse_options.
    rewrite (bind_Ret _ _ _ _ Hloop). cbn [app]. rewrite Ea, Eb, Ew, El.
    destruct (Z.leb_spec (index_a o1) 0); cbn [orb]; [reflexivity | ].
    destruct (Z.leb_spec (index_b o1) 0); cbn [orb]; [reflexivity | ].
    destruct (Z.leb_spec (nr_window_widths o1) 0); [reflexivity | ].
    destruct (Z.leb_spec (window_basewidth o1) 0); [reflexivity | lia]. }
  now apply (rejected_options_exit _ _ _ _ _ Hparse).
Qed.

(** X5: the three mandatory options.  When [-n], [-W] or [-L] is not
    among the arguments, the run writes messages only and never reaches
    the end of [main]: the variable keeps its initial value -1 and the
    parser returns 1.  When the arguments are read to their end, the run
    is one message and the exit with status 1. *)
Theorem mandatory_options_missing
    (program_name : string) (args : list string) :
  ~ In "-n"%string args \/ ~ In "-W"%string args \/ ~ In "-L"%string args ->
  Forall stderr_event (trace (main program_name args)) /\
  (forall z, outcome (main program_name args) <> Ret z) /\
  (forall o1,
     outcome (parse_loop program_name args initial_options) = Ret o1 ->
     exists m, main program_name args = ([EvStderr m], Exit 1)).
Proof.
  intros Hmissing.
  pose proof (parse_loop_inv program_name args initial_options) as [Hst _].
  destruct (parse_loop program_name args initial_options) as [t [o1 | s | ]] eqn:E.
  - pose proof (parse_loop_Ret_silent _ _ _ _ _ E) as ->.
    assert (Hbad : index_a o1 <= 0 \/ index_b o1 <= 0 \/
                   nr_window_widths o1 <= 0 \/ window_basewidth o1 <= 0).
    { destruct Hmissing as [H | [H | H]].
      - left. destruct (parse_loop_without_n program_name args H initial_options)
          as [_ Hk]. rewrite E in Hk. rewrite (Hk o1 eq_refl). cbn. lia.
      - right; right; left.
        destruct (parse_loop_without_W program_name args H initial_options)
          as [_ Hk]. rewrite E in Hk. rewrite (Hk o1 eq_refl). cbn. lia.
      - right; right; right.
        destruct (parse_loop_without_L program_name args H initial_options)
          as [_ Hk]. rewrite E in Hk. rewrite (Hk o1 eq_refl). cbn. lia. }
    destruct (rejected_options_run program_name args o1 E Hbad) as (m & Hm & _).
    rewrite Hm. cbn. split; [now repeat constructor | ].
    split; [discriminate | ]. intros _ _. now exists m.
  - rewrite (proj1 (main_parse_loop_stops program_name args t) s E). cbn.
    split; [exact Hst | ]. split; discriminate.
  - rewrite (proj2 (main_parse_loop_stops program_name args t) E). cbn.
    split; [exact Hst | ]. split; discriminate.
Qed.

End ParserAndMain.

(** ** The table of the standard input, turned into sequences *)

Lemma mapM_length {A B} (f : A -> option B) l bs :
  mapM f l = Some bs -> List.length bs = List.length l.
Proof.
  revert bs. induction l as [ | a l IH]; cbn; intros bs.
  - now intros [= <-].
  - destruct (f a); [ | discriminate].
    destruct (mapM f l) as [bs' | ]; [ | discriminate].
    intros [= <-]. cbn. f_equal. now apply IH.
Qed.

Lemma mapM_nth_error {A B} (f : A -> option B) l bs :
  mapM f l = Some bs ->
  forall j a, nth_error l j = Some a ->
  exists b, nth_error bs j = Some b /\ f a = Some b.
Proof.
  revert bs. induction l as [ | a0 l IH]; cbn; intros bs H j a Hj.
  - destruct j; discriminate.
  - destruct (f a0) as [b0 | ] eqn:E0; [ | discriminate].
    destruct (mapM f l) as [bs' | ]; [ | discriminate].
    injection H as <-. destruct j as [ | j]; cbn in *.
    + injection Hj as <-. now exists b0.
    + now apply (IH bs' eq_refl).
Qed.

Lemma mapM_total {A B} (f : A -> option B) l :
  Forall (fun a => exists b, f a = Some b) l -> exists bs, mapM f l = Some bs.
Proof.
  induction 1 as [ | a l [b Hb] _ [bs IH]]; cbn.
  - now exists [].
  - rewrite Hb, IH. now eexists.
Qed.

Lemma transpose_table_columns_aux (row0 : list Q) (rows : list (list Q)) :
  Forall (fun row => (List.length row0 <= List.length row)%nat) rows ->
  exists seqs,
    transpose_table (row0 :: rows) = ([], Ret seqs) /\
    List.length seqs = List.length row0 /\
    Forall (fun s => List.length s = S (List.length rows)) seqs /\
    forall i j s row,
      nth_error seqs i = Some s -> nth_error (row0 :: rows) j = Some row ->
      nth_error s j = nth_error row i.
Proof.
  intros Hrows.
  assert (Hall : Forall (fun row => (List.length row0 <= List.length row)%nat)
                   (row0 :: rows)) by (constructor; [lia | assumption]).
  set (t := row0 :: rows) in *.
  assert (Hcols : Forall (fun i => exists col,
                     mapM (fun row => nth_error row i) t = Some col)
                    (seq 0 (List.length row0))).
  { apply Forall_forall. intros i Hi. apply in_seq in Hi.
    apply mapM_total. eapply Forall_impl; [ | exact Hall].
    cbv beta. intros row Hrow.
    destruct (nth_error row i) as [x | ] eqn:E; [now exists x | ].
    apply nth_error_None in E. lia. }
  destruct (mapM_total _ _ Hcols) as [seqs Hseqs].
  exists seqs. unfold transpose_table. subst t. cbv iota. rewrite Hseqs.
  split; [reflexivity | ].
  pose proof (mapM_length _ _ _ Hseqs) as Hlen. rewrite length_seq in Hlen.
  split; [exact Hlen | ].
  assert (Hcol : forall i s, nth_error seqs i = Some s ->
            mapM (fun row => nth_error row i) (row0 :: rows) = Some s).
  { intros i s Hs.
    assert (Hi : (i < List.length row0)%nat).
    { rewrite <- Hlen. apply nth_error_Some. now rewrite Hs. }
    destruct (mapM_nth_error _ _ _ Hseqs i i) as (col & Hcol & Hmap).
    { rewrite nth_error_nth' with (d := 0%nat) by (rewrite length_seq; lia).
      now rewrite seq_nth. }
    rewrite Hs in Hcol. injection Hcol as <-. exact Hmap. }
  split.
  - apply Forall_forall. intros s Hs. apply In_nth_error in Hs as [i Hi].
    apply Hcol in Hi. now apply mapM_length in Hi.
  - intros i j s row Hs Hrow. apply Hcol in Hs.
    destruct (mapM_nth_error _ _ _ Hs j row Hrow) as (x & Hx & Hx').
    now rewrite Hx, Hx'.
Qed.

(** X6: a table whose rows are all at least as long as its first row is
    turned into one sequence per entry of the first row, each as long as
    the table has rows, and entry [j] of sequence [i] is entry [i] of row
    [j]; what a row has beyond the length of the first row is left out. *)
Theorem transpose_table_columns (row0 : list Q) (rows : list (list Q)) :
  Forall (fun row => (List.length row0 <= List.length row)%nat) rows ->
  exists seqs,
    transpose_table (row0 :: rows) = ([], Ret seqs) /\
    List.length seqs = List.length row0 /\
    Forall (fun s => List.length s = S (List.length rows)) seqs /\
    forall i j s row,
      nth_error seqs i = Some s -> nth_error (row0 :: rows) j = Some row ->
      nth_error s j = nth_error row i.
Proof. exact (transpose_table_columns_aux row0 rows). Qed.

(** X7: the table is turned into sequences exactly when it has a row and
    no row is shorter than the first; an empty table, or a row shorter
    than the first one, leaves the run without a defined result (the loop
    of lines 90-96 reads past the end of the row). *)
Theorem transpose_table_defined (t : list (list Q)) :
  (exists seqs, transpose_table t = ([], Ret seqs)) <->
  (exists row0 rows,
     t = row0 :: rows /\
     Forall (fun row => (List.length row0 <= List.length row)%nat) rows).
Proof.
  split.
  - intros [seqs H]. destruct t as [ | row0 rows]; [discriminate H | ].
    exists row0, rows. split; [reflexivity | ].
    apply Forall_forall. intros row Hrow.
    destruct (Nat.le_gt_cases (List.length row0) (List.length row)) as [ | Hlt];
      [assumption | exfalso].
    unfold transpose_table in H.
    rewrite (mapM_fails _ _ (List.length row)) in H; [discriminate H | | ].
    + apply in_seq. lia.
    + apply (mapM_fails _ _ row); [now right | ].
      apply nth_error_None. lia.
  - intros (row0 & rows & -> & Hrows).
    destruct (transpose_table_columns_aux row0 rows Hrows) as [seqs H].
    now exists seqs.
Qed.

(** ** Loading and validation, seen from [main] *)

Section LoadingAndValidation.

Context {alg : Algorithm} {io : InputOutput} {rt : Runtime}.

(** X8: when the options parse, a file that cannot be read (code 2 of
    the loader) ends the run with its message and status 1, and so do
    sequences that the loader or the size check reports as inconsistent
    (codes 3 and 5), from a file or from the standard input; nothing is
    computed or output. *)
Theorem loading_failures_end_the_run
    (program_name : string) (args : list string)
    (t0 : list event) (o : options) :
  netOnZeroDXC_xc_parse_options program_name args initial_options
  = (t0, Ret (0, o)) ->
  (read_from_file o = true ->
   fst (netOnZeroDXC_load_single_file (selected_input_filename o)
          (separator_char o)) = 2 ->
   main program_name args
   = (t0 ++ [EvStderr (MsgCannotRead (selected_input_filename o))], Exit 1)) /\
  (forall t1 e1 seqs,
     load_sequences o = (t1, Ret (e1, seqs)) -> e1 = 3 \/ e1 = 5 ->
     main program_name args
     = (t0 ++ t1 ++ [EvStderr MsgInconsistentSizes], Exit 1)).
Proof.
  intros Hparse. split.
  - intros Hfile Hcode. unfold main, prepare.
    rewrite (bind_Ret _ _ _ _ Hparse). cbn [negb Z.eqb trace outcome fst snd].
    unfold load_sequences. rewrite Hfile.
    destruct (netOnZeroDXC_load_single_file _ _) as [e seqs].
    cbn [fst] in Hcode. subst e. reflexivity.
  - intros t1 e1 seqs Hload He. unfold main, prepare.
    rewrite (bind_Ret _ _ _ _ Hparse). cbn [negb Z.eqb trace outcome fst snd].
    rewrite (bind_Ret _ _ _ _ Hload). cbn [trace outcome fst snd].
    replace ((e1 =? 3) || (e1 =? 5)) with true
      by (destruct He as [-> | ->]; reflexivity).
    cbn. rewrite ?app_nil_r. reflexivity.
Qed.

(** X9: when the options parse and the sequences load, a column number
    above the number of loaded sequences ends the run with the message of
    line 320 and status 1, before any kernel is called. *)
Theorem columns_beyond_the_table_end_the_run
    (program_name : string) (args : list string)
    (t0 t1 : list event) (o : options) (e1 : Z) (seqs : sequences) :
  netOnZeroDXC_xc_parse_options program_name args initial_options
  = (t0, Ret (0, o)) ->
  load_sequences o = (t1, Ret (e1, seqs)) ->
  e1 <> 3 -> e1 <> 5 ->
  Z.of_nat (List.length seqs) < index_a o \/
  Z.of_nat (List.length seqs) < index_b o ->
  main program_name args
  = (t0 ++ t1 ++ [EvStderr MsgColumnsTooLarge], Exit 1).
Proof.
  intros Hparse Hload H3 H5 Hbig.
  pose proof (parse_options_int _ _ _ _ _ Hparse) as (Ha & Hb & _).
  pose proof (parse_options_checked _ _ _ _ _ _ Hparse) as [_ Hpos].
  destruct (Hpos eq_refl) as (Hpa & Hpb & _).
  apply in_int_iff in Ha, Hb. unfold INT_MAX in *.
  apply (rejected_sequences_exit program_name args t0 o t1 e1 seqs
           [EvStderr MsgColumnsTooLarge] 1 (window_basewidth o) Hparse Hload).
  - apply orb_false_iff. split; now apply Z.eqb_neq.
  - apply check_sequences_rejects_columns.
    rewrite !to_size_t_small by lia. exact Hbig.
  - discriminate.
Qed.

End LoadingAndValidation.

(** X10: what [netOnZeroDXC_xc_check_sequences] returns.  The code is 0
    or 1; with 1 the base width is as it was and the run has written one
    message; with 0 the base width is even, it is the one passed in or
    one less, and the only message there can be is the warning that names
    the new width. *)
Theorem check_sequences_returns
    (seqs : sequences) (na nb W L tau : Z) (t : list event) (e L' : Z) :
  netOnZeroDXC_xc_check_sequences seqs na nb W L tau = (t, Ret (e, L')) ->
  (e = 1 /\ L' = L /\
   (t = [EvStderr MsgColumnsTooLarge] \/ t = [EvStderr MsgNegativeDiagramSize]))
  \/
  (e = 0 /\ Z.even L' = true /\
   ((L' = L /\ t = []) \/
    (L' = L - 1 /\ t = [EvStderr (MsgOddBaseWidth L')]))).
Proof.
  unfold netOnZeroDXC_xc_check_sequences.
  destruct (_ || _).
  { cbn. intros [= <- <- <-]. left. auto. }
  intros H. apply bind_Ret_inv in H as (t1 & s & t2 & Hs & H & ->).
  apply of_option_inv in Hs as [_ ->]. cbn [app].
  pose proof H as Hw.
  apply check_windowing_inv in H as (K & _ & [H | [H | H]]).
  - destruct H as (_ & -> & -> & ->). left. auto.
  - destruct H as (_ & _ & -> & -> & ->). right.
    split; [reflexivity | ]. split; [ | now right].
    now apply check_windowing_even in Hw.
  - destruct H as (_ & _ & -> & -> & ->). right.
    split; [reflexivity | ]. split; [ | now left].
    now apply check_windowing_even in Hw.
Qed.

(** ** The help option and the exit statuses *)

(** Where the loop of the parser ends the run, it has written the usage
    text and the status is 0 (lines 283-285). *)
Lemma parse_loop_exit_help program_name args o t s :
  parse_loop program_name args o = (t, Exit s) ->
  t = [EvStderr (MsgHelp program_name)] /\ s = 0.
Proof.
  remember (List.length args) as n eqn:Hn.
  revert args Hn o. induction n as [n IH] using lt_wf_ind. intros args Hn o Hrun.
  assert (IH' : forall args' o',
            (List.length args' < List.length args)%nat ->
            parse_loop program_name args' o' = (t, Exit s) ->
            t = [EvStderr (MsgHelp program_name)] /\ s = 0).
  { intros args' o' Hlt Hrun'. eapply IH; [ | reflexivity | exact Hrun'].
    now subst n. }
  clear IH Hn.
  destruct args as [ | a r].
  - cbn in Hrun. discriminate Hrun.
  - cbn [parse_loop] in Hrun.
    repeat match type of Hrun with
    | (if ?c then _ else _) = _ => destruct c eqn:?
    | match ?r with [] => _ | _ :: _ => _ end = _ =>
        destruct r; [cbn in Hrun; discriminate Hrun | ]
    | bind (of_option ?x) _ = _ =>
        destruct x; cbn [of_option] in Hrun;
        [rewrite bind_ret_l in Hrun | cbn in Hrun; discriminate Hrun]
    | parse_loop _ _ _ = _ =>
        eapply IH'; [ | exact Hrun]; cbn [List.length]; lia
    end.
    cbn in Hrun. injection Hrun as <- <-. now split.
Qed.

Section HelpAndStatus.

Context {alg : Algorithm} {io : InputOutput} {rt : Runtime}.

(** X11: [-h] or [--help] at the position of an option, after options
    that have been read without a fault, ends the run with the usage text
    on the standard error and status 0, whatever the other arguments are:
    whether the mandatory options are there or not, and whatever follows
    on the command line. *)
Theorem help_ends_the_run
    (program_name : string) (args rest : list string) (h : string)
    (o1 : options) :
  outcome (parse_loop program_name args initial_options) = Ret o1 ->
  h = "-h"%string \/ h = "--help"%string ->
  main program_name (args ++ h :: rest)
  = ([EvStderr (MsgHelp program_name)], Exit 0).
Proof.
  intros Hargs Hh.
  assert (Hrun : parse_loop program_name args initial_options = ([], Ret o1)).
  { destruct (parse_loop program_name args initial_options) as [t r] eqn:E.
    cbn in Hargs. subst r.
    now rewrite (parse_loop_Ret_silent _ _ _ _ _ E) in *. }
  apply (proj1 (main_parse_loop_stops program_name (args ++ h :: rest) _)).
  rewrite (parse_loop_append _ _ _ _ _ _ Hrun).
  change (@pair (list event) (result options) [] (Ret o1)) with (ret o1).
  rewrite bind_ret_l.
  destruct Hh as [-> | ->]; reflexivity.
Qed.

Lemma output_table_no_exit (Q : Z -> Prop) o d error :
  exits_with Q (output_table o d error).
Proof.
  destruct (output_table_cases o d error) as [(e & error' & H & _) | H];
    rewrite H; intros s; discriminate.
Qed.

(** The trial loops do not end the run. *)
Lemma run_trials_no_exit (Q : Z -> Prop) seqs ia ib L W tau M dv real
    va fa vb fb par st :
  exits_with Q (run_trials seqs ia ib L W tau M dv real va fa vb fb par st).
Proof.
  unfold run_trials. destruct par.
  - generalize (omp_dispatch M). intros l. revert st.
    induction l as [ | i l IHl]; intros st; cbn [for_each];
      [apply exits_with_ret | ].
    apply exits_with_bind; [ | intros; apply IHl].
    destruct st as [seed p]. unfold parallel_body.
    apply exits_with_bind; [apply exits_with_int_of | intros two_i].
    intros s; discriminate.
  - generalize (iota M). intros l. revert st.
    induction l as [ | i l IHl]; intros st; cbn [for_each];
      [apply exits_with_ret | ].
    apply exits_with_bind; [ | intros; apply IHl].
    destruct st as [seed p]. intros s; discriminate.
Qed.

Lemma p_value_run_exit_status pr d :
  exits_with (fun s => s = 1) (p_value_run pr d).
Proof.
  unfold p_value_run.
  apply exits_with_bind; [apply exits_with_emit | intros _].
  destruct (netOnZeroDXC_initialize_surrogate_generation _ _) as [va fa].
  apply exits_with_bind; [apply exits_with_emit | intros _].
  destruct (netOnZeroDXC_initialize_surrogate_generation _ _) as [vb fb].
  apply exits_with_bind; [apply run_trials_no_exit | intros [seed p]].
  apply exits_with_bind; [apply output_table_no_exit | intros error].
  destruct (negb (error =? 0)); [ | apply exits_with_ret].
  apply exits_with_bind; [apply exits_with_emit | intros _].
  now apply exits_with_exit.
Qed.

Lemma compute_and_report_exit_status pr :
  exits_with (fun s => s = 1 \/
                       (s = 0 /\ print_corr_diagram (pr_options pr) = true))
    (compute_and_report pr).
Proof.
  unfold compute_and_report.
  apply exits_with_bind; [apply exits_with_emit | intros _].
  destruct (print_corr_diagram (pr_options pr)).
  - apply exits_with_bind; [apply output_table_no_exit | intros error].
    destruct (negb (error =? 0)); [ | apply exits_with_exit; now right].
    apply exits_with_bind; [apply exits_with_emit | intros _].
    apply exits_with_exit; now left.
  - intros s Hs. left. exact (p_value_run_exit_status _ _ s Hs).
Qed.

Lemma compute_and_report_returns pr z :
  outcome (compute_and_report pr) = Ret z ->
  z = 0 /\ print_corr_diagram (pr_options pr) = false.
Proof.
  unfold compute_and_report. rewrite outcome_bind. cbn [emit outcome snd].
  destruct (print_corr_diagram (pr_options pr)).
  - rewrite outcome_bind. destruct (outcome (output_table _ _ _)) as [e | s | ];
      try discriminate.
    destruct (negb (e =? 0)); discriminate.
  - unfold p_value_run. rewrite outcome_bind. cbn [emit outcome snd].
    destruct (netOnZeroDXC_initialize_surrogate_generation _ _) as [va fa].
    rewrite outcome_bind. cbn [emit outcome snd].
    destruct (netOnZeroDXC_initialize_surrogate_generation _ _) as [vb fb].
    rewrite outcome_bind.
    destruct (outcome (run_trials _ _ _ _ _ _ _ _ _ _ _ _ _ _ _))
      as [[seed p] | s | ]; try discriminate.
    rewrite outcome_bind. destruct (outcome (output_table _ _ _)) as [e | s | ];
      try discriminate.
    destruct (negb (e =? 0)); [discriminate | ].
    cbn. intros [= <-]. now split.
Qed.

(** Lines 70-117 end the run with the help text and status 0, or with
    status 1. *)
Lemma prepare_exits program_name args s :
  outcome (prepare program_name args) = Exit s ->
  (s = 0 /\ trace (prepare program_name args)
            = [EvStderr (MsgHelp program_name)]) \/ s = 1.
Proof.
  intros Hs.
  destruct (parse_loop program_name args initial_options) as [t r] eqn:E.
  destruct r as [o1 | s' | ].
  - right.
    assert (Hparse : exists t0 e o,
              netOnZeroDXC_xc_parse_options program_name args initial_options
              = (t0, Ret (e, o))).
    { unfold netOnZeroDXC_xc_parse_options. rewrite (bind_Ret _ _ _ _ E).
      repeat match goal with
      | |- context [if ?b then _ else _] => destruct b
      end; eexists; eexists; eexists; reflexivity. }
    destruct Hparse as (t0 & e & o & Hparse).
    exact (prepare_exit_status _ _ _ _ _ Hparse s Hs).
  - destruct (parse_loop_exit_help _ _ _ _ _ E) as [-> ->].
    unfold prepare, netOnZeroDXC_xc_parse_options in *. rewrite E in *.
    cbn in Hs. injection Hs as <-. now left.
  - unfold prepare, netOnZeroDXC_xc_parse_options in Hs. rewrite E in Hs.
    cbn in Hs. discriminate.
Qed.

(** X12: the statuses of a run.  [main] ends by [exit] with status 0 or
    1 only, and where it returns it returns 0; status 0 by [exit] is the
    help text or a run for the correlation diagram alone, and a return is
    a run for the p-value diagram. *)
Theorem main_statuses (program_name : string) (args : list string) :
  (forall s, outcome (main program_name args) = Exit s -> s = 0 \/ s = 1) /\
  (forall z, outcome (main program_name args) = Ret z -> z = 0) /\
  (outcome (main program_name args) = Exit 0 ->
   trace (main program_name args) = [EvStderr (MsgHelp program_name)] \/
   exists tp pr, prepare program_name args = (tp, Ret pr) /\
                 print_corr_diagram (pr_options pr) = true) /\
  (forall z, outcome (main program_name args) = Ret z ->
   exists tp pr, prepare program_name args = (tp, Ret pr) /\
                 print_corr_diagram (pr_options pr) = false).
Proof.
  pose proof (prepare_exits program_name args) as Hprep.
  rewrite main_outcome, main_trace.
  destruct (outcome (prepare program_name args)) as [pr | s' | ] eqn:E.
  - assert (Hp : prepare program_name args
                 = (trace (prepare program_name args), Ret pr))
      by (rewrite <- E; apply run_eta).
    repeat split.
    + intros s Hs.
      destruct (compute_and_report_exit_status pr s Hs) as [-> | [-> _]]; auto.
    + intros z Hz. now apply compute_and_report_returns in Hz.
    + intros H0. right. eexists. exists pr. split; [exact Hp | ].
      destruct (compute_and_report_exit_status pr 0 H0) as [H | [_ H]];
        [discriminate | exact H].
    + intros z Hz. eexists. exists pr. split; [exact Hp | ].
      now apply compute_and_report_returns in Hz.
  - repeat split; try discriminate.
    + intros s [= <-]. destruct (Hprep s' eq_refl) as [[-> _] | ->]; auto.
    + intros [= ->]. left. destruct (Hprep 0 eq_refl) as [[_ Ht] | Hs];
        [ | discriminate]. now rewrite Ht, app_nil_r.
  - repeat split; discriminate.
Qed.

End HelpAndStatus.

(** ** Sequences shorter than the largest window *)

(** X13: the validation lets every sequence shorter than [L * W] through.
    The subtraction of line 324 wraps in [size_t], so the test for a
    negative diagram size does not fire: [check_windowing] returns 0, with
    the warning for an odd base width as its only possible message. *)
Theorem short_sequences_pass_validation (n W L tau : Z) :
  0 < L -> 0 < W -> L * W <= INT_MAX -> tau <= INT_MAX ->
  0 <= n < L * W ->
  check_windowing n W L tau
  = if Z.even L then ([], Ret (0, L))
    else ([EvStderr (MsgOddBaseWidth (L - 1))], Ret (0, L - 1)).
Proof.
  intros HL HW HLW Htau Hn.
  assert (HL' : 0 < L <= INT_MAX) by nia.
  destruct (expected_diagram_size_wraps n L W tau HL' HW HLW Htau Hn)
    as (K & HK & H1).
  unfold check_windowing. rewrite (bind_Ret _ _ _ _ HK). cbn [app].
  replace (K <? 1) with false by (symmetry; apply Z.ltb_ge; lia).
  destruct (Z.eqb_spec (Z.rem L 2) 0) as [Hr | Hr]; cbn [negb].
  - now rewrite (even_of_rem L Hr).
  - rewrite <- Z.negb_odd, (odd_of_rem L Hr). reflexivity.
Qed.

(** X14: the center loop of lines 109-117 on a sequence shorter than
    [L * W + t], for an even base width ([t] is [tau] where it is
    positive and 0 otherwise).  Below [L * W / 2 + t] the bound of the
    loop wraps in [size_t] and the loop has no defined end, however many
    rounds it is given: [k] runs out of [int].  From there on the loop
    ends at once and the row of the diagrams is empty. *)
Theorem center_loop_on_short_sequences (n : nat) (W L tau : Z) :
  0 < W -> 0 < L -> Z.even L = true ->
  in_int (W * L) = true -> tau <= INT_MAX ->
  (Z.of_nat n < Z.quot (W * L) 2 + (if 0 <? tau then tau else 0) ->
   make_dummy_vector n W L tau = ([], Undefined) /\
   forall fuel t v,
     center_loop fuel (Z.quot (W * L) 2 - 1) L
       (to_size_t (Z.of_nat n - Z.quot (W * L) 2
                   - (if 0 <? tau then tau else 0))) []
     <> (t, Ret v)) /\
  (Z.quot (W * L) 2 + (if 0 <? tau then tau else 0) <= Z.of_nat n
   < W * L + (if 0 <? tau then tau else 0) ->
   make_dummy_vector n W L tau = ([], Ret [])).
Proof.
  intros HW HL Heven Hint Htau.
  apply in_int_iff in Hint. unfold INT_MIN, INT_MAX in *.
  apply Z.even_spec in Heven as [h Hh].
  assert (Hquot : Z.quot (W * L) 2 = h * W).
  { replace (W * L) with (h * W * 2) by lia. apply Z.quot_mul. lia. }
  rewrite Hquot.
  set (t := if 0 <? tau then tau else 0).
  assert (Ht : 0 <= t <= 2 ^ 31 - 1)
    by (subst t; destruct (Z.ltb_spec 0 tau); lia).
  assert (Hh0 : 0 < h) by lia.
  assert (HhW : 1 <= h * W <= 2 ^ 30) by nia.
  assert (Hbound : (if 0 <? tau then to_size_t (Z.of_nat n - h * W - tau)
                    else to_size_t (Z.of_nat n - h * W))
                   = to_size_t (Z.of_nat n - h * W - t)).
  { subst t. destruct (0 <? tau); f_equal; lia. }
  assert (Hrun : make_dummy_vector n W L tau
                 = center_loop (S n) (h * W - 1) L
                     (to_size_t (Z.of_nat n - h * W - t)) []).
  { unfold make_dummy_vector, int_mul, int_sub, int_of.
    replace (in_int (W * L)) with true
      by (symmetry; apply in_int_iff; unfold INT_MIN, INT_MAX; lia).
    rewrite bind_ret_l, Hquot.
    replace (in_int (h * W - 1)) with true
      by (symmetry; apply in_int_iff; unfold INT_MIN, INT_MAX; lia).
    now rewrite bind_ret_l, Hbound. }
  split.
  - intros Hshort.
    assert (Hnever : forall fuel t' v,
              center_loop fuel (h * W - 1) L
                (to_size_t (Z.of_nat n - h * W - t)) [] <> (t', Ret v)).
    { intros fuel t' v. rewrite to_size_t_neg by lia.
      apply center_loop_unbounded; unfold INT_MAX; lia. }
    split; [ | exact Hnever].
    rewrite Hrun.
    pose proof (center_loop_silent (S n) L
                  (to_size_t (Z.of_nat n - h * W - t)) (h * W - 1) []) as Hsil.
    pose proof (center_loop_no_exit (fun _ => False) (S n) L
                  (to_size_t (Z.of_nat n - h * W - t)) (h * W - 1) []) as Hexit.
    specialize (Hnever (S n)).
    destruct (center_loop (S n) (h * W - 1) L
                (to_size_t (Z.of_nat n - h * W - t)) []) as [t' [v | s | ]].
    + now contradiction (Hnever t' v).
    + now contradiction (Hexit s).
    + unfold silent in Hsil. cbn in Hsil. now subst t'.
  - intros Hn. rewrite Hrun. cbn [center_loop].
    rewrite !to_size_t_small by lia.
    replace (h * W - 1 <? Z.of_nat n - h * W - t) with false
      by (symmetry; apply Z.ltb_ge; lia).
    reflexivity.
Qed.

(** ** The base width 1 *)

(** With the base width 0 the center loop makes no round. *)
Lemma make_dummy_vector_zero_width n W tau :
  make_dummy_vector n W 0 tau = ([], Ret []).
Proof.
  unfold make_dummy_vector, int_mul, int_sub, int_of.
  rewrite Z.mul_0_r.
  replace (in_int 0) with true by reflexivity.
  rewrite bind_ret_l.
  replace (Z.quot 0 2) with 0 by reflexivity.
  replace (in_int (0 - 1)) with true by reflexivity.
  rewrite bind_ret_l.
  cbn [center_loop].
  match goal with |- context [to_size_t (0 - 1) <? ?b] =>
    replace (to_size_t (0 - 1) <? b) with false; [reflexivity | ]
  end.
  symmetry. apply Z.ltb_ge.
  replace (to_size_t (0 - 1)) with (2 ^ 64 - 1) by reflexivity.
  destruct (0 <? tau);
    match goal with |- to_size_t ?x <= _ =>
      pose proof (to_size_t_range x); lia
    end.
Qed.

Section BaseWidthOne.

Context {alg : Algorithm} {io : InputOutput} {rt : Runtime}.

(** What lines 99-117 have done when lines 70-117 have gone through. *)
Lemma prepare_dummy_vector program_name args t pr :
  prepare program_name args = (t, Ret pr) ->
  exists t2 s,
    netOnZeroDXC_xc_check_sequences (pr_loaded_sequences pr)
      (index_a (pr_options pr)) (index_b (pr_options pr))
      (nr_window_widths (pr_options pr)) (window_basewidth (pr_options pr))
      (apply_tau (pr_options pr))
    = (t2, Ret (0, pr_window_basewidth pr)) /\
    nth_error (pr_loaded_sequences pr)
      (Z.to_nat (to_size_t (index_a (pr_options pr) - 1))) = Some s /\
    make_dummy_vector (List.length s) (nr_window_widths (pr_options pr))
      (pr_window_basewidth pr) (apply_tau (pr_options pr))
    = ([], Ret (pr_dummy_vector pr)).
Proof.
  unfold prepare. intros H.
  apply bind_Ret_inv in H as (t0 & [e o] & t' & Hparse & H & ->).
  destruct (Z.eqb_spec e 0) as [-> | ]; cbn [negb] in H; [ | discriminate].
  apply bind_Ret_inv in H as (t1 & [e1 seqs] & t'' & Hload & H & ->).
  destruct (_ || _); [cbn in H; discriminate | ].
  apply bind_Ret_inv in H as (t2 & [e2 L'] & t3 & Hcheck & H & ->).
  destruct (Z.eqb_spec e2 0) as [-> | ]; cbn [negb] in H; [ | discriminate].
  apply bind_Ret_inv in H as (t4 & s & t5 & Hs & H & ->).
  apply of_option_inv in Hs as [Hs ->].
  apply bind_Ret_inv in H as (t6 & dv & t7 & Hdv & H & ->).
  injection H as <- <-.
  pose proof (make_dummy_vector_silent (List.length s) (nr_window_widths o) L'
                (apply_tau o)) as Hsil.
  unfold silent in Hsil. rewrite Hdv in Hsil. cbn in Hsil. subst t6.
  exists t2, s. cbn. auto.
Qed.

(** X15: the base width 1 passes the parser ([L > 0]), and the
    validation reduces it, being odd, to 0.  The center loop then starts
    at [k = -1], which is the largest [size_t] in the comparison of lines
    112 and 115, and so makes no round: the real diagram and every
    surrogate diagram have [W] empty rows, and each call of the diagram
    kernel gets the base width 0. *)
Theorem base_width_one_gives_empty_rows
    (program_name : string) (args : list string)
    (tp : list event) (pr : prepared) :
  prepare program_name args = (tp, Ret pr) ->
  window_basewidth (pr_options pr) = 1 ->
  pr_window_basewidth pr = 0 /\
  pr_dummy_vector pr = [] /\
  new_diagram (nr_window_widths (pr_options pr)) (pr_dummy_vector pr)
  = repeat [] (Z.to_nat (nr_window_widths (pr_options pr))) /\
  exists rest,
    main program_name args
    = (tp ++ EvComputeCdiagram (index_a (pr_options pr) - 1)
               (index_b (pr_options pr) - 1) 0
               (nr_window_widths (pr_options pr))
               (0 <? apply_tau (pr_options pr)) (apply_tau (pr_options pr))
             :: rest,
       outcome (main program_name args)) /\
    Forall (computes_with 0) rest.
Proof.
  intros Hp HL.
  destruct (prepare_dummy_vector _ _ _ _ Hp) as (t2 & s & Hcheck & _ & Hdv).
  rewrite HL in Hcheck.
  apply check_sequences_inv in Hcheck as (_ & _ & s' & _ & Hw).
  assert (HL' : pr_window_basewidth pr = 0).
  { apply check_windowing_inv in Hw as (K & _ & [H | [H | H]]).
    - now destruct H as (_ & [=] & _).
    - destruct H as (_ & _ & _ & -> & _). reflexivity.
    - destruct H as (_ & Hr & _). now cbn in Hr. }
  assert (Hempty : pr_dummy_vector pr = []).
  { rewrite HL', make_dummy_vector_zero_width in Hdv. now injection Hdv as <-. }
  split; [exact HL' | ]. split; [exact Hempty | ].
  split; [now rewrite Hempty | ].
  pose proof (compute_and_report_computes_with pr) as Hall.
  pose proof (main_trace program_name args) as Htrace.
  rewrite Hp in Htrace. cbn [trace outcome fst snd] in Htrace.
  revert Hall Htrace. unfold compute_and_report at 1 2.
  rewrite trace_bind. cbn [emit trace outcome fst snd app].
  rewrite HL'. intros Hall Htrace. inversion Hall as [ | e l _ Hrest]; subst.
  eexists. split; [ | exact Hrest].
  rewrite (run_eta (main program_name args)) at 1. now rewrite Htrace.
Qed.

End BaseWidthOne.

(** ** The events of a run, in their order *)

Section TrialLoops.

Context {alg : Algorithm} {io : InputOutput} {rt : Runtime}.

Variables (loaded_sequences : sequences) (index_a index_b : Z).
Variables (window_basewidth nr_window_widths apply_tau nr_surrogates : Z).
Variables (dummy_vector : list Q) (correlation_diagram_data : diagram).
Variables (values_distribution_a fft_amplitudes_a : list Q).
Variables (values_distribution_b fft_amplitudes_b : list Q).

Local Abbreviation events_of :=
  (trial_events index_a index_b window_basewidth nr_window_widths apply_tau
     nr_surrogates).

Local Abbreviation sequential := (sequential_body loaded_sequences index_a index_b
  window_basewidth nr_window_widths apply_tau nr_surrogates dummy_vector
  correlation_diagram_data values_distribution_a fft_amplitudes_a
  values_distribution_b fft_amplitudes_b).

Local Abbreviation parallel := (parallel_body loaded_sequences index_a index_b
  window_basewidth nr_window_widths apply_tau nr_surrogates dummy_vector
  correlation_diagram_data values_distribution_a fft_amplitudes_a
  values_distribution_b fft_amplitudes_b).

Local Abbreviation trial_value := (fun seed_a seed_b p =>
  netOnZeroDXC_update_pdiagram p correlation_diagram_data
    (netOnZeroDXC_compute_cdiagram
       (new_diagram nr_window_widths dummy_vector)
       [netOnZeroDXC_generate_surrogate_sequence loaded_sequences index_a
          values_distribution_a fft_amplitudes_a TOLERANCE_SURROGATES seed_a;
        netOnZeroDXC_generate_surrogate_sequence loaded_sequences index_b
          values_distribution_b fft_amplitudes_b TOLERANCE_SURROGATES seed_b]
       0 1 window_basewidth nr_window_widths (0 <? apply_tau) apply_tau)
    nr_window_widths nr_surrogates).

Lemma fold_left_shift {A} (f : A -> nat -> A) (n : nat) :
  forall a p,
    fold_left f (seq (S a) n) p = fold_left (fun q j => f q (S j)) (seq a n) p.
Proof.
  induction n as [ | n IH]; intros a p; [reflexivity | ].
  cbn [seq fold_left]. apply IH.
Qed.

Lemma fold_left_ext_all {A B} (f g : A -> B -> A) (l : list B) :
  (forall q j, f q j = g q j) ->
  forall p, fold_left f l p = fold_left g l p.
Proof.
  intros H. induction l as [ | b l IH]; intros p; [reflexivity | ].
  cbn [fold_left]. now rewrite H, IH.
Qed.

(** The sequential loop goes through all its trials, four events each,
    and leaves the p-value diagram that the aggregator has made of them,
    trial after trial. *)
Lemma sequential_result (l : list Z) :
  forall s p,
    for_each sequential l (to_uint s, p)
    = (flat_map (fun j => events_of (to_uint (s + 2 * Z.of_nat j))
                            (to_uint (s + 2 * Z.of_nat j + 1)))
                (seq 0 (List.length l)),
       Ret (to_uint (s + 2 * Z.of_nat (List.length l)),
            fold_left (fun q j => trial_value (to_uint (s + 2 * Z.of_nat j))
                                    (to_uint (s + 2 * Z.of_nat j + 1)) q)
                      (seq 0 (List.length l)) p)).
Proof.
  induction l as [ | i l IH]; intros s p; cbn [for_each].
  - cbn. now rewrite Z.add_0_r.
  - assert (Hbody : sequential i (to_uint s, p)
                    = (events_of (to_uint s) (to_uint (to_uint s + 1)),
                       Ret (to_uint (to_uint (to_uint s + 1) + 1),
                            trial_value (to_uint s) (to_uint (to_uint s + 1)) p)))
      by reflexivity.
    rewrite (bind_Ret _ _ _ _ Hbody).
    assert (Hnext : to_uint (to_uint (to_uint s + 1) + 1) = to_uint (s + 2)).
    { rewrite (to_uint_add_l s 1), (to_uint_add_l (s + 1) 1). f_equal. lia. }
    rewrite Hnext, IH. cbn [trace outcome fst snd].
    rewrite to_uint_add_l.
    cbn [List.length seq flat_map fold_left].
    replace (s + 2 * Z.of_nat 0) with s by lia.
    f_equal.
    + f_equal. rewrite <- seq_shift, flat_map_map.
      apply flat_map_ext. intros j.
      replace (s + 2 * Z.of_nat (S j)) with (s + 2 + 2 * Z.of_nat j) by lia.
      reflexivity.
    + f_equal. f_equal.
      * f_equal. lia.
      * rewrite fold_left_shift. apply fold_left_ext_all. intros q j.
        replace (s + 2 * Z.of_nat (S j)) with (s + 2 + 2 * Z.of_nat j) by lia.
        reflexivity.
Qed.

(** An iteration of the parallel loop whose [2 * i] is not an [int] value
    leaves the loop without a defined result. *)
Lemma parallel_overflow (l : list Z) (i : Z) :
  In i l -> in_int (2 * i) = false ->
  forall st, outcome (for_each parallel l st) = Undefined.
Proof.
  intros Hin Hi. induction l as [ | i' l IH]; [contradiction | ].
  intros st. cbn [for_each]. rewrite outcome_bind.
  destruct (outcome (parallel i' st)) as [st' | s | ] eqn:E.
  - destruct Hin as [-> | Hin]; [ | now apply IH].
    exfalso. destruct st as [seed p]. revert E.
    unfold parallel_body, int_mul, int_of. rewrite Hi. discriminate.
  - exfalso. destruct st as [seed p]. revert E.
    unfold parallel_body, int_mul, int_of.
    destruct (in_int (2 * i')); discriminate.
  - reflexivity.
Qed.

End TrialLoops.

Section RunEvents.

Context {alg : Algorithm} {io : InputOutput} {rt : Runtime}.

(** Lines 124-141 and 193-208 after a validation that has left [error]
    at 0: the table goes out in one event, and a message follows it only
    where the table went to a file and the save has failed. *)
Lemma report_cases (o : options) (d : diagram) (k : Run Z) :
  trace k = [] ->
  let m := (error <- output_table o d 0 ;;
            if negb (error =? 0) then
              emit (EvStderr (MsgWriteError (selected_output_filename o))) ;;;
              exit 1
            else k) in
  m = ([], Undefined) \/
  exists e, is_output e = true /\
    (m = ([e], outcome k) \/
     (write_to_file o = true /\
      e = EvSaveFile d (selected_output_filename o) (separator_char o) /\
      m = ([e; EvStderr (MsgWriteError (selected_output_filename o))], Exit 1))).
Proof.
  intros Hk m. subst m.
  destruct (output_table_cases o d 0) as [(e & error' & H & He & _ & Herr) | H].
  - right. exists e. split; [exact He | ].
    rewrite (bind_Ret _ _ _ _ H).
    destruct (negb (error' =? 0)) eqn:E.
    + right. unfold output_table in H.
      destruct (write_to_file o) eqn:Ew.
      * split; [reflexivity | ]. split; [ | reflexivity].
        cbn in H. now injection H as <- _.
      * rewrite (Herr eq_refl) in E. discriminate.
    + left. now rewrite Hk.
  - left. now rewrite H.
Qed.

(** X16: a run in sequential mode that gets past lines 70-117, event by
    event.  After the messages of lines 70-117 come the call of the
    diagram kernel on the two selected sequences, the two surrogate
    initializations, and then, for each of the [M] trials in turn, two
    generations with consecutive seeds, the call of the kernel on the
    surrogate pair (positions 0 and 1) and the update of the p-value
    diagram.  The table on the output is the p-value diagram that the
    aggregator has made of the [M] surrogate diagrams, trial after trial.
    It goes to the file, and [main] returns 0, or writes the message and
    ends with status 1 when the save reports an error; or its first [W]
    rows go to the standard output and [main] returns 0, when these rows
    are there and none is empty; the print loop reads them without a
    test, and the run has no defined result otherwise. *)
Theorem sequential_run_events
    (program_name : string) (args : list string)
    (tp : list event) (pr : prepared) :
  prepare program_name args = (tp, Ret pr) ->
  print_corr_diagram (pr_options pr) = false ->
  enable_parallel_computing (pr_options pr) = false ->
  (write_to_file (pr_options pr) = true ->
   main program_name args
   = (tp ++ sequential_events pr
      ++ [EvSaveFile (sequential_diagram pr)
            (selected_output_filename (pr_options pr))
            (separator_char (pr_options pr))]
      ++ (if netOnZeroDXC_save_single_file (sequential_diagram pr)
               (selected_output_filename (pr_options pr))
               (separator_char (pr_options pr)) =? 0
          then []
          else [EvStderr (MsgWriteError
                            (selected_output_filename (pr_options pr)))]),
      if netOnZeroDXC_save_single_file (sequential_diagram pr)
           (selected_output_filename (pr_options pr))
           (separator_char (pr_options pr)) =? 0
      then Ret 0 else Exit 1)) /\
  (write_to_file (pr_options pr) = false ->
   (printable (sequential_diagram pr) (nr_window_widths (pr_options pr)) = true ->
    main program_name args
    = (tp ++ sequential_events pr
       ++ [EvStdout (firstn (Z.to_nat (nr_window_widths (pr_options pr)))
                       (sequential_diagram pr))
             (separator_char (pr_options pr))],
       Ret 0)) /\
   (printable (sequential_diagram pr) (nr_window_widths (pr_options pr)) = false ->
    exists t,
      main program_name args = (tp ++ sequential_events pr ++ t, Undefined))).
Proof.
  intros Hp Hprint Hseq.
  destruct (prepare_inv _ _ _ _ Hp) as [_ Herr _ _].
  assert (Hmain : main program_name args
                  = (tp ++ trace (compute_and_report pr),
                     outcome (compute_and_report pr)))
    by (unfold main; apply (bind_Ret _ _ _ _ Hp)).
  pose (report :=
          error <- output_table (pr_options pr) (sequential_diagram pr) 0 ;;
          if negb (error =? 0) then
            emit (EvStderr (MsgWriteError
                              (selected_output_filename (pr_options pr)))) ;;;
            exit 1
          else ret 0).
  assert (Hreport :
    trace (compute_and_report pr) = sequential_events pr ++ trace report /\
    outcome (compute_and_report pr) = outcome report).
  { subst report. unfold compute_and_report. rewrite Hprint.
    fold (real_diagram pr). fold (real_diagram_call pr).
    rewrite trace_bind, outcome_bind. cbn [emit trace outcome fst snd app].
    unfold p_value_run. rewrite Herr, Hseq.
    unfold sequential_diagram, sequential_events, trial_diagram.
    rewrite trace_bind, outcome_bind. cbn [emit trace outcome fst snd app].
    destruct (netOnZeroDXC_initialize_surrogate_generation _
                (index_a (pr_options pr) - 1)) as [va fa].
    rewrite trace_bind, outcome_bind. cbn [emit trace outcome fst snd app].
    destruct (netOnZeroDXC_initialize_surrogate_generation _
                (index_b (pr_options pr) - 1)) as [vb fb].
    cbn [fst snd]. unfold run_trials.
    rewrite trace_bind, outcome_bind, sequential_result, iota_length.
    cbn [trace outcome fst snd]. split; reflexivity. }
  destruct Hreport as [Ht Ho]. rewrite Hmain, Ht, Ho. subst report.
  unfold output_table.
  split; intros Hw; rewrite Hw.
  - destruct (netOnZeroDXC_save_single_file _ _ _ =? 0) eqn:E;
      cbn; rewrite E; cbn; rewrite ?app_nil_r; reflexivity.
  - rewrite print_table_cases.
    fold (printable (sequential_diagram pr) (nr_window_widths (pr_options pr))).
    split; intros Hpr; rewrite Hpr.
    + reflexivity.
    + exists []. reflexivity.
Qed.

(** Two sums with the same [unsigned int] value have the same offset. *)
Lemma to_uint_add_inj c u v :
  0 <= u < 2 ^ 32 -> 0 <= v < 2 ^ 32 ->
  to_uint (c + u) = to_uint (c + v) -> u = v.
Proof.
  unfold to_uint. intros Hu Hv H.
  pose proof (Z.div_mod (c + u) (2 ^ 32) ltac:(lia)) as H1.
  pose proof (Z.div_mod (c + v) (2 ^ 32) ltac:(lia)) as H2.
  rewrite H in H1. lia.
Qed.

Lemma counter_seeds_nodup c (n : nat) :
  forall a : nat,
    2 * Z.of_nat (a + n) <= 2 ^ 32 ->
    NoDup (flat_map (fun j => [to_uint (c + 2 * Z.of_nat j);
                               to_uint (c + 2 * Z.of_nat j + 1)])
                    (seq a n)).
Proof.
  induction n as [ | n IH]; intros a Ha; cbn [seq flat_map app];
    [constructor | ].
  assert (Hrest : forall x, In x (flat_map
                     (fun j => [to_uint (c + 2 * Z.of_nat j);
                                to_uint (c + 2 * Z.of_nat j + 1)])
                     (seq (S a) n)) ->
            exists u, x = to_uint (c + u) /\
                      2 * Z.of_nat a + 2 <= u < 2 ^ 32).
  { intros x Hx. apply in_flat_map in Hx as (j & Hj & Hx).
    apply in_seq in Hj. destruct Hx as [<- | [<- | []]].
    - exists (2 * Z.of_nat j). split; [reflexivity | lia].
    - exists (2 * Z.of_nat j + 1). split; [f_equal; lia | lia]. }
  constructor; [ | constructor].
  - intros [H | H].
    + replace (c + 2 * Z.of_nat a + 1) with (c + (2 * Z.of_nat a + 1)) in H
        by lia.
      apply to_uint_add_inj in H; lia.
    + apply Hrest in H as (u & H & Hu). apply to_uint_add_inj in H; lia.
  - intros H. apply Hrest in H as (u & H & Hu).
    replace (c + 2 * Z.of_nat a + 1) with (c + (2 * Z.of_nat a + 1)) in H
      by lia.
    apply to_uint_add_inj in H; lia.
  - apply IH. lia.
Qed.

(** X17: in sequential mode no two surrogate generations of a run get
    the same seed, whatever [clock()] returns and however many trials are
    asked for: [M] is an [int], so that the [2 * M] steps of the counter
    do not come back to a value in [unsigned int]. *)
Theorem sequential_seeds_are_distinct
    (program_name : string) (args : list string)
    (tp : list event) (pr : prepared) :
  prepare program_name args = (tp, Ret pr) ->
  print_corr_diagram (pr_options pr) = false ->
  enable_parallel_computing (pr_options pr) = false ->
  NoDup (seeds_of (trace (main program_name args))) /\
  List.length (seeds_of (trace (main program_name args)))
  = (2 * Z.to_nat (nr_surrogates (pr_options pr)))%nat.
Proof.
  intros Hp Hprint Hseq.
  destruct (prepare_inv _ _ _ _ Hp) as [[t0 Hparse] _ _ _].
  pose proof (parse_options_int _ _ _ _ _ Hparse) as (_ & _ & _ & _ & _ & HM).
  apply in_int_iff in HM. unfold INT_MAX in HM.
  rewrite (main_seeds _ _ _ _ Hp Hprint).
  rewrite p_value_run_sequential_seeds by assumption.
  split.
  - apply counter_seeds_nodup. lia.
  - enough (H : forall n a,
              List.length
                (flat_map (fun j => [to_uint (clock + 2 * Z.of_nat j);
                                     to_uint (clock + 2 * Z.of_nat j + 1)])
                          (seq a n)) = (2 * n)%nat) by apply H.
    induction n as [ | n IH]; intros a; [reflexivity | ].
    cbn [seq flat_map app List.length]. rewrite IH. lia.
Qed.

(** X18: the seeds of the parallel mode when the iterations are run in
    their order, as a team of one thread does.  Trial [i] generates with
    [base + i*i + 2*i] and the value after it, in [unsigned int]
    arithmetic: line 160 adds [2*i] to the variable [seed] that the
    trials before have left advanced by [2*j + 1] each. *)
Theorem parallel_seeds_of_an_ordered_team
    (program_name : string) (args : list string)
    (tp : list event) (pr : prepared) :
  prepare program_name args = (tp, Ret pr) ->
  print_corr_diagram (pr_options pr) = false ->
  enable_parallel_computing (pr_options pr) = true ->
  omp_dispatch (nr_surrogates (pr_options pr))
  = iota (nr_surrogates (pr_options pr)) ->
  nr_surrogates (pr_options pr) <= 2 ^ 30 ->
  seeds_of (trace (main program_name args))
  = flat_map (fun i => [to_uint (clock + i * i + 2 * i);
                        to_uint (clock + i * i + 2 * i + 1)])
             (iota (nr_surrogates (pr_options pr))).
Proof.
  intros Hp Hprint Hpar Hteam HM.
  rewrite (main_seeds _ _ _ _ Hp Hprint), p_value_run_seeds.
  unfold run_trials. rewrite Hpar, Hteam. unfold iota.
  replace (to_uint clock)
    with (to_uint (clock + Z.of_nat 0 * Z.of_nat 0)) by (f_equal; lia).
  apply parallel_seeds_in_order. lia.
Qed.

(** X19: in parallel mode with more than [2^30] trials, the product
    [2*i] of line 160 runs out of [int] in the iteration [i = 2^30],
    which every schedule has to run: the run has no defined result, and
    no table is output. *)
Theorem parallel_trial_index_overflows
    (program_name : string) (args : list string)
    (tp : list event) (pr : prepared) :
  prepare program_name args = (tp, Ret pr) ->
  print_corr_diagram (pr_options pr) = false ->
  enable_parallel_computing (pr_options pr) = true ->
  2 ^ 30 < nr_surrogates (pr_options pr) ->
  outcome (main program_name args) = Undefined /\
  Forall (fun e => is_output e = false) (trace (main program_name args)).
Proof.
  intros Hp Hprint Hpar HM.
  assert (Hin : In (2 ^ 30) (omp_dispatch (nr_surrogates (pr_options pr)))).
  { apply (Permutation_in _ (Permutation_sym (omp_dispatch_perm _))).
    apply in_iota. lia. }
  rewrite main_outcome, main_trace, Hp. cbn [trace outcome fst snd].
  assert (Hprep : Forall (fun e => is_output e = false) tp).
  { pose proof (prepare_stderr program_name args) as Hst.
    rewrite Hp in Hst. cbn in Hst.
    eapply Forall_impl; [ | exact Hst]. now intros [ ]. }
  unfold compute_and_report. rewrite Hprint.
  rewrite trace_bind, outcome_bind. cbn [emit trace outcome fst snd app].
  unfold p_value_run. rewrite Hpar.
  rewrite trace_bind, outcome_bind. cbn [emit trace outcome fst snd app].
  destruct (netOnZeroDXC_initialize_surrogate_generation _
              (index_a (pr_options pr) - 1)) as [va fa].
  rewrite trace_bind, outcome_bind. cbn [emit trace outcome fst snd app].
  destruct (netOnZeroDXC_initialize_surrogate_generation _
              (index_b (pr_options pr) - 1)) as [vb fb].
  rewrite trace_bind, outcome_bind.
  match goal with
  | |- context [outcome (run_trials ?x1 ?x2 ?x3 ?x4 ?x5 ?x6 ?x7 ?x8 ?x9
                           ?x10 ?x11 ?x12 ?x13 true ?st)] =>
      assert (Hu : outcome (run_trials x1 x2 x3 x4 x5 x6 x7 x8 x9 x10 x11 x12
                              x13 true st) = Undefined)
        by exact (parallel_overflow x1 x2 x3 x4 x5 x6 x7 x8 x9 x10 x11 x12 x13
                    _ _ Hin eq_refl st);
      pose proof (run_trials_inv x1 x2 x3 x4 x5 x6 x7 x8 x9 x10 x11 x12 x13
                    (fun e => is_output e = false) (fun _ _ => True) true st)
        as [Hno _]
  end; auto.
  { intros. now repeat constructor. }
  rewrite Hu. split; [reflexivity | ].
  apply Forall_app. split; [exact Hprep | ].
  repeat (constructor; [reflexivity | ]).
  rewrite ?app_nil_r. exact Hno.
Qed.

(** Lines 118-210 after a validation that has left [error] at 0. *)
Lemma compute_and_report_shape pr :
  pr_error pr = 0 ->
  exists c mid tail,
    is_compute c = true /\
    trace (compute_and_report pr) = c :: mid ++ tail /\
    Forall (fun e => is_output e = false) mid /\
    ((tail = [] /\ outcome (compute_and_report pr) = Undefined) \/
     exists e, is_output e = true /\
       ((tail = [e] /\ (outcome (compute_and_report pr) = Exit 0 \/
                        outcome (compute_and_report pr) = Ret 0)) \/
        (tail = [e; EvStderr (MsgWriteError
                                (selected_output_filename (pr_options pr)))] /\
         (exists d f s, e = EvSaveFile d f s) /\
         outcome (compute_and_report pr) = Exit 1))).
Proof.
  intros Herr. unfold compute_and_report.
  rewrite trace_bind, outcome_bind. cbn [emit trace outcome fst snd app].
  eexists. rewrite Herr.
  destruct (print_corr_diagram (pr_options pr)).
  - exists []. cbn [app].
    match goal with
    | |- context [trace (bind (output_table ?o ?d 0) ?f)] =>
        destruct (report_cases o d (exit 0) eq_refl)
          as [H | (e & He & [H | (Hw & Hs & H)])];
        cbv zeta in H; rewrite H; cbn [trace outcome fst snd exit]
    end.
    + exists []. repeat split; auto.
    + exists [e]. repeat split; auto. right. exists e. split; [exact He | ].
      left. auto.
    + eexists. repeat split; auto. right. exists e. split; [exact He | ].
      right. repeat split. eauto.
  - unfold p_value_run. rewrite Herr.
    rewrite trace_bind, outcome_bind. cbn [emit trace outcome fst snd app].
    destruct (netOnZeroDXC_initialize_surrogate_generation _
                (index_a (pr_options pr) - 1)) as [va fa].
    rewrite trace_bind, outcome_bind. cbn [emit trace outcome fst snd app].
    destruct (netOnZeroDXC_initialize_surrogate_generation _
                (index_b (pr_options pr) - 1)) as [vb fb].
    rewrite trace_bind, outcome_bind.
    match goal with
    | |- context [outcome (run_trials ?x1 ?x2 ?x3 ?x4 ?x5 ?x6 ?x7 ?x8 ?x9
                             ?x10 ?x11 ?x12 ?x13 ?par ?st)] =>
        pose proof (run_trials_inv x1 x2 x3 x4 x5 x6 x7 x8 x9 x10 x11 x12 x13
                      (fun e => is_output e = false) (fun _ _ => True) par st)
          as [Hno _];
        [intros; now repeat constructor | auto | auto | ];
        pose proof (run_trials_no_exit (fun _ => False) x1 x2 x3 x4 x5 x6 x7
                      x8 x9 x10 x11 x12 x13 par st) as Hexit;
        set (trials := run_trials x1 x2 x3 x4 x5 x6 x7 x8 x9 x10 x11 x12 x13
                         par st) in *
    end.
    exists (EvInitializeSurrogate (index_a (pr_options pr) - 1)
            :: EvInitializeSurrogate (index_b (pr_options pr) - 1)
            :: trace trials).
    assert (Hmid : Forall (fun e => is_output e = false)
                     (EvInitializeSurrogate (index_a (pr_options pr) - 1)
                      :: EvInitializeSurrogate (index_b (pr_options pr) - 1)
                      :: trace trials))
      by (repeat (constructor; [reflexivity | ]); exact Hno).
    destruct (outcome trials) as [[seed p] | s | ] eqn:Et.
    + match goal with
      | |- context [trace (bind (output_table ?o ?d 0) ?f)] =>
          destruct (report_cases o d (ret 0) eq_refl)
            as [H | (e & He & [H | (Hw & Hs & H)])];
          cbv zeta in H; rewrite H; cbn [trace outcome fst snd ret]
      end.
      * exists []. repeat split; auto.
      * exists [e]. repeat split; auto. right. exists e. split; [exact He | ].
        left. auto.
      * eexists. repeat split; auto. right. exists e. split; [exact He | ].
        right. repeat split. eauto.
    + destruct (Hexit s Et).
    + exists []. repeat split; auto.
Qed.

(** X20: no run outputs more than one table, a table is output only
    after the diagram kernel has been called, and after the table nothing
    follows but the message for a failed save. *)
Theorem one_table_at_the_end (program_name : string) (args : list string) :
  exists before tail,
    trace (main program_name args) = before ++ tail /\
    Forall (fun e => is_output e = false) before /\
    (tail = [] \/
     exists e, is_output e = true /\
       Exists (fun c => is_compute c = true) before /\
       (tail = [e] \/ exists f, tail = [e; EvStderr (MsgWriteError f)])).
Proof.
  rewrite main_trace.
  assert (Hprep : Forall (fun e => is_output e = false)
                    (trace (prepare program_name args))).
  { eapply Forall_impl; [ | apply prepare_stderr]. now intros [ ]. }
  destruct (outcome (prepare program_name args)) as [pr | s | ] eqn:E.
  - assert (Hp : prepare program_name args
                 = (trace (prepare program_name args), Ret pr))
      by (rewrite <- E; apply run_eta).
    destruct (prepare_inv _ _ _ _ Hp) as [_ Herr _ _].
    destruct (compute_and_report_shape pr Herr)
      as (c & mid & tail & Hc & Ht & Hmid & Htail).
    exists (trace (prepare program_name args) ++ c :: mid), tail.
    rewrite Ht. split; [now rewrite <- app_assoc | ].
    split.
    { apply Forall_app. split; [exact Hprep | ].
      constructor; [now destruct c | exact Hmid]. }
    destruct Htail as [[-> _] | (e & He & Hcases)]; [now left | ].
    right. exists e. split; [exact He | ]. split.
    { apply Exists_app. right. now constructor. }
    destruct Hcases as [[-> _] | (-> & _)]; [now left | right; eauto].
  - exists (trace (prepare program_name args)), []. now repeat split; auto.
  - exists (trace (prepare program_name args)), []. now repeat split; auto.
Qed.

(** X21: a run that ends with status 1 has written no table to the
    standard output: where a table is printed, no test fails after it. *)
Theorem failed_run_prints_no_table (program_name : string) (args : list string) :
  outcome (main program_name args) = Exit 1 ->
  Forall (fun e => is_stdout e = false) (trace (main program_name args)).
Proof.
  rewrite main_trace, main_outcome.
  assert (Hprep : Forall (fun e => is_stdout e = false)
                    (trace (prepare program_name args))).
  { eapply Forall_impl; [ | apply prepare_stderr]. now intros [ ]. }
  destruct (outcome (prepare program_name args)) as [pr | s | ] eqn:E.
  - assert (Hp : prepare program_name args
                 = (trace (prepare program_name args), Ret pr))
      by (rewrite <- E; apply run_eta).
    destruct (prepare_inv _ _ _ _ Hp) as [_ Herr _ _].
    destruct (compute_and_report_shape pr Herr)
      as (c & mid & tail & Hc & Ht & Hmid & Htail).
    rewrite Ht. intros Hout. apply Forall_app. split; [exact Hprep | ].
    constructor; [now destruct c | ].
    apply Forall_app. split.
    { eapply Forall_impl; [ | exact Hmid]. now intros [ ]. }
    destruct Htail as [[-> _] | (e & He & [[_ [H | H]] | (-> & Hs & _)])].
    + constructor.
    + rewrite H in Hout. discriminate Hout.
    + rewrite H in Hout. discriminate Hout.
    + destruct Hs as (d & f & s & ->). now repeat constructor.
  - intros _. now rewrite app_nil_r.
  - discriminate.
Qed.

End RunEvents.

(** ** Command lines and tables that the program cannot read *)

Section Unreadable.

Context {alg : Algorithm} {io : InputOutput} {rt : Runtime}.

(** X22: an option that takes a value, given as the last argument
    without one.  The parser reads [argv[argc]], the null pointer, as the
    value ([atoi], the assignment to a [std::string], or the first
    character): the run has no defined behaviour, and writes nothing
    before.  The same holds for [-n] with only one of its two values. *)
Theorem option_without_value
    (program_name : string) (args : list string) (o1 : options)
    (opt x : string) :
  outcome (parse_loop program_name args initial_options) = Ret o1 ->
  In opt ["-n"; "-i"; "-o"; "-s"; "-W"; "-L"; "-M"; "-tau"]%string ->
  main program_name (args ++ [opt]) = ([], Undefined) /\
  main program_name (args ++ ["-n"%string; x]) = ([], Undefined).
Proof.
  intros Hargs Hopt.
  assert (Hrun : parse_loop program_name args initial_options = ([], Ret o1)).
  { destruct (parse_loop program_name args initial_options) as [t r] eqn:E.
    cbn in Hargs. subst r.
    now rewrite (parse_loop_Ret_silent _ _ _ _ _ E) in *. }
  split.
  - apply (proj2 (main_parse_loop_stops program_name (args ++ [opt]) _)).
    rewrite (parse_loop_append _ _ _ _ _ _ Hrun).
    change (@pair (list event) (result options) [] (Ret o1)) with (ret o1).
    rewrite bind_ret_l.
    cbn in Hopt.
    repeat (destruct Hopt as [<- | Hopt]; [reflexivity | ]).
    contradiction.
  - apply (proj2 (main_parse_loop_stops program_name (args ++ ["-n"%string; x]) _)).
    rewrite (parse_loop_append _ _ _ _ _ _ Hrun).
    change (@pair (list event) (result options) [] (Ret o1)) with (ret o1).
    rewrite bind_ret_l. reflexivity.
Qed.

(** X23: a table on the standard input that is empty, or that has a row
    shorter than its first row.  Lines 90 and 93 read [temp_data_table[0]]
    and [temp_data_table[j][i]] without a test, so that the run has no defined
    behaviour; nothing has been written but the messages of the parser. *)
Theorem empty_or_ragged_input
    (program_name : string) (args : list string)
    (t0 : list event) (o : options) :
  netOnZeroDXC_xc_parse_options program_name args initial_options
  = (t0, Ret (0, o)) ->
  read_from_file o = false ->
  netOnZeroDXC_load_stdin (separator_char o) = [] \/
  (exists row0 rows row,
     netOnZeroDXC_load_stdin (separator_char o) = row0 :: rows /\
     In row rows /\ (List.length row < List.length row0)%nat) ->
  main program_name args = (t0, Undefined).
Proof.
  intros Hparse Hstdin Htable.
  assert (Hload : load_sequences o = ([], Undefined)).
  { unfold load_sequences. rewrite Hstdin.
    destruct Htable as [-> | (row0 & rows & row & -> & Hin & Hlen)];
      [reflexivity | ].
    unfold transpose_table.
    rewrite (mapM_fails _ (seq 0 (List.length row0)) (List.length row));
      [reflexivity | apply in_seq; lia | ].
    apply (mapM_fails _ (row0 :: rows) row); [now right | ].
    now apply nth_error_None. }
  unfold main, prepare.
  rewrite (bind_Ret _ _ _ _ Hparse). cbn [negb Z.eqb trace outcome fst snd].
  rewrite Hload. cbn. now rewrite ?app_nil_r.
Qed.

End Unreadable.

(** ** The table on the standard output *)

Lemma print_rows_seq (d : diagram) (n : nat) :
  forall a, (a <= List.length d)%nat ->
  (snd (print_rows d (seq a n)) = true ->
   fst (print_rows d (seq a n)) = firstn n (skipn a d) /\
   (a + n <= List.length d)%nat /\
   Forall (fun row => row <> []) (firstn n (skipn a d))) /\
  (snd (print_rows d (seq a n)) = false ->
   exists k, (k < n)%nat /\
     fst (print_rows d (seq a n)) = firstn k (skipn a d) /\
     Forall (fun row => row <> []) (firstn k (skipn a d)) /\
     (nth_error d (a + k) = None \/ nth_error d (a + k) = Some [])).
Proof.
  induction n as [ | n IH]; intros a Ha; cbn [seq print_rows].
  - split; [ | discriminate]. intros _. cbn. repeat split; [lia | constructor].
  - destruct (nth_error d a) as [[ | c row] | ] eqn:E.
    + split; [discriminate | ]. intros _. exists 0%nat.
      rewrite Nat.add_0_r. repeat split; [lia | constructor | now right].
    + assert (Hlt : (a < List.length d)%nat)
        by (apply nth_error_Some; rewrite E; discriminate).
      rewrite (skipn_nth_error d a _ E).
      destruct (IH (S a) ltac:(lia)) as [Hthrough Hstop].
      destruct (print_rows d (seq (S a) n)) as [written through].
      cbn [fst snd] in *. split.
      * intros ->. destruct (Hthrough eq_refl) as (-> & Hlen & Hall).
        cbn [firstn]. repeat split; [lia | ].
        constructor; [discriminate | exact Hall].
      * intros ->. destruct (Hstop eq_refl) as (k & Hk & -> & Hall & Hbad).
        exists (S k). cbn [firstn]. repeat split; [lia | | ].
        -- constructor; [discriminate | exact Hall].
        -- now rewrite Nat.add_succ_r.
    + split; [discriminate | ]. intros _. exists 0%nat.
      rewrite Nat.add_0_r. repeat split; [lia | constructor | now left].
Qed.

(** X24: the print loop of lines 128-134 and 197-203, row by row.  The
    loop goes through exactly when the diagram has at least [W] rows and
    none of the first [W] is empty; the rows written are then the first
    [W] rows, whatever the kernel has left behind them, and they are the
    table of the output event of the run.  Otherwise the loop stops at
    the first row [k < W] that is missing or empty, with the rows
    [0 .. k-1] written, and the run has no defined result. *)
Theorem print_table_first_rows (d : diagram) (W : Z) (sep : ascii) :
  snd (print_rows d (seq 0 (Z.to_nat W))) = printable d W /\
  (printable d W = true ->
   print_rows d (seq 0 (Z.to_nat W)) = (firstn (Z.to_nat W) d, true) /\
   print_table d W sep = ([EvStdout (firstn (Z.to_nat W) d) sep], Ret tt)) /\
  (printable d W = false ->
   exists k, (k < Z.to_nat W)%nat /\
     print_rows d (seq 0 (Z.to_nat W)) = (firstn k d, false) /\
     Forall (fun row => row <> []) (firstn k d) /\
     (nth_error d k = None \/ nth_error d k = Some []) /\
     outcome (print_table d W sep) = Undefined).
Proof.
  destruct (print_rows_seq d (Z.to_nat W) 0 ltac:(lia)) as [Hthrough Hstop].
  cbn [skipn Nat.add] in *.
  assert (Hsame : snd (print_rows d (seq 0 (Z.to_nat W))) = printable d W).
  { unfold printable.
    destruct (snd (print_rows d (seq 0 (Z.to_nat W)))) eqn:E.
    - destruct (Hthrough eq_refl) as (_ & Hlen & Hall). symmetry.
      apply andb_true_iff. split; [apply Nat.leb_le; lia | ].
      apply forallb_forall. intros row Hrow.
      rewrite Forall_forall in Hall. specialize (Hall row Hrow).
      destruct row; [contradiction | reflexivity].
    - destruct (Hstop eq_refl) as (k & Hk & _ & _ & Hbad). symmetry.
      apply andb_false_iff.
      destruct (Nat.leb_spec (Z.to_nat W) (List.length d)) as [Hle | Hgt];
        [right | now left].
      destruct Hbad as [Hnone | Hempty];
        [apply nth_error_None in Hnone; lia | ].
      apply not_true_is_false. intros Hall.
      rewrite forallb_forall in Hall.
      assert (Hin : In (@nil Q) (firstn (Z.to_nat W) d)).
      { apply (nth_error_In _ k). rewrite nth_error_firstn.
        destruct (Nat.ltb_spec k (Z.to_nat W)); [exact Hempty | lia]. }
      specialize (Hall [] Hin). discriminate Hall. }
  split; [exact Hsame | ].
  rewrite print_table_cases. fold (printable d W).
  rewrite <- Hsame.
  split; intros Hpr; rewrite Hpr.
  - destruct (Hthrough Hpr) as (Hrows & _). split; [ | reflexivity].
    rewrite (surjective_pairing (print_rows d (seq 0 (Z.to_nat W)))).
    now rewrite Hrows, Hpr.
  - destruct (Hstop Hpr) as (k & Hk & Hrows & Hall & Hbad).
    exists k. split; [exact Hk | ]. split; [ | now repeat split].
    rewrite (surjective_pairing (print_rows d (seq 0 (Z.to_nat W)))).
    now rewrite Hrows, Hpr.
Qed.

(** ** The further properties at concrete inputs *)

Lemma options_read_left_to_right_witness :
  parse_loop "netOnZeroDXC_diagram"
    (["-n"; "1"; "2"]%string ++ ["-W"; "3"]%string)%list initial_options
  = bind (parse_loop "netOnZeroDXC_diagram" ["-n"; "1"; "2"]%string
            initial_options)
         (parse_loop "netOnZeroDXC_diagram" ["-W"; "3"]%string).
Proof.
  apply (options_read_left_to_right "netOnZeroDXC_diagram"
           ["-n"; "1"; "2"]%string ["-W"; "3"]%string initial_options
           (set_index_b 2 (set_index_a 1 initial_options))).
  vm_compute. reflexivity.
Defined.

Lemma last_numeric_option_wins_witness :
  atoi "7" = Some 7 /\
  parse_loop "netOnZeroDXC_diagram" (["-W"; "3"]%string ++ ["-W"; "7"]%string)%list
    initial_options
  = ([], Ret (set_nr_window_widths 7 (set_nr_window_widths 3 initial_options))).
Proof.
  split; [vm_compute; reflexivity | ].
  exact (proj1 (last_numeric_option_wins "netOnZeroDXC_diagram"
                  ["-W"; "3"]%string initial_options
                  (set_nr_window_widths 3 initial_options) [] "7" 7
                  ltac:(vm_compute; reflexivity)
                  ltac:(vm_compute; reflexivity))).
Defined.

Lemma parsed_options_are_consistent_witness :
  netOnZeroDXC_xc_parse_options "netOnZeroDXC_diagram"
    ["-n"; "1"; "2"; "-W"; "3"; "-L"; "10"; "-C"; "-p"; "-s"; "c"]%string
    initial_options
  = ([], Ret (0, mkOptions false false false true false 1 2 (-1) 3 10 100
                   EmptyString EmptyString ","%char)) /\
  compute_pvalue_diagram
    (mkOptions false false false true false 1 2 (-1) 3 10 100
       EmptyString EmptyString ","%char) = true /\
  netOnZeroDXC_xc_parse_options "netOnZeroDXC_diagram" Sample.argv_correlation
    initial_options = ([], Ret (0, Sample.options_correlation)) /\
  print_corr_diagram Sample.options_correlation = true.
Proof.
  assert (Hparse :
    netOnZeroDXC_xc_parse_options "netOnZeroDXC_diagram"
      ["-n"; "1"; "2"; "-W"; "3"; "-L"; "10"; "-C"; "-p"; "-s"; "c"]%string
      initial_options
    = ([], Ret (0, mkOptions false false false true false 1 2 (-1) 3 10 100
                     EmptyString EmptyString ","%char)))
    by (vm_compute; reflexivity).
  assert (Hcorr :
    netOnZeroDXC_xc_parse_options "netOnZeroDXC_diagram"
      Sample.argv_correlation initial_options
    = ([], Ret (0, Sample.options_correlation)))
    by (vm_compute; reflexivity).
  split; [exact Hparse | ]. split.
  - destruct (parsed_options_are_consistent _ _ _ _ Hparse)
      as (_ & _ & _ & Hat & _).
    exact (proj1 (Hat ["-n"; "1"; "2"; "-W"; "3"; "-L"; "10"; "-C"]%string
                    "-p"%string ["-s"; "c"]%string
                    (set_print_corr_diagram true
                       (set_window_basewidth 10
                          (set_nr_window_widths 3
                             (set_index_b 2 (set_index_a 1 initial_options)))))
                    eq_refl ltac:(vm_compute; reflexivity))
             eq_refl).
  - split; [exact Hcorr | ].
    destruct (parsed_options_are_consistent _ _ _ _ Hcorr)
      as (_ & _ & _ & Hat & _).
    refine (proj2 (Hat ["-n"; "1"; "2"; "-W"; "3"; "-L"; "10"]%string
                     "-C"%string []
                     (set_window_basewidth 10
                        (set_nr_window_widths 3
                           (set_index_b 2 (set_index_a 1 initial_options))))
                     eq_refl ltac:(vm_compute; reflexivity))
              (or_introl eq_refl) _).
    intros H. cbn in H.
    repeat (destruct H as [H | H]; [discriminate H | ]). exact H.
Defined.

Lemma nonpositive_options_end_the_run_witness :
  @main Sample.constant_kernels (Sample.two_columns 100)
    (Sample.one_thread 1000) "netOnZeroDXC_diagram"
    ["-n"; "1"; "2"; "-W"; "0"; "-L"; "10"]%string
  = ([EvStderr (MsgWidthsNotSet "netOnZeroDXC_diagram")], Exit 1).
Proof.
  exact (@nonpositive_options_end_the_run Sample.constant_kernels
           (Sample.two_columns 100) (Sample.one_thread 1000)
           "netOnZeroDXC_diagram"
           ["-n"; "1"; "2"; "-W"; "0"; "-L"; "10"]%string
           (mkOptions false false false false false 1 2 (-1) 0 10 100
              EmptyString EmptyString "t"%char)
           ltac:(vm_compute; reflexivity)
           ltac:(right; right; left; by_computation)).
Defined.

Lemma mandatory_options_missing_witness :
  exists m,
    @main Sample.constant_kernels (Sample.two_columns 100)
      (Sample.one_thread 1000) "netOnZeroDXC_diagram"
      ["-W"; "3"; "-L"; "10"]%string
    = ([EvStderr m], Exit 1).
Proof.
  refine (proj2 (proj2
            (@mandatory_options_missing Sample.constant_kernels
               (Sample.two_columns 100) (Sample.one_thread 1000)
               "netOnZeroDXC_diagram" ["-W"; "3"; "-L"; "10"]%string _))
            (mkOptions false false false false false (-1) (-1) (-1) 3 10 100
               EmptyString EmptyString "t"%char) _).
  - left. intros [H | [H | [H | [H | []]]]]; discriminate H.
  - vm_compute. reflexivity.
Defined.

Lemma transpose_table_columns_witness :
  exists seqs,
    transpose_table ([1%Q; 2%Q] :: [[3%Q; 4%Q]; [5%Q; 6%Q; 7%Q]])
    = ([], Ret seqs) /\
    List.length seqs = 2%nat.
Proof.
  destruct (transpose_table_columns [1%Q; 2%Q] [[3%Q; 4%Q]; [5%Q; 6%Q; 7%Q]])
    as (seqs & Hrun & Hlen & _).
  - repeat constructor.
  - exists seqs. split; [exact Hrun | exact Hlen].
Defined.

Lemma loading_failures_end_the_run_witness :
  @main Sample.constant_kernels (Sample.two_columns 100)
    (Sample.one_thread 1000) "netOnZeroDXC_diagram"
    ["-n"; "1"; "2"; "-W"; "3"; "-L"; "10"; "-i"; "data.txt"]%string
  = ([] ++ [EvStderr (MsgCannotRead "data.txt")], Exit 1).
Proof.
  exact (proj1
           (@loading_failures_end_the_run Sample.constant_kernels
              (Sample.two_columns 100) (Sample.one_thread 1000)
              "netOnZeroDXC_diagram"
              ["-n"; "1"; "2"; "-W"; "3"; "-L"; "10"; "-i"; "data.txt"]%string
              []
              (mkOptions true false false true false 1 2 (-1) 3 10 100
                 "data.txt" EmptyString "009"%char)
              ltac:(vm_compute; reflexivity))
           eq_refl eq_refl).
Defined.

Lemma columns_beyond_the_table_end_the_run_witness :
  @main Sample.constant_kernels (Sample.two_columns 100)
    (Sample.one_thread 1000) "netOnZeroDXC_diagram"
    ["-n"; "1"; "3"; "-W"; "3"; "-L"; "10"]%string
  = ([] ++ [] ++ [EvStderr MsgColumnsTooLarge], Exit 1).
Proof.
  apply (@columns_beyond_the_table_end_the_run Sample.constant_kernels
           (Sample.two_columns 100) (Sample.one_thread 1000)
           "netOnZeroDXC_diagram"
           ["-n"; "1"; "3"; "-W"; "3"; "-L"; "10"]%string [] []
           (mkOptions false false false true false 1 3 (-1) 3 10 100
              EmptyString EmptyString "009"%char)
           0 [repeat 1%Q 100; repeat 1%Q 100]).
  - vm_compute. reflexivity.
  - vm_compute. reflexivity.
  - discriminate.
  - discriminate.
  - right. vm_compute. reflexivity.
Defined.

Lemma check_sequences_returns_witness :
  netOnZeroDXC_xc_check_sequences Sample.three_sequences 1 2 3 11 0
  = ([EvStderr (MsgOddBaseWidth 10)], Ret (0, 10)) /\
  Z.even 10 = true.
Proof.
  assert (Hrun : netOnZeroDXC_xc_check_sequences Sample.three_sequences 1 2 3 11 0
                 = ([EvStderr (MsgOddBaseWidth 10)], Ret (0, 10)))
    by (vm_compute; reflexivity).
  split; [exact Hrun | ].
  destruct (check_sequences_returns _ _ _ _ _ _ _ _ _ Hrun)
    as [(H & _) | (_ & H & _)]; [discriminate H | exact H].
Defined.

Lemma help_ends_the_run_witness :
  @main Sample.constant_kernels (Sample.two_columns 100)
    (Sample.one_thread 1000) "netOnZeroDXC_diagram"
    (["-W"; "3"]%string ++ "--help"%string :: ["-L"]%string)%list
  = ([EvStderr (MsgHelp "netOnZeroDXC_diagram")], Exit 0).
Proof.
  apply (@help_ends_the_run Sample.constant_kernels (Sample.two_columns 100)
           (Sample.one_thread 1000) "netOnZeroDXC_diagram"
           ["-W"; "3"]%string ["-L"]%string "--help"
           (set_nr_window_widths 3 initial_options)).
  - vm_compute. reflexivity.
  - right. reflexivity.
Defined.

Lemma short_sequences_pass_validation_witness :
  check_windowing 10 3 10 0 = ([], Ret (0, 10)) /\
  check_windowing 10 3 11 0 = ([EvStderr (MsgOddBaseWidth 10)], Ret (0, 10)).
Proof.
  split.
  - exact (short_sequences_pass_validation 10 3 10 0
             ltac:(by_computation) ltac:(by_computation) ltac:(by_computation)
             ltac:(by_computation) ltac:(by_computation)).
  - exact (short_sequences_pass_validation 10 3 11 0
             ltac:(by_computation) ltac:(by_computation) ltac:(by_computation)
             ltac:(by_computation) ltac:(by_computation)).
Defined.

Lemma center_loop_on_short_sequences_witness :
  make_dummy_vector 10 3 10 0 = ([], Undefined) /\
  make_dummy_vector 20 3 10 0 = ([], Ret []).
Proof.
  split.
  - exact (proj1 (proj1 (center_loop_on_short_sequences 10 3 10 0
                           ltac:(by_computation) ltac:(by_computation)
                           ltac:(by_computation) ltac:(by_computation)
                           ltac:(by_computation))
                    ltac:(by_computation))).
  - exact (proj2 (center_loop_on_short_sequences 20 3 10 0
                    ltac:(by_computation) ltac:(by_computation)
                    ltac:(by_computation) ltac:(by_computation)
                    ltac:(by_computation))
             ltac:(by_computation)).
Defined.

Lemma base_width_one_gives_empty_rows_witness :
  @prepare (Sample.two_columns 100) "netOnZeroDXC_diagram"
    ["-n"; "1"; "2"; "-W"; "3"; "-L"; "1"; "-C"]%string
  = ([EvStderr (MsgOddBaseWidth 0)],
     Ret (mkPrepared
            (mkOptions false false true false false 1 2 (-1) 3 1 100
               EmptyString EmptyString "009"%char)
            0 [repeat 1%Q 100; repeat 1%Q 100] 0 [])) /\
  new_diagram 3 [] = repeat [] 3.
Proof.
  assert (Hp : @prepare (Sample.two_columns 100) "netOnZeroDXC_diagram"
                 ["-n"; "1"; "2"; "-W"; "3"; "-L"; "1"; "-C"]%string
               = ([EvStderr (MsgOddBaseWidth 0)],
                  Ret (mkPrepared
                         (mkOptions false false true false false 1 2 (-1) 3 1
                            100 EmptyString EmptyString "009"%char)
                         0 [repeat 1%Q 100; repeat 1%Q 100] 0 [])))
    by (vm_compute; reflexivity).
  split; [exact Hp | ].
  exact (proj1 (proj2 (proj2
           (@base_width_one_gives_empty_rows Sample.constant_kernels
              (Sample.two_columns 100) (Sample.one_thread 1000)
              _ _ _ _ Hp eq_refl)))).
Defined.

Lemma sequential_run_events_witness :
  @main Sample.constant_kernels (Sample.two_columns 100)
    (Sample.one_thread 1000) "netOnZeroDXC_diagram"
    (Sample.argv_sequential "3")
  = ([] ++ @sequential_events (Sample.one_thread 1000)
             Sample.prepared_sequential
        ++ [EvStdout (repeat (repeat 3%Q 8) 3) "009"%char],
     Ret 0).
Proof.
  exact (proj1
           (proj2
              (@sequential_run_events Sample.constant_kernels
                 (Sample.two_columns 100) (Sample.one_thread 1000)
                 "netOnZeroDXC_diagram" (Sample.argv_sequential "3")
                 [] Sample.prepared_sequential
                 ltac:(vm_compute; reflexivity) eq_refl eq_refl)
              eq_refl)
           ltac:(vm_compute; reflexivity)).
Defined.

Lemma sequential_seeds_are_distinct_witness :
  NoDup (seeds_of (trace (@main Sample.constant_kernels
                            (Sample.two_columns 100) (Sample.one_thread 1000)
                            "netOnZeroDXC_diagram"
                            (Sample.argv_sequential "3")))) /\
  List.length (seeds_of (trace (@main Sample.constant_kernels
                                  (Sample.two_columns 100)
                                  (Sample.one_thread 1000)
                                  "netOnZeroDXC_diagram"
                                  (Sample.argv_sequential "3"))))
  = 6%nat.
Proof.
  exact (@sequential_seeds_are_distinct Sample.constant_kernels
           (Sample.two_columns 100) (Sample.one_thread 1000)
           "netOnZeroDXC_diagram" (Sample.argv_sequential "3")
           [] Sample.prepared_sequential
           ltac:(vm_compute; reflexivity) eq_refl eq_refl).
Defined.

Lemma parallel_seeds_of_an_ordered_team_witness :
  seeds_of (trace (@main Sample.constant_kernels (Sample.two_columns 100)
                     (Sample.one_thread 1000) "netOnZeroDXC_diagram"
                     (Sample.argv_parallel "4")))
  = flat_map (fun i => [to_uint (1000 + i * i + 2 * i);
                        to_uint (1000 + i * i + 2 * i + 1)])
             (iota 4).
Proof.
  exact (@parallel_seeds_of_an_ordered_team Sample.constant_kernels
           (Sample.two_columns 100) (Sample.one_thread 1000)
           "netOnZeroDXC_diagram" (Sample.argv_parallel "4") []
           (mkPrepared
              (mkOptions false false false true true 1 2 (-1) 3 10 4
                 EmptyString EmptyString "009"%char)
              0 [repeat 1%Q 100; repeat 1%Q 100] 10 (repeat 0%Q 8))
           ltac:(vm_compute; reflexivity) eq_refl eq_refl eq_refl
           ltac:(by_computation)).
Defined.

Lemma parallel_trial_index_overflows_witness :
  outcome (@main Sample.constant_kernels (Sample.two_columns 100)
             (Sample.one_thread 1000) "netOnZeroDXC_diagram"
             (Sample.argv_parallel "1073741825"))
  = Undefined.
Proof.
  exact (proj1
           (@parallel_trial_index_overflows Sample.constant_kernels
              (Sample.two_columns 100) (Sample.one_thread 1000)
              "netOnZeroDXC_diagram" (Sample.argv_parallel "1073741825") []
              (mkPrepared
                 (mkOptions false false false true true 1 2 (-1) 3 10
                    1073741825 EmptyString EmptyString "009"%char)
                 0 [repeat 1%Q 100; repeat 1%Q 100] 10 (repeat 0%Q 8))
              ltac:(vm_compute; reflexivity) eq_refl eq_refl
              ltac:(by_computation))).
Defined.

Lemma failed_run_prints_no_table_witness :
  outcome (@main Sample.constant_kernels (Sample.two_columns 100)
             (Sample.one_thread 1000) "netOnZeroDXC_diagram"
             ["-n"; "1"; "3"; "-W"; "3"; "-L"; "10"]%string) = Exit 1 /\
  Forall (fun e => is_stdout e = false)
    (trace (@main Sample.constant_kernels (Sample.two_columns 100)
              (Sample.one_thread 1000) "netOnZeroDXC_diagram"
              ["-n"; "1"; "3"; "-W"; "3"; "-L"; "10"]%string)).
Proof.
  split; [vm_compute; reflexivity | ].
  apply (@failed_run_prints_no_table Sample.constant_kernels
           (Sample.two_columns 100) (Sample.one_thread 1000)
           "netOnZeroDXC_diagram"
           ["-n"; "1"; "3"; "-W"; "3"; "-L"; "10"]%string).
  vm_compute. reflexivity.
Defined.

Lemma option_without_value_witness :
  @main Sample.constant_kernels (Sample.two_columns 100)
    (Sample.one_thread 1000) "netOnZeroDXC_diagram"
    (["-W"; "3"]%string ++ ["-L"]%string)%list = ([], Undefined) /\
  @main Sample.constant_kernels (Sample.two_columns 100)
    (Sample.one_thread 1000) "netOnZeroDXC_diagram"
    (["-W"; "3"]%string ++ ["-n"; "1"]%string)%list = ([], Undefined).
Proof.
  apply (@option_without_value Sample.constant_kernels
           (Sample.two_columns 100) (Sample.one_thread 1000)
           "netOnZeroDXC_diagram" ["-W"; "3"]%string
           (set_nr_window_widths 3 initial_options) "-L" "1").
  - vm_compute. reflexivity.
  - do 5 right. left. reflexivity.
Defined.

Lemma empty_or_ragged_input_witness :
  @main Sample.constant_kernels (Sample.two_columns 0)
    (Sample.one_thread 1000) "netOnZeroDXC_diagram" Sample.argv_correlation
  = ([], Undefined).
Proof.
  apply (@empty_or_ragged_input Sample.constant_kernels (Sample.two_columns 0)
           (Sample.one_thread 1000) "netOnZeroDXC_diagram"
           Sample.argv_correlation [] Sample.options_correlation).
  - vm_compute. reflexivity.
  - reflexivity.
  - left. reflexivity.
Defined.
